(** * Verification of [processing/data_exporter.py]

    The exporter walks the lighting setups, frames and shapes of a Blender
    scene and writes one CSV row per (setup, frame, shape).  This file embeds
    the script function by function and proves the properties its
    specification states about it.

    Conventions of the embedding:
    - a Python [float] is an ideal real number ([R]); comparisons of finite
      floats are exact, rounding is abstracted;
    - a Python [int] is a [Z]; [%] and [//] with a positive divisor are
      [Z.modulo] and [Z.div] (both round towards minus infinity);
    - a Python [dict] with string keys is a [gmap string _];
    - a raised exception is the [Raise] constructor of [result]; [try] and
      [except] are [try_except];
    - [bpy.data.objects] is the list of the scene's objects in enumeration
      order; objects are looked up by name;
    - the host is a POSIX system: [os.path] is [posixpath], paths are joined
      with a slash ([ntpath], which Windows uses, is not embedded). *)

From Stdlib Require Import Reals Lra ZArith Ascii String.
From stdpp Require Import gmap strings list fin_maps pretty sorting.

(** ** Exceptions *)

Inductive exn : Set :=
  | ValueError
  | TypeError
  | AttributeError
  | KeyError.

Inductive result (A : Type) : Type :=
  | Ok (a : A)
  | Raise (e : exn).
Arguments Ok {A} a.
Arguments Raise {A} e.

#[global] Instance result_ret : MRet result := fun _ a => Ok a.
#[global] Instance result_bind : MBind result := fun _ _ f m =>
  match m with
  | Ok a => f a
  | Raise e => Raise e
  end.

(** [try: body except: handler] with a bare [except], which catches every
    exception. *)
Definition try_except {A} (body handler : result A) : result A :=
  match body with
  | Ok a => Ok a
  | Raise _ => handler
  end.

(** ** CSV cells

    A cell holds a string, an integer, a float or a boolean; the placeholder
    written where a column has no data is the empty string, [FStr ""]. *)

Inductive field : Type :=
  | FStr (s : string)
  | FInt (z : Z)
  | FFloat (r : R)
  | FBool (b : bool).

(** ** Configuration constants of the script *)

Definition DATASET_ROOT : string := "../data".
Definition MATERIAL_FOLDER : string := "PlasticGlossy".
Definition SHAPES : list string :=
  ["Cone"; "Cube"; "Cylinder"; "Icosphere"; "Sphere"; "Torus"].
Definition CAMERAS_PER_CONFIG : Z := 17.
Definition MAX_ACTIVE_LIGHTS : nat := 3.

Definition LIGHTS_SINGLE : list (string * string) :=
  [("Area Light", "Area"); ("Point Light", "Point"); ("Spot Light", "Spot")].
Definition LIGHTS_TRI : list string :=
  ["TriLamp-Key"; "TriLamp-Fill"; "TriLamp-Back"].
Definition ALL_LIGHT_NAMES : list string := LIGHTS_SINGLE.*2 ++ LIGHTS_TRI.

(** ** The conversions [float(x)] and [str(x)]

    Both builtins dispatch on the argument ([__float__], [__str__]) and may
    raise; a Python type is given by what the two conversions do on it. *)

Class PyFloat (A : Type) := py_float : A -> result R.
Class PyStr (A : Type) := py_str : A -> result string.

#[global] Instance float_PyFloat : PyFloat R := fun r => Ok r.
#[global] Instance str_PyStr : PyStr string := fun s => Ok s.
(** [None]: [float(None)] raises [TypeError], [str(None)] is ["None"]. *)
#[global] Instance none_PyFloat : PyFloat unit := fun _ => Raise TypeError.
#[global] Instance none_PyStr : PyStr unit := fun _ => Ok "None".

Definition safe_float {A} `{PyFloat A} (x : A) : result field :=
  try_except (r ← py_float x; mret (FFloat r)) (mret (FStr "")).

Definition safe_str {A} `{PyStr A} (x : A) : result field :=
  try_except (s ← py_str x; mret (FStr s)) (mret (FStr "")).

(** ** The host's vector library ([mathutils]), in real arithmetic

    The script calls [Vector], [Matrix.to_3x3], [Matrix.translation], [@],
    [Matrix.inverted] and [Vector.normalized]; they are given here by what
    the library documents, over the reals. *)

Module mathutils.
Local Open Scope R_scope.

Record Vector : Type := mkVector { x : R; y : R; z : R }.

Record Matrix3 : Type := mkMatrix3 {
  m00 : R; m01 : R; m02 : R;
  m10 : R; m11 : R; m12 : R;
  m20 : R; m21 : R; m22 : R }.

(** A 4x4 object-to-world matrix, by the two parts the script reads. *)
Record Matrix4 : Type := mkMatrix4 {
  to_3x3 : Matrix3;
  translation : Vector }.

Definition dot (a b : Vector) : R := x a * x b + y a * y b + z a * z b.

(** [m @ v] *)
Definition matvec (m : Matrix3) (v : Vector) : Vector :=
  mkVector (m00 m * x v + m01 m * y v + m02 m * z v)
           (m10 m * x v + m11 m * y v + m12 m * z v)
           (m20 m * x v + m21 m * y v + m22 m * z v).

Definition det (m : Matrix3) : R :=
  m00 m * (m11 m * m22 m - m12 m * m21 m)
  - m01 m * (m10 m * m22 m - m12 m * m20 m)
  + m02 m * (m10 m * m21 m - m11 m * m20 m).

Definition adjugate (m : Matrix3) : Matrix3 :=
  mkMatrix3
    (m11 m * m22 m - m12 m * m21 m) (m02 m * m21 m - m01 m * m22 m) (m01 m * m12 m - m02 m * m11 m)
    (m12 m * m20 m - m10 m * m22 m) (m00 m * m22 m - m02 m * m20 m) (m02 m * m10 m - m00 m * m12 m)
    (m10 m * m21 m - m11 m * m20 m) (m01 m * m20 m - m00 m * m21 m) (m00 m * m11 m - m01 m * m10 m).

Definition scale_matrix (k : R) (m : Matrix3) : Matrix3 :=
  mkMatrix3 (k * m00 m) (k * m01 m) (k * m02 m)
            (k * m10 m) (k * m11 m) (k * m12 m)
            (k * m20 m) (k * m21 m) (k * m22 m).

(** [m.inverted()]: raises [ValueError] when the matrix has no inverse. *)
Definition inverted (m : Matrix3) : result Matrix3 :=
  if Req_dec_T (det m) 0 then Raise ValueError
  else Ok (scale_matrix (/ det m) (adjugate m)).

(** [v.normalized()]: the vector scaled to length one; the zero vector is
    returned as it is. *)
Definition normalized (v : Vector) : Vector :=
  if Req_dec_T (dot v v) 0 then mkVector 0 0 0
  else mkVector (x v / sqrt (dot v v)) (y v / sqrt (dot v v)) (z v / sqrt (dot v v)).

End mathutils.
Import mathutils.

(** [math.degrees] *)
Definition degrees (r : R) : R := (r * (180 / PI))%R.

(** ** Scene objects *)

Inductive LightParams : Type :=
  | PointLight
  | SunLight
  | SpotLight (spot_size spot_blend : R)
  | AreaLight (shape : string) (size size_y : R).

Record Light : Type := mkLight {
  energy : R;
  color : R * R * R;
  params : LightParams }.

(** [L.type] *)
Definition light_type (L : Light) : string :=
  match params L with
  | PointLight => "POINT"
  | SunLight => "SUN"
  | SpotLight _ _ => "SPOT"
  | AreaLight _ _ _ => "AREA"
  end.

(** [obj.data]; every kind of object the script does not look into is
    [DMesh]. *)
Inductive ObData : Type :=
  | DLight (L : Light)
  | DCamera (lens : R)
  | DEmpty
  | DMesh.

Record Object : Type := mkObject {
  name : string;
  hide_render : bool;
  matrix_world : Matrix4;
  data : ObData }.

(** [obj.type] *)
Definition obj_type (o : Object) : string :=
  match data o with
  | DLight _ => "LIGHT"
  | DCamera _ => "CAMERA"
  | DEmpty => "EMPTY"
  | DMesh => "MESH"
  end.

(** The part of the host state the script reads and writes: [bpy.data.objects]
    and [bpy.context.scene].  The script reads the name, the matrix and the
    data of [scene.camera] and never writes them, so the camera is kept as a
    value of its own. *)
Record Blend : Type := mkBlend {
  objects : list Object;
  camera : option Object;
  frame_start : Z;
  frame_end : Z;
  render_engine : string;
  view_transform : string;
  look : string }.

Definition obj_forward_world (obj : Object) : Vector :=
  normalized (matvec (to_3x3 (matrix_world obj)) (mkVector 0 0 (-1))).

(** ** [set_light_setup] *)

(** [bpy.data.objects.get(name)], with the position of the object found. *)
Definition objects_get (nm : string) (objs : list Object) : option (nat * Object) :=
  list_find (fun o => name o = nm) objs.

(** [obj.hide_render = v] *)
Definition with_hide_render (v : bool) (obj : Object) : Object :=
  mkObject (name obj) v (matrix_world obj) (data obj).

(** [obj = bpy.data.objects.get(name)] followed by
    [if obj: obj.hide_render = v]. *)
Definition set_hide_render (v : bool) (objs : list Object) (nm : string) : list Object :=
  match objects_get nm objs with
  | Some (i, obj) =>
      <[i := with_hide_render v obj]> objs
  | None => objs
  end.

(** [d[k]] for a dict written as a list of items. *)
Fixpoint dict_item (k : string) (d : list (string * string)) : option string :=
  match d with
  | [] => None
  | (k', v) :: d' => if bool_decide (k' = k) then Some v else dict_item k d'
  end.

(** [s.startswith(p)] *)
Definition startswith (p s : string) : bool := String.prefix p s.

Definition set_light_setup (setup_name : string) (objs : list Object) : list Object :=
  (* turn all known lights off first *)
  let objs := foldl (set_hide_render true) objs ALL_LIGHT_NAMES in
  match dict_item setup_name LIGHTS_SINGLE with
  | Some nm =>
      (* enable the single named lamp *)
      set_hide_render false objs nm
  | None =>
      if bool_decide (setup_name = "Tri Light") then
        (* enable the 3-point lighting setup *)
        foldl (set_hide_render false) objs LIGHTS_TRI
      else if startswith "HDRI" setup_name then
        (* all lamps off .. world lighting only *)
        objs
      else objs
  end.

(** ** [get_engine_and_batch] *)

(** [s.lower()] on ASCII letters. *)
Definition lower_ascii (c : ascii) : ascii :=
  let n := nat_of_ascii c in
  if bool_decide (65 <= n <= 90)%nat then ascii_of_nat (n + 32) else c.

Fixpoint lower (s : string) : string :=
  match s with
  | EmptyString => EmptyString
  | String c s' => String (lower_ascii c) (lower s')
  end.

(** [p in s] for strings. *)
Fixpoint contains (p s : string) : bool :=
  String.prefix p s ||
  match s with
  | EmptyString => false
  | String _ s' => contains p s'
  end.

Definition get_engine_and_batch (b : Blend) : result (gmap string field) :=
  e ← safe_str (render_engine b);
  let eng := match e with FStr s => lower s | _ => "" end in
  let eng_name := if contains "cycles" eng then "Cycles"
                  else if contains "eevee" eng then "Eevee" else "UnknownEngine" in
  v ← safe_str (view_transform b);
  let vt := match v with FStr s => lower s | _ => "" end in
  let vt_name := if contains "agx" vt then "AGX"
                 else if contains "filmic" vt then "Filmic" else "UnknownView" in
  f_engine ← safe_str (render_engine b);
  f_view ← safe_str (view_transform b);
  f_look ← safe_str (look b);
  mret (<["batch_folder" := FStr ("Batch 1 - " +:+ eng_name +:+ " " +:+ vt_name)]>
        (<["look" := f_look]>
        (<["view_transform" := f_view]>
        (<["render_engine" := f_engine]> ∅)))).

(** ** [get_camera] *)

Definition get_camera (b : Blend) : result (gmap string field) :=
  match camera b with
  | None => mret ∅
  | Some cam =>
      let cam_pos := translation (matrix_world cam) in
      let cam_rot := to_3x3 (matrix_world cam) in
      let cam_forward := normalized (matvec cam_rot (mkVector 0 0 (-1))) in
      let cam_up := normalized (matvec cam_rot (mkVector 0 1 0)) in
      let cam_right := normalized (matvec cam_rot (mkVector 1 0 0)) in
      camera_name ← safe_str (name cam);
      pos_x ← safe_float (x cam_pos);
      pos_y ← safe_float (y cam_pos);
      pos_z ← safe_float (z cam_pos);
      forward_x ← safe_float (x cam_forward);
      forward_y ← safe_float (y cam_forward);
      forward_z ← safe_float (z cam_forward);
      up_x ← safe_float (x cam_up);
      up_y ← safe_float (y cam_up);
      up_z ← safe_float (z cam_up);
      right_x ← safe_float (x cam_right);
      right_y ← safe_float (y cam_right);
      right_z ← safe_float (z cam_right);
      focal ← match data cam with
              | DEmpty => mret (FStr "")
              | DCamera lens => safe_float lens
              | DLight _ | DMesh => Raise AttributeError
              end;
      mret (<["focal_length_mm" := focal]>
           (<["cam_right_z" := right_z]> (<["cam_right_y" := right_y]> (<["cam_right_x" := right_x]>
           (<["cam_up_z" := up_z]> (<["cam_up_y" := up_y]> (<["cam_up_x" := up_x]>
           (<["cam_forward_z" := forward_z]> (<["cam_forward_y" := forward_y]>
           (<["cam_forward_x" := forward_x]>
           (<["cam_pos_z" := pos_z]> (<["cam_pos_y" := pos_y]> (<["cam_pos_x" := pos_x]>
           (<["camera_name" := camera_name]> ∅))))))))))))))
  end.

(** ** [get_active_lights] *)

#[global] Instance Rle_decision (a b : R) : Decision (a <= b)%R := Rle_dec a b.
#[global] Instance Rlt_decision (a b : R) : Decision (a < b)%R := Rlt_dec a b.

#[global] Instance Req_decision (a b : R) : Decision (a = b) := Req_dec_T a b.

(** [list.sort(key=..., reverse=...)].  The sort is stable and compares keys
    with [<] only; with [reverse=True] the list is reversed, sorted in
    ascending order and reversed again, as CPython does. *)
Section list_sort.
Context {A : Type} (key : A -> R).

Fixpoint insert_sorted (a : A) (l : list A) : list A :=
  match l with
  | [] => [a]
  | b :: l' =>
      if bool_decide (key b < key a)%R then b :: insert_sorted a l'
      else a :: b :: l'
  end.

Definition sort_ascending (l : list A) : list A := foldr insert_sorted [] l.

Definition list_sort (rev : bool) (l : list A) : list A :=
  if rev then reverse (sort_ascending (reverse l)) else sort_ascending l.
End list_sort.

(** [float(getattr(obj.data, "energy", 0.0))] *)
Definition energy_of (obj : Object) : R :=
  match data obj with
  | DLight L => energy L
  | _ => 0%R
  end.

(** The body of the collecting loop: the three [continue]s, then [append]. *)
Definition collect_light (lights : list Object) (obj : Object) : list Object :=
  if bool_decide (obj_type obj ≠ "LIGHT") then lights
  else if hide_render obj then lights
  else if bool_decide (energy_of obj <= 0)%R then lights
  else lights ++ [obj].

Definition slot_attrs : list string :=
  ["name"; "type"; "energy"; "color_r"; "color_g"; "color_b";
   "pos_x"; "pos_y"; "pos_z"; "dir_x"; "dir_y"; "dir_z";
   "dir_cam_x"; "dir_cam_y"; "dir_cam_z";
   "spot_cone_deg"; "spot_blend";
   "area_shape"; "area_size_x"; "area_size_y"].

(** [f"light{i}_"] *)
Definition slot_prefix (i : nat) : string := "light" +:+ pretty i +:+ "_".

(** [out.update({p+k: "" for k in [...]})] *)
Definition empty_slot (p : string) (out : gmap string field) : gmap string field :=
  foldl (fun out k => <[p +:+ k := FStr ""]> out) out slot_attrs.

(** [v in {...}] for a cell [v] and a set of strings. *)
Definition field_in (v : field) (strs : list string) : bool :=
  match v with
  | FStr s => bool_decide (s ∈ strs)
  | _ => false
  end.

(** The direction of a light in camera space. *)
Definition light_dir_cam (cam_rot : option Matrix3) (dir_world : Vector) : result Vector :=
  match cam_rot with
  | Some m => inv ← inverted m; mret (normalized (matvec inv dir_world))
  | None => mret (mkVector 0 0 0)
  end.

(** The body of the slot loop for a slot that has a light. *)
Definition light_slot (cam_rot : option Matrix3) (p : string) (obj : Object)
    (out : gmap string field) : result (gmap string field) :=
  match data obj with
  | DLight L =>
      let pos := translation (matrix_world obj) in
      let dir_world := obj_forward_world obj in
      dir_cam ← light_dir_cam cam_rot dir_world;
      let col := color L in
      let out := <[p +:+ "name" := FStr (name obj)]> out in
      let out := <[p +:+ "type" := FStr (light_type L)]> out in
      v ← safe_float (energy L); let out := <[p +:+ "energy" := v]> out in
      v ← safe_float col.1.1; let out := <[p +:+ "color_r" := v]> out in
      v ← safe_float col.1.2; let out := <[p +:+ "color_g" := v]> out in
      v ← safe_float col.2; let out := <[p +:+ "color_b" := v]> out in
      v ← safe_float (x pos); let out := <[p +:+ "pos_x" := v]> out in
      v ← safe_float (y pos); let out := <[p +:+ "pos_y" := v]> out in
      v ← safe_float (z pos); let out := <[p +:+ "pos_z" := v]> out in
      v ← safe_float (x dir_world); let out := <[p +:+ "dir_x" := v]> out in
      v ← safe_float (y dir_world); let out := <[p +:+ "dir_y" := v]> out in
      v ← safe_float (z dir_world); let out := <[p +:+ "dir_z" := v]> out in
      v ← safe_float (x dir_cam); let out := <[p +:+ "dir_cam_x" := v]> out in
      v ← safe_float (y dir_cam); let out := <[p +:+ "dir_cam_y" := v]> out in
      v ← safe_float (z dir_cam); let out := <[p +:+ "dir_cam_z" := v]> out in
      (* spotlight properties *)
      out ← match params L with
            | SpotLight spot_size spot_blend =>
                v ← safe_float (degrees spot_size);
                let out := <[p +:+ "spot_cone_deg" := v]> out in
                v ← safe_float spot_blend;
                mret (<[p +:+ "spot_blend" := v]> out)
            | _ =>
                mret (<[p +:+ "spot_blend" := FStr ""]>
                     (<[p +:+ "spot_cone_deg" := FStr ""]> out))
            end;
      (* area light properties *)
      match params L with
      | AreaLight shape size size_y =>
          v_shape ← safe_str shape;
          let out := <[p +:+ "area_shape" := v_shape]> out in
          v_x ← safe_float size;
          let out := <[p +:+ "area_size_x" := v_x]> out in
          if field_in v_shape ["RECTANGLE"; "ELLIPSE"] then
            v_y ← safe_float size_y;
            mret (<[p +:+ "area_size_y" := v_y]> out)
          else
            mret (<[p +:+ "area_size_y" := v_x]> out)
      | _ =>
          mret (<[p +:+ "area_size_y" := FStr ""]>
               (<[p +:+ "area_size_x" := FStr ""]>
               (<[p +:+ "area_shape" := FStr ""]> out)))
      end
  | _ => Raise AttributeError
  end.

(** [for x in xs: body], threading the loop's state and stopping at the first
    exception. *)
Fixpoint for_each {A S : Type} (xs : list A) (body : A -> S -> result S) (s : S) : result S :=
  match xs with
  | [] => Ok s
  | a :: xs' => s' ← body a s; for_each xs' body s'
  end.

(** The lights recorded for a frame: collected, sorted by energy descending
    and capped to [max_n]. *)
Definition brightest_lights (b : Blend) (max_n : nat) : list Object :=
  let lights := foldl collect_light [] (objects b) in
  let lights := list_sort energy_of true lights in
  take max_n lights.

Definition get_active_lights (b : Blend) (max_n : nat) : result (gmap string field) :=
  let cam_rot := (fun cam => to_3x3 (matrix_world cam)) <$> camera b in
  let lights := brightest_lights b max_n in
  let out : gmap string field := {["num_active_lights" := FInt (Z.of_nat (length lights))]} in
  for_each (seq 0 max_n)
    (fun i out =>
       let p := slot_prefix i in
       match lights !! i with
       | None => mret (empty_slot p out)
       | Some obj => light_slot cam_rot p obj out
       end)
    out.

(** ** The main loop *)

Definition header : list string :=
  ["image_relpath"; "image_exists"; "shape_name"; "material_folder"; "light_folder"; "batch_folder";
   "frame"; "config_id"; "camera_png";
   "render_engine"; "view_transform"; "look";
   "camera_name";
   "cam_pos_x"; "cam_pos_y"; "cam_pos_z";
   "cam_forward_x"; "cam_forward_y"; "cam_forward_z";
   "cam_up_x"; "cam_up_y"; "cam_up_z";
   "cam_right_x"; "cam_right_y"; "cam_right_z";
   "focal_length_mm";
   "num_active_lights"]
  ++ foldl (fun header i => header ++ ((fun k => slot_prefix i +:+ k) <$> slot_attrs))
       [] (seq 0 MAX_ACTIVE_LIGHTS).

Definition setups : list string :=
  ["Point Light"; "Spot Light"; "Area Light"; "Tri Light"; "HDRI (Sunlight)"; "HDRI (Overcast)"].

(** Characters [str.strip] removes, among the code points below 256. *)
Definition is_space (c : ascii) : bool :=
  let n := nat_of_ascii c in
  bool_decide (9 <= n <= 13 \/ 28 <= n <= 32 \/ n = 133 \/ n = 160)%nat.

Fixpoint lstrip (s : string) : string :=
  match s with
  | EmptyString => EmptyString
  | String c s' => if is_space c then lstrip s' else s
  end.

Fixpoint rstrip (s : string) : string :=
  match s with
  | EmptyString => EmptyString
  | String c s' =>
      match rstrip s' with
      | EmptyString => if is_space c then EmptyString else String c EmptyString
      | t => String c t
      end
  end.

(** [s.strip()] *)
Definition strip (s : string) : string := rstrip (lstrip s).

(** A blank path: empty, or made of whitespace only. *)
Fixpoint blank (s : string) : bool :=
  match s with
  | EmptyString => true
  | String c s' => is_space c && blank s'
  end.

(** [s.endswith(p)] *)
Definition endswith (p s : string) : bool :=
  String.prefix (String.rev p) (String.rev s).

(** [os.path.join(a, *p)] on a POSIX host, that is [posixpath.join]: a
    component that starts with a slash drops what is before it. *)
Definition path_join (a : string) (p : list string) : string :=
  foldl (fun path b =>
           if startswith "/" b then b
           else if bool_decide (path = "") || endswith "/" path then path +:+ b
           else path +:+ "/" +:+ b)
        a p.

(** [idx = frame - fs], [camera_png = (idx % CAMERAS_PER_CONFIG) + 1] and
    [config_id = idx // CAMERAS_PER_CONFIG]. *)
Definition camera_png (fs frame : Z) : Z :=
  let idx := (frame - fs)%Z in
  (idx `mod` CAMERAS_PER_CONFIG + 1)%Z.

Definition config_id (fs frame : Z) : Z :=
  let idx := (frame - fs)%Z in
  (idx `div` CAMERAS_PER_CONFIG)%Z.

(** [base.update(d)] *)
Definition dict_update (base d : gmap string field) : gmap string field := d ∪ base.

(** The text of a string cell, as [os.path.join] receives [base["batch_folder"]]. *)
Definition field_text (v : option field) : result string :=
  match v with
  | Some (FStr s) => Ok s
  | Some _ => Raise TypeError
  | None => Raise KeyError
  end.

(** The output file: the rows written so far, the header row included. *)
Record World : Type := mkWorld {
  blend : Blend;
  csv_rows : list (list field) }.

(** The cells of a row in the order of the columns; a column without a key
    is written as the empty string. *)
Definition written_cells (fieldnames : list string) (row : gmap string field) : list field :=
  (fun k => default (FStr "") (row !! k)) <$> fieldnames.

(** [csv.DictWriter.writerow]: a key that is not a column raises
    [ValueError]. *)
Definition writerow (fieldnames : list string) (row : gmap string field)
    (rows : list (list field)) : result (list (list field)) :=
  if bool_decide (dom row ⊆ list_to_set fieldnames) then
    Ok (rows ++ [written_cells fieldnames row])
  else Raise ValueError.

(** [csv.DictWriter.writeheader] *)
Definition writeheader (fieldnames : list string) (rows : list (list field)) :
    list (list field) :=
  rows ++ [FStr <$> fieldnames].

(** A statement of the main loop runs on the host state and the output file;
    when it raises, the rows already written stay in the file. *)
Definition stmt : Type := World -> option exn * World.

Definition seq_stmt (s1 s2 : stmt) : stmt := fun w =>
  match s1 w with
  | (None, w') => s2 w'
  | (Some e, w') => (Some e, w')
  end.

Fixpoint for_stmt {A : Type} (xs : list A) (body : A -> stmt) : stmt :=
  match xs with
  | [] => fun w => (None, w)
  | a :: xs' => seq_stmt (body a) (for_stmt xs' body)
  end.

Section main.
(** The host: what [scene.frame_set] does to the scene, and which paths
    [os.path.exists] finds. *)
Variable frame_set : Z -> Blend -> Blend.
Variable path_exists : string -> bool.
(** The dataset root the script is configured with. *)
Variable dataset_root : string.

(** The body of the innermost loop: one row for one shape. *)
Definition shape_row (setup : string) (frame_png : Z) (base : gmap string field)
    (shape : string) : result (gmap string field) :=
  batch ← field_text (base !! "batch_folder");
  let rel := path_join shape [MATERIAL_FOLDER; setup; batch; pretty frame_png +:+ ".png"] in
  let exists_ := FStr "" in
  let exists_ := if bool_decide (strip dataset_root ≠ "")
                 then FBool (path_exists (path_join dataset_root [rel]))
                 else exists_ in
  let row := base in
  let row := <["shape_name" := FStr shape]> row in
  let row := <["image_relpath" := FStr rel]> row in
  let row := <["image_exists" := exists_]> row in
  mret row.

(** The relative image path of a row and its existence cell, in the words
    of the specification. *)
Definition image_relpath (setup : string) (frame_png : Z) (batch shape : string) : string :=
  path_join shape [MATERIAL_FOLDER; setup; batch; pretty frame_png +:+ ".png"].

Definition image_exists (rel : string) : field :=
  if blank dataset_root then FStr ""
  else FBool (path_exists (path_join dataset_root [rel])).

(** The cells [emit_shape] writes for a shape. *)
Definition shape_cells (setup : string) (frame_png : Z) (base : gmap string field)
    (shape : string) : list field :=
  match shape_row setup frame_png base shape with
  | Ok row => written_cells header row
  | Raise _ => []
  end.

Definition emit_shape (setup : string) (frame_png : Z) (base : gmap string field)
    (shape : string) : stmt := fun w =>
  match row ← shape_row setup frame_png base shape; writerow header row (csv_rows w) with
  | Ok rows => (None, mkWorld (blend w) rows)
  | Raise e => (Some e, w)
  end.

(** The data shared by the rows of a frame. *)
Definition frame_base (b : Blend) (fs : Z) (setup : string) (frame : Z) :
    result (gmap string field) :=
  let base : gmap string field :=
    <["camera_png" := FInt (camera_png fs frame)]>
    (<["config_id" := FInt (config_id fs frame)]>
    (<["frame" := FInt frame]>
    (<["light_folder" := FStr setup]>
    (<["material_folder" := FStr MATERIAL_FOLDER]> ∅)))) in
  d ← get_engine_and_batch b; let base := dict_update base d in
  d ← get_camera b; let base := dict_update base d in
  d ← get_active_lights b MAX_ACTIVE_LIGHTS; let base := dict_update base d in
  mret base.

Definition do_frame (fs : Z) (setup : string) (frame : Z) : stmt := fun w =>
  let w := mkWorld (frame_set frame (blend w)) (csv_rows w) in
  match frame_base (blend w) fs setup frame with
  | Ok base => for_stmt SHAPES (emit_shape setup (camera_png fs frame) base) w
  | Raise e => (Some e, w)
  end.

Definition do_setup (fs fe : Z) (setup : string) : stmt := fun w =>
  let b := blend w in
  let w := mkWorld (mkBlend (set_light_setup setup (objects b)) (camera b)
                      (frame_start b) (frame_end b) (render_engine b)
                      (view_transform b) (look b)) (csv_rows w) in
  for_stmt (seqZ fs (fe + 1 - fs)) (do_frame fs setup) w.

(** The script from [scene = bpy.context.scene] on, run on the host state
    [b] with an empty output file. *)
Definition main (b : Blend) : option exn * World :=
  let fs := frame_start b in
  let fe := frame_end b in
  let w := mkWorld b (writeheader header []) in
  for_stmt setups (do_setup fs fe) w.
End main.

(** ** Notions the specification is stated with *)

(** An active light: an object of type [LIGHT] that is visible in renders
    and has a strictly positive intensity. *)
Definition is_active (obj : Object) : Prop :=
  obj_type obj = "LIGHT" ∧ hide_render obj = false ∧ (0 < energy_of obj)%R.

#[global] Instance is_active_dec obj : Decision (is_active obj).
Proof. unfold is_active. apply _. Defined.

(** The lamps that belong to a lighting setup: the single named lamp, the
    three lamps of the tri rig, or none. *)
Definition setup_lamps (setup_name : string) : list string :=
  match dict_item setup_name LIGHTS_SINGLE with
  | Some nm => [nm]
  | None => if bool_decide (setup_name = "Tri Light") then LIGHTS_TRI else []
  end.

(** The cell of column [k] in a written row. *)
Definition csv_col (k : string) (r : list field) : option field :=
  match list_find (fun k' => k' = k) header with
  | Some (i, _) => r !! i
  | None => None
  end.

(** The three columns that identify a row. *)
Definition row_key (r : list field) : option field * option field * option field :=
  (csv_col "light_folder" r, csv_col "frame" r, csv_col "shape_name" r).

(** Writing the cells [vs] of the slot with prefix [p], in the order of
    [slot_attrs]. *)
Definition fill_slot (p : string) (vs : list field) (out : gmap string field) :
    gmap string field :=
  foldl (fun out kv => <[p +:+ kv.1 := kv.2]> out) out (zip slot_attrs vs).

(** The cells of a slot that holds the light [obj] with datablock [L]. *)
Definition light_cells (dir_cam : Vector) (obj : Object) (L : Light) : list field :=
  let pos := translation (matrix_world obj) in
  let dir_world := obj_forward_world obj in
  [FStr (name obj); FStr (light_type L); FFloat (energy L);
   FFloat (color L).1.1; FFloat (color L).1.2; FFloat (color L).2;
   FFloat (x pos); FFloat (y pos); FFloat (z pos);
   FFloat (x dir_world); FFloat (y dir_world); FFloat (z dir_world);
   FFloat (x dir_cam); FFloat (y dir_cam); FFloat (z dir_cam);
   match params L with SpotLight spot_size _ => FFloat (degrees spot_size) | _ => FStr "" end;
   match params L with SpotLight _ spot_blend => FFloat spot_blend | _ => FStr "" end;
   match params L with AreaLight shape _ _ => FStr shape | _ => FStr "" end;
   match params L with AreaLight _ size _ => FFloat size | _ => FStr "" end;
   match params L with
   | AreaLight shape size size_y =>
       if bool_decide (shape ∈ ["RECTANGLE"; "ELLIPSE"]) then FFloat size_y else FFloat size
   | _ => FStr ""
   end].

(** The cells slot [i] receives when the recorded lights are [lights]. *)
Definition slot_cells (cam_rot : option Matrix3) (lights : list Object) (i : nat)
    (vs : list field) : Prop :=
  match lights !! i with
  | None => vs = replicate 20 (FStr "")
  | Some obj =>
      ∃ L dir_cam, data obj = DLight L ∧
        light_dir_cam cam_rot (obj_forward_world obj) = Ok dir_cam ∧
        vs = light_cells dir_cam obj L
  end.

(** A scene whose camera, if there is one, has an invertible orientation. *)
Definition camera_invertible (b : Blend) : Prop :=
  match camera b with
  | Some cam => det (to_3x3 (matrix_world cam)) ≠ 0%R
  | None => True
  end.

(** A camera the camera extractor can read: no object data or camera data. *)
Definition camera_readable (b : Blend) : Prop :=
  match camera b with
  | Some cam => data cam = DEmpty ∨ ∃ lens, data cam = DCamera lens
  | None => True
  end.

(** The squared length of the vector held by three cells. *)
Definition cells_norm2 (cx cy cz : option field) : option R :=
  match cx, cy, cz with
  | Some (FFloat a), Some (FFloat b), Some (FFloat c) => Some (a * a + b * b + c * c)%R
  | _, _, _ => None
  end.

(** Ascending order of the sort keys. *)
Definition ascending {A : Type} (key : A -> R) : relation A :=
  fun a b => (key a <= key b)%R.

(** The keys of the dictionaries the row of a frame is assembled from. *)
Definition light_keys : list string :=
  "num_active_lights" ::
    ((fun k => slot_prefix 0 +:+ k) <$> slot_attrs) ++
    ((fun k => slot_prefix 1 +:+ k) <$> slot_attrs) ++
    ((fun k => slot_prefix 2 +:+ k) <$> slot_attrs).

Definition camera_keys : list string :=
  ["focal_length_mm"; "cam_right_z"; "cam_right_y"; "cam_right_x";
   "cam_up_z"; "cam_up_y"; "cam_up_x";
   "cam_forward_z"; "cam_forward_y"; "cam_forward_x";
   "cam_pos_z"; "cam_pos_y"; "cam_pos_x"; "camera_name"].

Definition engine_keys : list string :=
  ["batch_folder"; "look"; "view_transform"; "render_engine"].

Definition base_keys : list string :=
  ["camera_png"; "config_id"; "frame"; "light_folder"; "material_folder"].

Definition row_keys : list string := ["image_exists"; "image_relpath"; "shape_name"].

(** A frame's shared data: every key is a column, the batch folder is a
    string, and the identifying keys hold what the loop put there. *)
Record good_base (fs : Z) (setup : string) (frame : Z) (base : gmap string field) : Prop := {
  good_dom : dom base ⊆ list_to_set header;
  good_batch : ∃ batch, base !! "batch_folder" = Some (FStr batch);
  good_setup : base !! "light_folder" = Some (FStr setup);
  good_frame : base !! "frame" = Some (FInt frame);
  good_camera_png : base !! "camera_png" = Some (FInt (camera_png fs frame));
  good_config_id : base !! "config_id" = Some (FInt (config_id fs frame)) }.

(** ** Example scenes *)

Definition identity3 : Matrix3 := mkMatrix3 1 0 0 0 1 0 0 0 1.
Definition zero3 : Matrix3 := mkMatrix3 0 0 0 0 0 0 0 0 0.

(** A camera five units up the depth axis, with the given orientation. *)
Definition example_camera (rot : Matrix3) : Object :=
  mkObject "Camera" false (mkMatrix4 rot (mkVector 0 0 5)) (DCamera 50).

(** A white lamp at the origin. *)
Definition example_lamp (nm : string) (rot : Matrix3) (hidden : bool) (e : R)
    (p : LightParams) : Object :=
  mkObject nm hidden (mkMatrix4 rot (mkVector 0 0 0)) (DLight (mkLight e (1, 1, 1)%R p)).

Definition example_blend (objs : list Object) (cam : option Object) : Blend :=
  mkBlend objs cam 1 17 "CYCLES" "AgX" "None".

Definition lamp_point : Object := example_lamp "Point" identity3 false 5 PointLight.
Definition lamp_spot : Object := example_lamp "Spot" identity3 false 5 (SpotLight 1 (1 / 2)).
Definition lamp_hidden : Object := example_lamp "TriLamp-Key" identity3 true 100 PointLight.
Definition lamp_area : Object :=
  example_lamp "Area" identity3 false 8 (AreaLight "RECTANGLE" 2 3).
Definition lamp_sun : Object := example_lamp "Sun" identity3 false 3 SunLight.
Definition lamp_dark : Object := example_lamp "Dark" identity3 false 0 PointLight.
Definition lamp_flat : Object := example_lamp "Flat" zero3 false 5 PointLight.
Definition cube : Object :=
  mkObject "Cube" false (mkMatrix4 identity3 (mkVector 0 0 0)) DMesh.

(** A scene with four active lights, two of them equally bright. *)
Definition studio_objects : list Object :=
  [cube; lamp_point; lamp_spot; lamp_hidden; lamp_area; lamp_sun].

Definition studio : Blend := example_blend studio_objects (Some (example_camera identity3)).

(** The same lights seen by a camera scaled to nothing. *)
Definition studio_singular : Blend :=
  example_blend studio_objects (Some (example_camera zero3)).

(** A camera scaled to nothing in a scene without an active light. *)
Definition unlit_singular : Blend :=
  example_blend [cube; lamp_hidden; lamp_dark] (Some (example_camera zero3)).

(** A light scaled to nothing under a regular camera. *)
Definition flat_light_scene : Blend :=
  example_blend [lamp_flat] (Some (example_camera identity3)).

(** A host whose camera keeps its orientation and moves with the frame. *)
Definition example_frame_set (frame : Z) (b : Blend) : Blend :=
  mkBlend (objects b)
    (Some (mkObject "Camera" false (mkMatrix4 identity3 (mkVector (IZR frame) 0 5)) (DCamera 50)))
    (frame_start b) (frame_end b) (render_engine b) (view_transform b) (look b).

(** ** Further notions *)

(** What [set_light_setup] makes of the object at position [j]: the first
    object that carries a known lamp name gets the visibility of the setup,
    every other object stays as it is. *)
Definition setup_object (setup_name : string) (objs : list Object) (j : nat)
    (obj : Object) : Object :=
  if bool_decide (name obj ∈ ALL_LIGHT_NAMES ∧ fst <$> objects_get (name obj) objs = Some j)
  then with_hide_render (negb (bool_decide (name obj ∈ setup_lamps setup_name))) obj
  else obj.

(** The engine and view tags of the batch folder, and the folder's name. *)
Definition engine_tag (engine : string) : string :=
  if contains "cycles" (lower engine) then "Cycles"
  else if contains "eevee" (lower engine) then "Eevee" else "UnknownEngine".

Definition view_tag (view : string) : string :=
  if contains "agx" (lower view) then "AGX"
  else if contains "filmic" (lower view) then "Filmic" else "UnknownView".

Definition batch_folder (b : Blend) : string :=
  "Batch 1 - " +:+ engine_tag (render_engine b) +:+ " " +:+ view_tag (view_transform b).

(** The host state with the lamps of a setup switched on. *)
Definition with_setup (setup_name : string) (b : Blend) : Blend :=
  mkBlend (set_light_setup setup_name (objects b)) (camera b) (frame_start b) (frame_end b)
    (render_engine b) (view_transform b) (look b).

(** The half-angle of a spot's cone.  The host's [spot_size] is the angle of
    the whole beam in radians (from 1 to 180 degrees), the aperture of the
    cone; the half-angle, between the axis and the edge of the cone, is half
    of it. *)
Definition cone_half_angle (spot_size : R) : R := (spot_size / 2)%R.

(** A run of the script on the scene [b0] gets to frame [frame] of setup
    [setup] in state [w1]: the setups before [setup] have completed, and so
    have the frames of [setup] before [frame]. *)
Definition run_reaches (frame_set : Z → Blend → Blend) (path_exists : string → bool)
    (dataset_root : string) (b0 : Blend) (setup : string) (frame : Z) (w1 : World) : Prop :=
  ∃ setups_done setups_left frames_done frames_left w0,
    setups = setups_done ++ setup :: setups_left ∧
    seqZ (frame_start b0) (frame_end b0 + 1 - frame_start b0) =
      frames_done ++ frame :: frames_left ∧
    for_stmt setups_done
      (do_setup frame_set path_exists dataset_root (frame_start b0) (frame_end b0))
      (mkWorld b0 (writeheader header [])) = (None, w0) ∧
    for_stmt frames_done
      (do_frame frame_set path_exists dataset_root (frame_start b0) setup)
      (mkWorld (with_setup setup (blend w0)) (csv_rows w0)) = (None, w1).

(** ** Further example scenes *)

(** A host whose frame change leaves the scene as it is. *)
Definition still_host (frame : Z) (b : Blend) : Blend := b.

(** A lamp outside the setups, seen by a camera scaled to nothing. *)
Definition sunlit_singular : Blend :=
  example_blend [lamp_sun] (Some (example_camera zero3)).

(** The studio without a scene camera. *)
Definition studio_no_camera : Blend := example_blend studio_objects None.

(** The studio without its mesh and its hidden lamp. *)
Definition studio_lights_only : Blend :=
  example_blend [lamp_point; lamp_spot; lamp_area; lamp_sun] (Some (example_camera identity3)).

(** A scene whose frame range is empty. *)
Definition empty_range : Blend :=
  mkBlend studio_objects None 10 9 "BLENDER_EEVEE" "Filmic" "None".

(** A host whose camera is scaled to nothing from frame 3 on. *)
Definition collapsing_host (frame : Z) (b : Blend) : Blend :=
  mkBlend (objects b)
    (Some (example_camera (if bool_decide (frame < 3)%Z then identity3 else zero3)))
    (frame_start b) (frame_end b) (render_engine b) (view_transform b) (look b).

(* ================================================================== *)
(** * Proofs *)

(** ** The coercion helpers *)

Lemma safe_float_value {A} `{PyFloat A} (a : A) :
  safe_float a = Ok (match py_float a with Ok r => FFloat r | Raise _ => FStr "" end).
Proof. unfold safe_float, try_except. by destruct (py_float a). Qed.

Lemma safe_str_value {A} `{PyStr A} (a : A) :
  safe_str a = Ok (match py_str a with Ok s => FStr s | Raise _ => FStr "" end).
Proof. unfold safe_str, try_except. by destruct (py_str a). Qed.

(** ** Sorting *)

Section list_sort_facts.
Context {A : Type} (key : A -> R).
Implicit Types l : list A.

Lemma insert_sorted_perm a l : insert_sorted key a l ≡ₚ a :: l.
Proof.
  induction l as [|b l IH]; simpl; [done|].
  case_bool_decide; [|done].
  rewrite IH. apply Permutation_swap.
Qed.

Lemma sort_ascending_perm l : sort_ascending key l ≡ₚ l.
Proof.
  induction l as [|a l IH]; simpl; [done|].
  by rewrite insert_sorted_perm, IH.
Qed.

Lemma list_sort_perm rv l : list_sort key rv l ≡ₚ l.
Proof.
  unfold list_sort. destruct rv; [|apply sort_ascending_perm].
  by rewrite reverse_Permutation, sort_ascending_perm, reverse_Permutation.
Qed.

Lemma insert_sorted_Sorted a l :
  Sorted (ascending key) l → Sorted (ascending key) (insert_sorted key a l).
Proof.
  induction 1 as [|b l Hl IH Hb]; simpl.
  - by repeat constructor.
  - case_bool_decide as Hlt.
    + constructor; [done|].
      destruct Hb as [|c l Hbc]; simpl.
      * constructor. unfold ascending. lra.
      * case_bool_decide; constructor; unfold ascending in *; lra.
    + constructor; [by constructor|]. constructor. unfold ascending. lra.
Qed.

Lemma sort_ascending_Sorted l : Sorted (ascending key) (sort_ascending key l).
Proof.
  induction l; simpl; [constructor|]. by apply insert_sorted_Sorted.
Qed.

(** A list sorted with [reverse=True] is in descending order of the keys. *)
Lemma list_sort_descending l i j a b :
  list_sort key true l !! i = Some a →
  list_sort key true l !! j = Some b →
  i < j → (key b <= key a)%R.
Proof.
  unfold list_sort.
  assert (StronglySorted (flip (ascending key)) (reverse (sort_ascending key (reverse l)))) as Hs.
  { apply Sorted_StronglySorted.
    - intros a1 a2 a3. unfold flip, ascending. lra.
    - apply Sorted_reverse, sort_ascending_Sorted. }
  revert Hs. generalize (reverse (sort_ascending key (reverse l))). clear l.
  intros l Hs. revert i j. induction Hs as [|c l Hs IH Hc]; intros i j Hi Hj Hij.
  - done.
  - destruct j as [|j]; [lia|]. simpl in Hj. destruct i as [|i]; simpl in Hi.
    + injection Hi as ->. rewrite Forall_forall in Hc.
      apply (Hc b). by eapply list_elem_of_lookup_2.
    + apply (IH i j); [done..|lia].
Qed.

(** Sorting keeps the lights of one key value in the order they had. *)
Lemma insert_sorted_stable (e : R) a l :
  filter (fun c => key c = e) (insert_sorted key a l)
  = filter (fun c => key c = e) (a :: l).
Proof.
  induction l as [|b l IH]; simpl; [done|].
  case_bool_decide as Hlt; [|done].
  rewrite filter_cons, IH, !filter_cons.
  repeat case_decide; try done. lra.
Qed.

Lemma sort_ascending_stable (e : R) l :
  filter (fun c => key c = e) (sort_ascending key l) = filter (fun c => key c = e) l.
Proof.
  induction l as [|a l IH]; simpl; [done|].
  by rewrite insert_sorted_stable, !filter_cons, IH.
Qed.

Lemma list_sort_stable (e : R) rv l :
  filter (fun c => key c = e) (list_sort key rv l) = filter (fun c => key c = e) l.
Proof.
  unfold list_sort. destruct rv; [|apply sort_ascending_stable].
  by rewrite filter_reverse, sort_ascending_stable, filter_reverse, reverse_involutive.
Qed.
End list_sort_facts.

(** ** Collecting the active lights *)

Lemma collect_light_filter (objs lights : list Object) :
  foldl collect_light lights objs = lights ++ filter is_active objs.
Proof.
  revert lights. induction objs as [|obj objs IH]; intros lights; simpl.
  - by rewrite app_nil_r.
  - rewrite IH, filter_cons. unfold collect_light.
    destruct (decide (is_active obj)) as [(Ht & Hh & He)|Hn].
    + rewrite Hh. rewrite bool_decide_eq_false_2 by (by intros []).
      rewrite bool_decide_eq_false_2 by lra. by rewrite <-app_assoc.
    + case_bool_decide as Ht; [done|]. destruct (hide_render obj) eqn:Hh; [done|].
      case_bool_decide as He; [done|]. destruct Hn. repeat split; [|done|lra].
      by destruct (decide (obj_type obj = "LIGHT")).
Qed.

Lemma brightest_lights_eq b n :
  brightest_lights b n = take n (list_sort energy_of true (filter is_active (objects b))).
Proof. unfold brightest_lights. by rewrite collect_light_filter. Qed.

(** ** The slots of [get_active_lights] *)

Lemma empty_slot_cells p out : empty_slot p out = fill_slot p (replicate 20 (FStr "")) out.
Proof. reflexivity. Qed.

Lemma light_cells_length dir_cam obj L : length (light_cells dir_cam obj L) = 20.
Proof. reflexivity. Qed.

Lemma light_slot_cells cam_rot p obj out :
  light_slot cam_rot p obj out =
  match data obj with
  | DLight L =>
      dir_cam ← light_dir_cam cam_rot (obj_forward_world obj);
      mret (fill_slot p (light_cells dir_cam obj L) out)
  | _ => Raise AttributeError
  end.
Proof.
  unfold light_slot. destruct (data obj) as [L| | |]; try done.
  destruct (light_dir_cam cam_rot (obj_forward_world obj)) as [dir_cam|]; [|done].
  unfold fill_slot, light_cells. simpl.
  destruct (params L) as [| | |shape size size_y]; try done.
  simpl. unfold field_in. by case_bool_decide.
Qed.

Lemma slot_body_cells cam_rot lights i out out' :
  match lights !! i with
  | None => mret (empty_slot (slot_prefix i) out)
  | Some obj => light_slot cam_rot (slot_prefix i) obj out
  end = Ok out' →
  ∃ vs, slot_cells cam_rot lights i vs ∧ length vs = 20 ∧ out' = fill_slot (slot_prefix i) vs out.
Proof.
  unfold slot_cells. destruct (lights !! i) as [obj|].
  - rewrite light_slot_cells. destruct (data obj) as [L| | |]; try done.
    destruct (light_dir_cam _ _) as [dir_cam|]; [|done].
    intros [= <-]. exists (light_cells dir_cam obj L). eauto 10.
  - intros [= <-]. eauto.
Qed.

(** The output of [get_active_lights] for three slots: the count, then three
    groups of twenty cells. *)
Lemma get_active_lights_cells b out :
  get_active_lights b 3 = Ok out →
  let cam_rot := (fun cam => to_3x3 (matrix_world cam)) <$> camera b in
  let lights := brightest_lights b 3 in
  ∃ vs0 vs1 vs2,
    slot_cells cam_rot lights 0 vs0 ∧ length vs0 = 20 ∧
    slot_cells cam_rot lights 1 vs1 ∧ length vs1 = 20 ∧
    slot_cells cam_rot lights 2 vs2 ∧ length vs2 = 20 ∧
    out = fill_slot (slot_prefix 2) vs2 (fill_slot (slot_prefix 1) vs1
            (fill_slot (slot_prefix 0) vs0
               {["num_active_lights" := FInt (Z.of_nat (length lights))]})).
Proof.
  unfold get_active_lights. cbn [seq for_each]. intros H.
  match type of H with (?m ≫= _) = _ => destruct m as [o0|] eqn:H0; [|done] end.
  cbn [mbind result_bind] in H.
  match type of H with (?m ≫= _) = _ => destruct m as [o1|] eqn:H1; [|done] end.
  cbn [mbind result_bind] in H.
  match type of H with (?m ≫= _) = _ => destruct m as [o2|] eqn:H2; [|done] end.
  cbn [mbind result_bind] in H. injection H as <-.
  apply slot_body_cells in H0 as (vs0 & ? & ? & ->).
  apply slot_body_cells in H1 as (vs1 & ? & ? & ->).
  apply slot_body_cells in H2 as (vs2 & ? & ? & ->).
  exists vs0, vs1, vs2. eauto 10.
Qed.

(** Reading the cells back. *)
Lemma slots_lookup (c : field) (vs0 vs1 vs2 : list field) (i n : nat) (k : string) :
  length vs0 = 20 → length vs1 = 20 → length vs2 = 20 →
  i < 3 → slot_attrs !! n = Some k →
  fill_slot (slot_prefix 2) vs2 (fill_slot (slot_prefix 1) vs1
    (fill_slot (slot_prefix 0) vs0 {["num_active_lights" := c]}))
    !! (slot_prefix i +:+ k)
  = [vs0; vs1; vs2] !! i ≫= fun vs => vs !! n.
Proof.
  intros H0 H1 H2 Hi Hn.
  do 20 (destruct vs0 as [|? vs0]; [discriminate H0|]); destruct vs0; [|discriminate H0].
  do 20 (destruct vs1 as [|? vs1]; [discriminate H1|]); destruct vs1; [|discriminate H1].
  do 20 (destruct vs2 as [|? vs2]; [discriminate H2|]); destruct vs2; [|discriminate H2].
  clear H0 H1 H2.
  do 3 (destruct i as [|i]; [
    do 20 (destruct n as [|n]; [injection Hn as <-; vm_compute; reflexivity|]);
    done|]).
  lia.
Qed.

(** ** The recorded lights *)

Lemma brightest_lights_active b n obj :
  obj ∈ brightest_lights b n → obj ∈ objects b ∧ is_active obj.
Proof.
  rewrite brightest_lights_eq. intros Hin.
  apply elem_of_take in Hin as (i & Hin & _). apply list_elem_of_lookup_2 in Hin.
  rewrite list_sort_perm in Hin.
  by apply list_elem_of_filter in Hin as [??].
Qed.

Lemma is_active_light obj :
  is_active obj → ∃ L, data obj = DLight L ∧ energy_of obj = energy L ∧ (0 < energy L)%R.
Proof.
  unfold is_active, obj_type, energy_of. intros (Ht & _ & He).
  destruct (data obj) as [L| | |]; try done. eauto.
Qed.

Lemma brightest_lights_length b n :
  length (brightest_lights b n) = n `min` length (filter is_active (objects b)).
Proof. by rewrite brightest_lights_eq, length_take, list_sort_perm. Qed.

Lemma slot_cells_light cam_rot lights i vs obj :
  slot_cells cam_rot lights i vs → lights !! i = Some obj →
  ∃ L dir_cam, data obj = DLight L ∧
    light_dir_cam cam_rot (obj_forward_world obj) = Ok dir_cam ∧
    vs = light_cells dir_cam obj L.
Proof. unfold slot_cells. intros H Hl. by rewrite Hl in H. Qed.

Lemma slot_cells_empty cam_rot lights i vs :
  slot_cells cam_rot lights i vs → length lights ≤ i → vs = replicate 20 (FStr "").
Proof. unfold slot_cells. intros H Hi. by rewrite lookup_ge_None_2 in H. Qed.

(** What [get_active_lights] leaves in a slot that holds a light. *)
Lemma get_active_lights_slot b out i obj :
  get_active_lights b 3 = Ok out →
  brightest_lights b 3 !! i = Some obj →
  ∃ L dir_cam, data obj = DLight L ∧
    light_dir_cam ((fun cam => to_3x3 (matrix_world cam)) <$> camera b)
      (obj_forward_world obj) = Ok dir_cam ∧
    ∀ n k, slot_attrs !! n = Some k →
      out !! (slot_prefix i +:+ k) = light_cells dir_cam obj L !! n.
Proof.
  intros Hout Hobj.
  assert (i < 3) as Hi.
  { apply lookup_lt_Some in Hobj. rewrite brightest_lights_length in Hobj. lia. }
  apply get_active_lights_cells in Hout
    as (vs0 & vs1 & vs2 & Hc0 & Hl0 & Hc1 & Hl1 & Hc2 & Hl2 & ->).
  assert (∃ vs, [vs0; vs1; vs2] !! i = Some vs ∧
                slot_cells ((fun cam => to_3x3 (matrix_world cam)) <$> camera b)
                  (brightest_lights b 3) i vs) as (vs & Hvs & Hc).
  { destruct i as [|[|[|i]]]; [eauto..|lia]. }
  destruct (slot_cells_light _ _ _ _ _ Hc Hobj) as (L & dir_cam & HL & Hd & ->).
  exists L, dir_cam. split_and!; [done..|].
  intros n k Hk. rewrite (slots_lookup _ _ _ _ i n k) by done.
  by rewrite Hvs.
Qed.

(** What [get_active_lights] leaves in a slot without a light. *)
Lemma get_active_lights_empty_slot b out i k :
  get_active_lights b 3 = Ok out →
  length (brightest_lights b 3) ≤ i < 3 → k ∈ slot_attrs →
  out !! (slot_prefix i +:+ k) = Some (FStr "").
Proof.
  intros Hout [Hlen Hi] Hk.
  apply get_active_lights_cells in Hout
    as (vs0 & vs1 & vs2 & Hc0 & Hl0 & Hc1 & Hl1 & Hc2 & Hl2 & ->).
  apply list_elem_of_lookup in Hk as [n Hn].
  rewrite (slots_lookup _ _ _ _ i n k) by done.
  assert (∃ vs, [vs0; vs1; vs2] !! i = Some vs ∧
                slot_cells ((fun cam => to_3x3 (matrix_world cam)) <$> camera b)
                  (brightest_lights b 3) i vs) as (vs & -> & Hc).
  { destruct i as [|[|[|i]]]; [eauto..|lia]. }
  rewrite (slot_cells_empty _ _ _ _ Hc Hlen).
  change (replicate 20 (FStr "") !! n = Some (FStr "")).
  apply lookup_replicate_2. apply lookup_lt_Some in Hn. simpl in Hn. lia.
Qed.

Lemma get_active_lights_count b out :
  get_active_lights b 3 = Ok out →
  out !! "num_active_lights" = Some (FInt (Z.of_nat (length (brightest_lights b 3)))).
Proof.
  intros Hout.
  apply get_active_lights_cells in Hout
    as (vs0 & vs1 & vs2 & Hc0 & Hl0 & Hc1 & Hl1 & Hc2 & Hl2 & ->).
  generalize (FInt (Z.of_nat (length (brightest_lights b 3)))). intros c.
  do 20 (destruct vs0 as [|? vs0]; [discriminate Hl0|]); destruct vs0; [|discriminate Hl0].
  do 20 (destruct vs1 as [|? vs1]; [discriminate Hl1|]); destruct vs1; [|discriminate Hl1].
  do 20 (destruct vs2 as [|? vs2]; [discriminate Hl2|]); destruct vs2; [|discriminate Hl2].
  vm_compute. reflexivity.
Qed.

(** [get_active_lights] returns when the camera is absent or invertible. *)
Lemma light_dir_cam_total b dir_world :
  camera_invertible b →
  ∃ dir_cam, light_dir_cam ((fun cam => to_3x3 (matrix_world cam)) <$> camera b) dir_world
             = Ok dir_cam.
Proof.
  unfold camera_invertible, light_dir_cam. destruct (camera b) as [cam|]; simpl; [|eauto].
  intros Hdet. unfold inverted. destruct (Req_dec_T _ _); [done|]. simpl. eauto.
Qed.

Lemma slot_body_total b (lights : list Object) i out :
  camera_invertible b → (∀ obj, obj ∈ lights → is_active obj) →
  ∃ out', match lights !! i with
          | None => mret (empty_slot (slot_prefix i) out)
          | Some obj =>
              light_slot ((fun cam => to_3x3 (matrix_world cam)) <$> camera b)
                (slot_prefix i) obj out
          end = Ok out'.
Proof.
  intros Hcam Hact. destruct (lights !! i) as [obj|] eqn:Hobj; [|by eexists].
  rewrite light_slot_cells.
  destruct (is_active_light obj) as (L & -> & _); [by eapply Hact, list_elem_of_lookup_2|].
  destruct (light_dir_cam_total b (obj_forward_world obj) Hcam) as [d ->]. by eexists.
Qed.

Lemma get_active_lights_total b :
  camera_invertible b → ∃ out, get_active_lights b 3 = Ok out.
Proof.
  intros Hcam. unfold get_active_lights. cbn [seq for_each].
  assert (∀ obj, obj ∈ brightest_lights b 3 → is_active obj) as Hact.
  { intros obj Hobj. by apply brightest_lights_active in Hobj as [_ ?]. }
  destruct (slot_body_total b (brightest_lights b 3) 0
    {["num_active_lights" := FInt (Z.of_nat (length (brightest_lights b 3)))]} Hcam Hact)
    as [o0 ->]. cbn [mbind result_bind].
  destruct (slot_body_total b (brightest_lights b 3) 1 o0 Hcam Hact) as [o1 ->].
  cbn [mbind result_bind].
  destruct (slot_body_total b (brightest_lights b 3) 2 o1 Hcam Hact) as [o2 ->].
  cbn [mbind result_bind]. by eexists.
Qed.

(** C1. With room for three lights, [get_active_lights] reports as
    [num_active_lights] the smaller of 3 and the number of active lights
    (type [LIGHT], visible in renders, intensity above zero); each slot below
    that number holds the name, type, energy and the other cells of an active
    light of the scene, and each slot from that number on holds the empty
    string in all 20 attributes.  The function returns whenever the camera is
    absent or has an invertible orientation. *)
Theorem active_light_slots (b : Blend) :
  (camera_invertible b → ∃ out, get_active_lights b MAX_ACTIVE_LIGHTS = Ok out) ∧
  ∀ out, get_active_lights b MAX_ACTIVE_LIGHTS = Ok out →
    let num := MAX_ACTIVE_LIGHTS `min` length (filter is_active (objects b)) in
    out !! "num_active_lights" = Some (FInt (Z.of_nat num)) ∧
    (∀ i, i < num →
       ∃ obj L dir_cam, obj ∈ objects b ∧ is_active obj ∧ data obj = DLight L ∧
         out !! (slot_prefix i +:+ "name") = Some (FStr (name obj)) ∧
         out !! (slot_prefix i +:+ "type") = Some (FStr (light_type L)) ∧
         out !! (slot_prefix i +:+ "energy") = Some (FFloat (energy L)) ∧
         (0 < energy L)%R ∧
         ∀ n k, slot_attrs !! n = Some k →
           out !! (slot_prefix i +:+ k) = light_cells dir_cam obj L !! n) ∧
    (∀ i k, num ≤ i < MAX_ACTIVE_LIGHTS → k ∈ slot_attrs →
       out !! (slot_prefix i +:+ k) = Some (FStr "")) ∧
    length slot_attrs = 20.
Proof.
  unfold MAX_ACTIVE_LIGHTS. split; [apply get_active_lights_total|].
  intros out Hout. cbv zeta. rewrite <-brightest_lights_length.
  split_and!.
  - by apply get_active_lights_count.
  - intros i Hi.
    destruct (lookup_lt_is_Some_2 (brightest_lights b 3) i Hi) as [obj Hobj].
    destruct (get_active_lights_slot b out i obj Hout Hobj) as (L & dir_cam & HL & _ & Hcells).
    destruct (brightest_lights_active b 3 obj) as [Hin Hact];
      [by eapply list_elem_of_lookup_2|].
    destruct (is_active_light obj Hact) as (L' & HL' & _ & He).
    assert (L' = L) as -> by congruence.
    exists obj, L, dir_cam. split_and!; try done.
    + by rewrite (Hcells 0 "name").
    + by rewrite (Hcells 1 "type").
    + by rewrite (Hcells 2 "energy").
  - intros i k Hi Hk. by apply (get_active_lights_empty_slot b).
  - reflexivity.
Qed.

(** ** Order in a sublist *)

Lemma lookup_two_split {A : Type} (l : list A) (i j : nat) (x y : A) :
  i < j → l !! i = Some x → l !! j = Some y →
  ∃ l1 l2 l3, l = l1 ++ x :: l2 ++ y :: l3.
Proof.
  intros Hij Hx Hy.
  apply list_elem_of_split_length in Hx as (l1 & l2 & -> & ->).
  rewrite lookup_app_r in Hy by lia.
  replace (j - length l1) with (S (j - length l1 - 1)) in Hy by lia.
  cbn [lookup list_lookup] in Hy.
  apply list_elem_of_split_length in Hy as (l3 & l4 & -> & _). eauto.
Qed.

Lemma lookup_two_middle {A : Type} (l1 l2 l3 : list A) (x y : A) :
  ∃ p q, p < q ∧ (l1 ++ x :: l2 ++ y :: l3) !! p = Some x ∧
    (l1 ++ x :: l2 ++ y :: l3) !! q = Some y.
Proof.
  exists (length l1), (length (l1 ++ x :: l2)). split_and!.
  - rewrite length_app. simpl. lia.
  - by apply list_lookup_middle.
  - change (l1 ++ x :: l2 ++ y :: l3) with (l1 ++ (x :: l2) ++ y :: l3).
    rewrite (assoc_L (++)). by apply list_lookup_middle.
Qed.

(** Two elements of a sublist stand in the list in the order they have in the
    sublist. *)
Lemma sublist_lookup_lt {A : Type} (k l : list A) (i j : nat) (x y : A) :
  k `sublist_of` l → i < j → k !! i = Some x → k !! j = Some y →
  ∃ p q, p < q ∧ l !! p = Some x ∧ l !! q = Some y.
Proof.
  intros Hsub Hij Hx Hy.
  destruct (lookup_two_split k i j x y Hij Hx Hy) as (k1 & k2 & k3 & ->).
  apply sublist_app_cons_l in Hsub as (l1 & l2 & -> & _ & Hsub).
  apply sublist_app_cons_l in Hsub as (l3 & l4 & -> & _ & _).
  apply lookup_two_middle.
Qed.

(** Two elements of a list that pass a filter keep their order in the
    filtered list. *)
Lemma filter_lookup_lt {A : Type} (P : A → Prop) `{∀ x, Decision (P x)}
    (l : list A) (i j : nat) (x y : A) :
  i < j → l !! i = Some x → l !! j = Some y → P x → P y →
  ∃ p q, p < q ∧ filter P l !! p = Some x ∧ filter P l !! q = Some y.
Proof.
  intros Hij Hx Hy HPx HPy.
  destruct (lookup_two_split l i j x y Hij Hx Hy) as (l1 & l2 & l3 & ->).
  rewrite filter_app, filter_cons_True, filter_app, filter_cons_True by done.
  apply lookup_two_middle.
Qed.

(** C2. The recorded lights are the first three of a ranking of the active
    lights that is in descending order of intensity and keeps lights of equal
    intensity in the order the scene enumerates them (a stable sort), and
    slot [i] of the result holds the [i]-th light of that ranking: its name
    and its energy.  So the energy cells of the populated slots never
    increase from one slot to the next, and of two recorded lights of equal
    intensity the one in the lower slot comes first in the scene. *)
Theorem lights_ranked_by_intensity (b : Blend) :
  let active := filter is_active (objects b) in
  ∃ ranked,
    ranked ≡ₚ active ∧
    (∀ i j o1 o2, i < j → ranked !! i = Some o1 → ranked !! j = Some o2 →
       (energy_of o2 <= energy_of o1)%R) ∧
    (∀ e : R, filter (fun o => energy_of o = e) ranked
              = filter (fun o => energy_of o = e) active) ∧
    (∀ i j o1 o2, i < j → ranked !! i = Some o1 → ranked !! j = Some o2 →
       energy_of o1 = energy_of o2 →
       ∃ p q, p < q ∧ objects b !! p = Some o1 ∧ objects b !! q = Some o2) ∧
    brightest_lights b MAX_ACTIVE_LIGHTS = take MAX_ACTIVE_LIGHTS ranked ∧
    (camera_invertible b → ∃ out, get_active_lights b MAX_ACTIVE_LIGHTS = Ok out) ∧
    ∀ out, get_active_lights b MAX_ACTIVE_LIGHTS = Ok out →
      out !! "num_active_lights" =
        Some (FInt (Z.of_nat (MAX_ACTIVE_LIGHTS `min` length ranked))) ∧
      (∀ i obj, i < MAX_ACTIVE_LIGHTS → ranked !! i = Some obj →
         out !! (slot_prefix i +:+ "name") = Some (FStr (name obj)) ∧
         out !! (slot_prefix i +:+ "energy") = Some (FFloat (energy_of obj))) ∧
      (∀ i j, i < j < MAX_ACTIVE_LIGHTS `min` length active →
         ∃ ei ej,
           out !! (slot_prefix i +:+ "energy") = Some (FFloat ei) ∧
           out !! (slot_prefix j +:+ "energy") = Some (FFloat ej) ∧
           (ej <= ei)%R).
Proof.
  unfold MAX_ACTIVE_LIGHTS. cbv zeta. set (active := filter is_active (objects b)).
  exists (list_sort energy_of true active).
  assert (∀ out i obj, get_active_lights b 3 = Ok out → i < 3 →
    list_sort energy_of true active !! i = Some obj →
    out !! (slot_prefix i +:+ "name") = Some (FStr (name obj)) ∧
    out !! (slot_prefix i +:+ "energy") = Some (FFloat (energy_of obj))) as Hslot.
  { intros out i obj Hout Hi Hobj.
    assert (brightest_lights b 3 !! i = Some obj) as Hrec.
    { rewrite brightest_lights_eq. by apply lookup_take_Some. }
    destruct (get_active_lights_slot b out i obj Hout Hrec) as (L & d & HL & _ & Hc).
    rewrite (Hc 0 "name"), (Hc 2 "energy") by done.
    unfold energy_of. by rewrite HL. }
  split_and!.
  - apply list_sort_perm.
  - intros i j o1 o2 Hij H1 H2. by eapply list_sort_descending.
  - intros e. apply list_sort_stable.
  - intros i j o1 o2 Hij H1 H2 He.
    destruct (filter_lookup_lt (fun o => energy_of o = energy_of o1)
                (list_sort energy_of true active) i j o1 o2)
      as (p & q & Hpq & Hp & Hq); [done..|].
    rewrite list_sort_stable in Hp. rewrite list_sort_stable in Hq.
    apply (sublist_lookup_lt
             (filter (fun o => energy_of o = energy_of o1) active) (objects b) p q);
      [|done..].
    etrans; [apply sublist_filter|]. apply sublist_filter.
  - apply brightest_lights_eq.
  - apply get_active_lights_total.
  - intros out Hout. split_and!.
    + rewrite (get_active_lights_count _ _ Hout), brightest_lights_length.
      by rewrite list_sort_perm.
    + intros i obj Hi Hobj. by apply Hslot.
    + intros i j [Hij Hj].
      rewrite <-(list_sort_perm energy_of true active) in Hj.
      destruct (lookup_lt_is_Some_2 (list_sort energy_of true active) i) as [o1 H1]; [lia|].
      destruct (lookup_lt_is_Some_2 (list_sort energy_of true active) j) as [o2 H2]; [lia|].
      destruct (Hslot out i o1 Hout) as [_ Hi]; [lia|done|].
      destruct (Hslot out j o2 Hout) as [_ Hj']; [lia|done|].
      exists (energy_of o1), (energy_of o2). split_and!; [done..|].
      by eapply list_sort_descending.
Qed.

(** The whole beam and the half-angle of a cone differ, in degrees too. *)
Lemma degrees_half_angle (spot_size : R) :
  spot_size ≠ 0%R → degrees (cone_half_angle spot_size) ≠ degrees spot_size.
Proof.
  unfold degrees, cone_half_angle. intros Hsize Heq. pose proof PI_RGT_0 as Hpi.
  assert (0 < 180 / PI)%R as Hk by (apply Rdiv_lt_0_compat; lra).
  nra.
Qed.

(** C4 (amended).  In a slot that holds a light: a spot light has its spot
    size - the angle of the whole beam, twice the half-angle of the cone -
    written in degrees, not halved, and its blend factor; an area light its
    shape and size, with [size_y] of its own for a rectangle or an ellipse
    and equal to the size otherwise; spot cells of a light that is not a
    spot, and area cells of a light that is not an area light, are the empty
    string. *)
Theorem type_specific_cells (b : Blend) (out : gmap string field) (i : nat)
    (obj : Object) (L : Light) :
  get_active_lights b MAX_ACTIVE_LIGHTS = Ok out →
  brightest_lights b MAX_ACTIVE_LIGHTS !! i = Some obj →
  data obj = DLight L →
  let cell k := out !! (slot_prefix i +:+ k) in
  match params L with
  | SpotLight spot_size spot_blend =>
      cell "spot_cone_deg" = Some (FFloat (spot_size * (180 / PI))) ∧
      (spot_size * (180 / PI) = 2 * degrees (cone_half_angle spot_size))%R ∧
      (spot_size ≠ 0%R →
       cell "spot_cone_deg" ≠ Some (FFloat (degrees (cone_half_angle spot_size)))) ∧
      cell "spot_blend" = Some (FFloat spot_blend) ∧
      cell "area_shape" = Some (FStr "") ∧
      cell "area_size_x" = Some (FStr "") ∧
      cell "area_size_y" = Some (FStr "")
  | AreaLight shape size size_y =>
      cell "area_shape" = Some (FStr shape) ∧
      cell "area_size_x" = Some (FFloat size) ∧
      cell "area_size_y" =
        Some (FFloat (if bool_decide (shape = "RECTANGLE" ∨ shape = "ELLIPSE")
                      then size_y else size)) ∧
      cell "spot_cone_deg" = Some (FStr "") ∧
      cell "spot_blend" = Some (FStr "")
  | PointLight | SunLight =>
      cell "spot_cone_deg" = Some (FStr "") ∧
      cell "spot_blend" = Some (FStr "") ∧
      cell "area_shape" = Some (FStr "") ∧
      cell "area_size_x" = Some (FStr "") ∧
      cell "area_size_y" = Some (FStr "")
  end.
Proof.
  unfold MAX_ACTIVE_LIGHTS. intros Hout Hobj HL. cbv zeta.
  destruct (get_active_lights_slot b out i obj Hout Hobj) as (L' & dir_cam & HL' & _ & Hc).
  assert (L' = L) as -> by congruence.
  rewrite (Hc 15 "spot_cone_deg"), (Hc 16 "spot_blend"), (Hc 17 "area_shape"),
    (Hc 18 "area_size_x"), (Hc 19 "area_size_y") by done.
  unfold light_cells. cbn [lookup list_lookup].
  destruct (params L) as [| |spot_size spot_blend|shape size size_y]; try done.
  - split_and!; try done.
    + unfold degrees, cone_half_angle. pose proof PI_RGT_0. field. lra.
    + intros Hsize [= Heq]. by apply (degrees_half_angle spot_size).
  - split_and!; try done. f_equal.
    repeat case_bool_decide; try done.
    + exfalso. (rewrite !elem_of_cons, elem_of_nil in *; tauto).
    + exfalso. (rewrite !elem_of_cons, elem_of_nil in *; tauto).
Qed.

(** ** Vectors and matrices *)

Section vectors.
Local Open Scope R_scope.

Lemma dot_zero_inv v : dot v v = 0 → v = mkVector 0 0 0.
Proof.
  destruct v as [a b c]. unfold dot. simpl. intros H.
  assert (a = 0) as -> by nra. assert (b = 0) as -> by nra.
  assert (c = 0) as -> by nra. done.
Qed.

(** A normalized vector has length one, unless it is the zero vector. *)
Lemma normalized_unit v : v ≠ mkVector 0 0 0 → dot (normalized v) (normalized v) = 1.
Proof.
  intros Hv. unfold normalized. destruct (Req_dec_T (dot v v) 0) as [H0|Hn].
  - by apply dot_zero_inv in H0.
  - assert (0 < dot v v) as Hpos.
    { destruct v as [a b c]. unfold dot in *. simpl in *. nra. }
    unfold dot at 1. simpl.
    pose proof (sqrt_lt_R0 _ Hpos) as Hs.
    pose proof (sqrt_sqrt (dot v v) (Rlt_le _ _ Hpos)) as Hsq.
    assert (x v * x v + y v * y v + z v * z v = sqrt (dot v v) * sqrt (dot v v)) as Hd
      by (rewrite Hsq; reflexivity).
    field_simplify_eq; [|lra]. lra.
Qed.

Lemma normalized_zero : normalized (mkVector 0 0 0) = mkVector 0 0 0.
Proof.
  unfold normalized. destruct (Req_dec_T _ _) as [|Hn]; [done|].
  destruct Hn. unfold dot. simpl. lra.
Qed.

(** [inverted] returns the inverse of the matrix. *)
Lemma inverted_Ok m inv :
  inverted m = Ok inv →
  det m ≠ 0 ∧ ∀ v, matvec inv (matvec m v) = v ∧ matvec m (matvec inv v) = v.
Proof.
  unfold inverted. destruct (Req_dec_T (det m) 0) as [|Hdet]; [done|].
  intros [= <-]. split; [done|]. intros [a b c].
  destruct m as [a00 a01 a02 a10 a11 a12 a20 a21 a22].
  unfold matvec, scale_matrix, adjugate, det in *. simpl in *.
  split; f_equal; field; done.
Qed.

Lemma inverted_Raise m e : inverted m = Raise e → det m = 0 ∧ e = ValueError.
Proof.
  unfold inverted. destruct (Req_dec_T (det m) 0); [|done]. by intros [= <-].
Qed.

Lemma inverted_singular m : det m = 0 → inverted m = Raise ValueError.
Proof. intros H. unfold inverted. by destruct (Req_dec_T (det m) 0). Qed.

Lemma matvec_zero m : matvec m (mkVector 0 0 0) = mkVector 0 0 0.
Proof. unfold matvec. simpl. f_equal; lra. Qed.

Lemma inverted_matvec_nonzero m inv v :
  inverted m = Ok inv → v ≠ mkVector 0 0 0 → matvec inv v ≠ mkVector 0 0 0.
Proof.
  intros Hinv Hv H0. apply inverted_Ok in Hinv as [_ Hinv].
  destruct (Hinv v) as [_ Hv']. rewrite H0, matvec_zero in Hv'. by apply Hv.
Qed.
End vectors.

(** ** The camera-relative direction *)

Lemma get_active_lights_singular b cam obj :
  camera b = Some cam → det (to_3x3 (matrix_world cam)) = 0%R →
  brightest_lights b 3 !! 0 = Some obj →
  get_active_lights b 3 = Raise ValueError.
Proof.
  intros Hcam Hdet Hobj. unfold get_active_lights. cbn [seq for_each].
  rewrite Hobj, light_slot_cells.
  destruct (brightest_lights_active b 3 obj) as [_ Hact];
    [by eapply list_elem_of_lookup_2|].
  destruct (is_active_light obj Hact) as (L & -> & _).
  rewrite Hcam. unfold light_dir_cam. simpl.
  by rewrite inverted_singular.
Qed.

Lemma get_active_lights_no_light b :
  brightest_lights b 3 = [] →
  ∃ out, get_active_lights b 3 = Ok out ∧
    ∀ i k, i < 3 → k ∈ slot_attrs → out !! (slot_prefix i +:+ k) = Some (FStr "").
Proof.
  intros Hnil.
  assert (∃ out, get_active_lights b 3 = Ok out) as [out Hout].
  { unfold get_active_lights. rewrite Hnil. cbn [seq for_each]. by eexists. }
  exists out. split; [done|]. intros i k Hi Hk.
  apply (get_active_lights_empty_slot b); [done| |done]. rewrite Hnil. simpl. lia.
Qed.

(** C5 (amended).  Without a camera [get_active_lights] returns and the
    camera-relative direction of every recorded light is exactly (0, 0, 0).
    With a camera, a result exists only if the camera's orientation matrix is
    invertible; the direction is then the inverse of that matrix applied to
    the light's world-space forward direction, normalized, and it has length
    one whenever that forward direction is not the zero vector. *)
Theorem camera_relative_direction (b : Blend) :
  (camera b = None → ∃ out, get_active_lights b MAX_ACTIVE_LIGHTS = Ok out) ∧
  ∀ out i obj,
    get_active_lights b MAX_ACTIVE_LIGHTS = Ok out →
    brightest_lights b MAX_ACTIVE_LIGHTS !! i = Some obj →
    let cell k := out !! (slot_prefix i +:+ k) in
    match camera b with
    | None =>
        cell "dir_cam_x" = Some (FFloat 0) ∧
        cell "dir_cam_y" = Some (FFloat 0) ∧
        cell "dir_cam_z" = Some (FFloat 0)
    | Some cam =>
        ∃ inv,
          inverted (to_3x3 (matrix_world cam)) = Ok inv ∧
          (∀ v, matvec inv (matvec (to_3x3 (matrix_world cam)) v) = v ∧
                matvec (to_3x3 (matrix_world cam)) (matvec inv v) = v) ∧
          let dir_cam := normalized (matvec inv (obj_forward_world obj)) in
          cell "dir_cam_x" = Some (FFloat (x dir_cam)) ∧
          cell "dir_cam_y" = Some (FFloat (y dir_cam)) ∧
          cell "dir_cam_z" = Some (FFloat (z dir_cam)) ∧
          (obj_forward_world obj ≠ mkVector 0 0 0 →
           cells_norm2 (cell "dir_cam_x") (cell "dir_cam_y") (cell "dir_cam_z") = Some 1%R)
    end.
Proof.
  unfold MAX_ACTIVE_LIGHTS. split.
  { intros Hcam. apply get_active_lights_total. unfold camera_invertible. by rewrite Hcam. }
  intros out i obj Hout Hobj. cbv zeta.
  destruct (get_active_lights_slot b out i obj Hout Hobj) as (L & dir_cam & HL & Hd & Hc).
  rewrite (Hc 12 "dir_cam_x"), (Hc 13 "dir_cam_y"), (Hc 14 "dir_cam_z") by done.
  unfold light_cells. cbn [lookup list_lookup].
  destruct (camera b) as [cam|]; simpl in Hd.
  - destruct (inverted (to_3x3 (matrix_world cam))) as [inv|] eqn:Hinv; [|done].
    simpl in Hd. injection Hd as <-. exists inv. split_and!; try done.
    + by apply inverted_Ok in Hinv as [_ ?].
    + intros Hnz. unfold cells_norm2. f_equal.
      apply (normalized_unit (matvec inv (obj_forward_world obj))).
      by eapply inverted_matvec_nonzero.
  - by injection Hd as <-.
Qed.

(** ** Switching the lighting setup *)

Lemma set_hide_render_names v objs m :
  name <$> set_hide_render v objs m = name <$> objs.
Proof.
  unfold set_hide_render, objects_get.
  destruct (list_find _ objs) as [[i obj]|] eqn:Hfind; [|done].
  apply list_find_Some in Hfind as (Hi & _ & _).
  rewrite list_fmap_insert. simpl. apply list_insert_id.
  by rewrite list_lookup_fmap, Hi.
Qed.

Lemma set_hide_render_length v objs m :
  length (set_hide_render v objs m) = length objs.
Proof. by rewrite <-(length_fmap name), set_hide_render_names, length_fmap. Qed.

(** Looking a name up after [set_hide_render]. *)
Lemma objects_get_set_hide_render v objs m n :
  objects_get n (set_hide_render v objs m) =
  (fun io => (io.1, if bool_decide (n = m) then with_hide_render v io.2 else io.2))
    <$> objects_get n objs.
Proof.
  unfold set_hide_render.
  destruct (objects_get m objs) as [[i obj]|] eqn:Hm.
  - unfold objects_get in *.
    apply list_find_Some in Hm as (Hi & Hname & Hfirst).
    destruct (list_find (fun o => name o = n) objs) as [[j obj']|] eqn:Hn.
    + apply list_find_Some in Hn as (Hj & Hname' & Hfirst'). simpl.
      apply list_find_Some. case_bool_decide as Hnm.
      * subst n. assert (j = i) as ->.
        { destruct (Nat.lt_total j i) as [?|[?|?]]; [|done|].
          - exfalso. eapply (Hfirst j obj'); eauto.
          - exfalso. eapply (Hfirst' i obj); eauto. congruence. }
        assert (obj' = obj) as -> by congruence.
        split_and!.
        -- apply list_lookup_insert_eq. by eapply lookup_lt_Some.
        -- done.
        -- intros k y Hk Hlt. rewrite list_lookup_insert_ne in Hk by lia. eauto.
      * assert (i ≠ j) as Hij by (intros ->; congruence).
        split_and!.
        -- by rewrite list_lookup_insert_ne.
        -- done.
        -- intros k y Hk Hlt. destruct (decide (k = i)) as [->|Hki].
           ++ rewrite list_lookup_insert_eq in Hk by (by eapply lookup_lt_Some).
              injection Hk as <-. simpl. congruence.
           ++ rewrite list_lookup_insert_ne in Hk by done. eauto.
    + simpl. apply list_find_None. apply list_find_None in Hn.
      rewrite Forall_forall in Hn |- *. intros y Hy.
      apply list_elem_of_lookup in Hy as [k Hk].
      destruct (decide (k = i)) as [->|Hki].
      * rewrite list_lookup_insert_eq in Hk by (by eapply lookup_lt_Some).
        injection Hk as <-. simpl. apply (Hn obj). by eapply list_elem_of_lookup_2.
      * rewrite list_lookup_insert_ne in Hk by done.
        apply (Hn y). by eapply list_elem_of_lookup_2.
  - destruct (objects_get n objs) as [[j obj']|] eqn:Hn; simpl; [|done].
    case_bool_decide as Hnm; [|done]. congruence.
Qed.

Lemma objects_get_hide_all v names objs n :
  objects_get n (foldl (set_hide_render v) objs names) =
  (fun io => (io.1, if bool_decide (n ∈ names) then with_hide_render v io.2 else io.2))
    <$> objects_get n objs.
Proof.
  revert objs. induction names as [|m names IH]; intros objs; simpl.
  - by destruct (objects_get n objs) as [[??]|].
  - rewrite IH, objects_get_set_hide_render.
    destruct (objects_get n objs) as [[i obj]|]; simpl; [|done].
    do 2 f_equal. repeat case_bool_decide; try done; set_solver.
Qed.

Lemma foldl_set_hide_render_names v names objs :
  name <$> foldl (set_hide_render v) objs names = name <$> objs.
Proof.
  revert objs. induction names as [|m names IH]; intros objs; simpl; [done|].
  by rewrite IH, set_hide_render_names.
Qed.

Lemma set_light_setup_names setup_name objs :
  name <$> set_light_setup setup_name objs = name <$> objs.
Proof.
  unfold set_light_setup. destruct (dict_item _ _).
  - by rewrite set_hide_render_names, foldl_set_hide_render_names.
  - repeat case_match; by rewrite ?foldl_set_hide_render_names.
Qed.

Lemma setup_lamps_known setup_name nm :
  nm ∈ setup_lamps setup_name → nm ∈ ALL_LIGHT_NAMES.
Proof.
  unfold setup_lamps, LIGHTS_SINGLE. simpl.
  repeat case_bool_decide; simpl; unfold ALL_LIGHT_NAMES, LIGHTS_TRI; simpl;
    set_solver.
Qed.

Lemma setup_lamps_environment setup_name :
  startswith "HDRI" setup_name = true → setup_lamps setup_name = [].
Proof.
  unfold startswith. intros H.
  apply String.prefix_correct in H.
  destruct setup_name as [|c setup_name]; [discriminate H|].
  simpl in H. injection H as -> _.
  reflexivity.
Qed.

Lemma set_light_setup_get setup_name objs nm :
  objects_get nm (set_light_setup setup_name objs) =
  (fun io => (io.1,
      if bool_decide (nm ∈ ALL_LIGHT_NAMES)
      then with_hide_render (negb (bool_decide (nm ∈ setup_lamps setup_name))) io.2
      else io.2)) <$> objects_get nm objs.
Proof.
  pose proof (setup_lamps_known setup_name nm) as Hknown.
  unfold set_light_setup, setup_lamps in *.
  destruct (dict_item setup_name LIGHTS_SINGLE) as [m|].
  - rewrite objects_get_set_hide_render, objects_get_hide_all.
    destruct (objects_get nm objs) as [[i obj]|]; simpl; [|done].
    do 2 f_equal. repeat case_bool_decide; try done; set_solver.
  - case_bool_decide.
    + rewrite !objects_get_hide_all.
      destruct (objects_get nm objs) as [[i obj]|]; simpl; [|done].
      do 2 f_equal. repeat case_bool_decide; try done; set_solver.
    + assert (objects_get nm (foldl (set_hide_render true) objs ALL_LIGHT_NAMES) =
        (fun io => (io.1,
          if bool_decide (nm ∈ ALL_LIGHT_NAMES)
          then with_hide_render (negb (bool_decide (nm ∈ @nil string))) io.2
          else io.2)) <$> objects_get nm objs) as Hgoal.
      { rewrite objects_get_hide_all.
        by destruct (objects_get nm objs) as [[i obj]|]. }
      by destruct (startswith "HDRI" setup_name).
Qed.

(** With unique names, the object found under a name is the only one. *)
Lemma objects_get_unique objs obj :
  NoDup (name <$> objs) → obj ∈ objs →
  ∃ i, objects_get (name obj) objs = Some (i, obj).
Proof.
  intros Hnd Hin. apply list_elem_of_lookup in Hin as [j Hj].
  unfold objects_get.
  destruct (list_find (fun o => name o = name obj) objs) as [[i obj']|] eqn:Hfind.
  - apply list_find_Some in Hfind as (Hi & Hname & _).
    assert (i = j) as ->.
    { eapply NoDup_lookup; [done| |]; rewrite list_lookup_fmap.
      - by rewrite Hi.
      - rewrite Hj. simpl. by rewrite Hname. }
    exists j. congruence.
  - apply list_find_None in Hfind. rewrite Forall_forall in Hfind.
    destruct (Hfind obj); [by eapply list_elem_of_lookup_2|done].
Qed.

(** C6. [set_light_setup] leaves every object in place and changes only the
    render visibility of the known lamps: after the switch a known lamp of
    the scene is visible in renders ([hide_render] is false) if it belongs to
    the new setup - the single named lamp, or the three lamps of the tri
    rig - and hidden ([hide_render] is true) otherwise, whatever it was
    before; an object under any other name is as it was.  After a switch to
    an environment-only setup (a name that starts with [HDRI]) every known
    lamp is hidden, so no known lamp is among the recorded lights. *)
Theorem light_setup_switch (setup_name : string) (objs : list Object) :
  name <$> set_light_setup setup_name objs = name <$> objs ∧
  (∀ nm, objects_get nm (set_light_setup setup_name objs) =
     (fun io => (io.1,
        if bool_decide (nm ∈ ALL_LIGHT_NAMES)
        then with_hide_render (negb (bool_decide (nm ∈ setup_lamps setup_name))) io.2
        else io.2)) <$> objects_get nm objs) ∧
  (setup_lamps "Area Light" = ["Area"] ∧ setup_lamps "Point Light" = ["Point"] ∧
   setup_lamps "Spot Light" = ["Spot"] ∧
   setup_lamps "Tri Light" = ["TriLamp-Key"; "TriLamp-Fill"; "TriLamp-Back"]) ∧
  (∀ nm i obj0, nm ∈ ALL_LIGHT_NAMES → objects_get nm objs = Some (i, obj0) →
     ∃ obj, objects_get nm (set_light_setup setup_name objs) = Some (i, obj) ∧
       name obj = name obj0 ∧ matrix_world obj = matrix_world obj0 ∧
       data obj = data obj0 ∧
       (nm ∈ setup_lamps setup_name → hide_render obj = false) ∧
       (nm ∉ setup_lamps setup_name → hide_render obj = true)) ∧
  (∀ nm, nm ∉ ALL_LIGHT_NAMES →
     objects_get nm (set_light_setup setup_name objs) = objects_get nm objs) ∧
  (NoDup (name <$> objs) →
     ∀ obj, obj ∈ set_light_setup setup_name objs → name obj ∈ ALL_LIGHT_NAMES →
       (name obj ∈ setup_lamps setup_name → hide_render obj = false) ∧
       (name obj ∉ setup_lamps setup_name → hide_render obj = true ∧ ¬ is_active obj)) ∧
  (startswith "HDRI" setup_name = true →
     setup_lamps setup_name = [] ∧
     (∀ nm i obj, nm ∈ ALL_LIGHT_NAMES →
        objects_get nm (set_light_setup setup_name objs) = Some (i, obj) →
        hide_render obj = true) ∧
     (NoDup (name <$> objs) →
        ∀ obj, obj ∈ set_light_setup setup_name objs →
          name obj ∈ ALL_LIGHT_NAMES → hide_render obj = true ∧ ¬ is_active obj)).
Proof.
  assert (∀ nm i obj, nm ∈ ALL_LIGHT_NAMES →
    objects_get nm (set_light_setup setup_name objs) = Some (i, obj) →
    hide_render obj = negb (bool_decide (nm ∈ setup_lamps setup_name))) as Hvis.
  { intros nm i obj Hnm. rewrite set_light_setup_get.
    rewrite bool_decide_eq_true_2 by done.
    destruct (objects_get nm objs) as [[j obj']|]; simpl; [|done].
    by intros [= _ <-]. }
  split_and!; [apply set_light_setup_names|apply set_light_setup_get|done..| | | | ].
  - intros nm i obj0 Hnm Hget.
    assert (objects_get nm (set_light_setup setup_name objs) =
            Some (i, with_hide_render (negb (bool_decide (nm ∈ setup_lamps setup_name))) obj0))
      as Hget'.
    { rewrite set_light_setup_get, Hget. simpl. by rewrite bool_decide_eq_true_2. }
    eexists. split; [exact Hget'|]. split_and!; try done.
    + intros Hin. rewrite (Hvis nm i _ Hnm Hget'). by rewrite bool_decide_eq_true_2.
    + intros Hout. rewrite (Hvis nm i _ Hnm Hget'). by rewrite bool_decide_eq_false_2.
  - intros nm Hnm. rewrite set_light_setup_get. rewrite bool_decide_eq_false_2 by done.
    by destruct (objects_get nm objs) as [[j obj']|].
  - intros Hnd obj Hin Hnm.
    destruct (objects_get_unique (set_light_setup setup_name objs) obj) as [i Hi];
      [by rewrite set_light_setup_names|done|].
    pose proof (Hvis _ _ _ Hnm Hi) as Hh. split.
    + intros Hlamp. by rewrite Hh, bool_decide_eq_true_2.
    + intros Hlamp. rewrite bool_decide_eq_false_2 in Hh by done.
      split; [done|]. unfold is_active. rewrite Hh. naive_solver.
  - intros Henv. pose proof (setup_lamps_environment _ Henv) as Hnone.
    assert (∀ nm i obj, nm ∈ ALL_LIGHT_NAMES →
      objects_get nm (set_light_setup setup_name objs) = Some (i, obj) →
      hide_render obj = true) as Hhidden.
    { intros nm i obj Hnm Hget. rewrite (Hvis nm i obj Hnm Hget), Hnone.
      by rewrite bool_decide_eq_false_2 by apply not_elem_of_nil. }
    split_and!; [done..|].
    intros Hnd obj Hin Hnm.
    destruct (objects_get_unique (set_light_setup setup_name objs) obj) as [i Hi];
      [by rewrite set_light_setup_names|done|].
    assert (hide_render obj = true) as Hh by eauto.
    split; [done|]. unfold is_active. rewrite Hh. naive_solver.
Qed.

(** ** The keys of the dictionaries *)

Lemma fill_slot_dom p vs (out : gmap string field) :
  dom (fill_slot p vs out) ⊆ dom out ∪ list_to_set ((fun k => p +:+ k) <$> slot_attrs).
Proof.
  unfold fill_slot. generalize slot_attrs. intros ks.
  revert vs out. induction ks as [|k ks IH]; intros vs out; simpl; [set_solver|].
  destruct vs as [|v vs]; simpl; [set_solver|].
  etrans; [apply IH|]. rewrite dom_insert_L. set_solver.
Qed.

Lemma get_active_lights_dom b out :
  get_active_lights b 3 = Ok out → dom out ⊆ list_to_set light_keys.
Proof.
  intros Hout.
  apply get_active_lights_cells in Hout as (vs0 & vs1 & vs2 & _ & _ & _ & _ & _ & _ & ->).
  intros k Hk. rewrite elem_of_list_to_set. unfold light_keys.
  rewrite elem_of_cons, !elem_of_app.
  apply fill_slot_dom, elem_of_union in Hk as [Hk|Hk];
    [|rewrite elem_of_list_to_set in Hk; tauto].
  apply fill_slot_dom, elem_of_union in Hk as [Hk|Hk];
    [|rewrite elem_of_list_to_set in Hk; tauto].
  apply fill_slot_dom, elem_of_union in Hk as [Hk|Hk];
    [|rewrite elem_of_list_to_set in Hk; tauto].
  rewrite dom_singleton_L, elem_of_singleton in Hk. tauto.
Qed.

Lemma get_camera_dom b d :
  get_camera b = Ok d → dom d ⊆ list_to_set camera_keys.
Proof.
  unfold get_camera. destruct (camera b) as [cam|].
  - rewrite !safe_float_value, safe_str_value. cbn [mbind result_bind].
    assert (∀ focal : field,
      dom (<["focal_length_mm" := focal]>
           (<["cam_right_z" := FFloat (z (normalized (matvec (to_3x3 (matrix_world cam)) (mkVector 1 0 0))))]>
           (<["cam_right_y" := FFloat (y (normalized (matvec (to_3x3 (matrix_world cam)) (mkVector 1 0 0))))]>
           (<["cam_right_x" := FFloat (x (normalized (matvec (to_3x3 (matrix_world cam)) (mkVector 1 0 0))))]>
           (<["cam_up_z" := FFloat (z (normalized (matvec (to_3x3 (matrix_world cam)) (mkVector 0 1 0))))]>
           (<["cam_up_y" := FFloat (y (normalized (matvec (to_3x3 (matrix_world cam)) (mkVector 0 1 0))))]>
           (<["cam_up_x" := FFloat (x (normalized (matvec (to_3x3 (matrix_world cam)) (mkVector 0 1 0))))]>
           (<["cam_forward_z" := FFloat (z (normalized (matvec (to_3x3 (matrix_world cam)) (mkVector 0 0 (-1)))))]>
           (<["cam_forward_y" := FFloat (y (normalized (matvec (to_3x3 (matrix_world cam)) (mkVector 0 0 (-1)))))]>
           (<["cam_forward_x" := FFloat (x (normalized (matvec (to_3x3 (matrix_world cam)) (mkVector 0 0 (-1)))))]>
           (<["cam_pos_z" := FFloat (z (translation (matrix_world cam)))]>
           (<["cam_pos_y" := FFloat (y (translation (matrix_world cam)))]>
           (<["cam_pos_x" := FFloat (x (translation (matrix_world cam)))]>
           (<["camera_name" := FStr (name cam)]> (∅ : gmap string field)))))))))))))))
      = list_to_set camera_keys) as Hdom.
    { intros focal. rewrite !dom_insert_L, dom_empty_L. unfold camera_keys.
      rewrite !list_to_set_cons, list_to_set_nil. reflexivity. }
    destruct (data cam) as [L|lens| |]; try done.
    + rewrite safe_float_value. cbn [mbind result_bind mret result_ret].
      intros [= <-]. by rewrite Hdom.
    + cbn [mbind result_bind mret result_ret].
      intros [= <-]. by rewrite Hdom.
  - intros [= <-]. rewrite dom_empty_L. apply empty_subseteq.
Qed.

Lemma get_camera_total b : camera_readable b → ∃ d, get_camera b = Ok d.
Proof.
  unfold camera_readable, get_camera. destruct (camera b) as [cam|]; [|by eexists].
  rewrite !safe_float_value, safe_str_value. cbn [mbind result_bind].
  intros [->|[lens ->]]; [|rewrite safe_float_value]; by eexists.
Qed.

Lemma get_engine_and_batch_value b :
  ∃ batch, get_engine_and_batch b =
    Ok (<["batch_folder" := FStr batch]>
        (<["look" := FStr (look b)]>
        (<["view_transform" := FStr (view_transform b)]>
        (<["render_engine" := FStr (render_engine b)]> ∅)))).
Proof. by eexists. Qed.

(** ** The rows of a frame *)

Lemma all_keys_in_header :
  Forall (fun k => k ∈ header)
    (row_keys ++ light_keys ++ camera_keys ++ engine_keys ++ base_keys).
Proof. apply (bool_decide_unpack _). by vm_compute. Qed.

Lemma lookup_update_outside (d m : gmap string field) (ks : list string) (k : string) :
  dom d ⊆ list_to_set ks → k ∉ ks → dict_update m d !! k = m !! k.
Proof.
  intros Hdom Hk. unfold dict_update. apply lookup_union_r, not_elem_of_dom.
  intros Hin. apply Hdom in Hin. by rewrite elem_of_list_to_set in Hin.
Qed.

Lemma frame_base_good b fs setup frame base :
  frame_base b fs setup frame = Ok base → good_base fs setup frame base.
Proof.
  unfold frame_base. destruct (get_engine_and_batch_value b) as [batch ->].
  cbn [mbind result_bind].
  destruct (get_camera b) as [dc|] eqn:Hc; [|done]. cbn [mbind result_bind].
  destruct (get_active_lights b MAX_ACTIVE_LIGHTS) as [dl|] eqn:Hl; [|done].
  cbn [mbind result_bind mret result_ret]. intros [= <-].
  apply get_camera_dom in Hc. apply get_active_lights_dom in Hl.
  assert (∀ k m, k ∉ light_keys → k ∉ camera_keys →
    dict_update (dict_update m dc) dl !! k = m !! k) as Hlook.
  { intros k m ??. by rewrite (lookup_update_outside dl _ light_keys),
      (lookup_update_outside dc _ camera_keys). }
  split.
  - unfold dict_update. rewrite !dom_union_L, !dom_insert_L, dom_empty_L.
    pose proof all_keys_in_header as Hall. rewrite Forall_forall in Hall.
    intros k Hk. rewrite elem_of_list_to_set. apply Hall.
    rewrite !elem_of_app.
    rewrite !elem_of_union in Hk. destruct Hk as [Hk|[Hk|[Hk|Hk]]].
    + apply Hl in Hk. rewrite elem_of_list_to_set in Hk. tauto.
    + apply Hc in Hk. rewrite elem_of_list_to_set in Hk. tauto.
    + do 3 right. left. unfold engine_keys. set_solver.
    + do 4 right. unfold base_keys. set_solver.
  - exists batch. rewrite Hlook; [|apply (bool_decide_unpack _); by vm_compute..].
    unfold dict_update. by simplify_map_eq.
  - rewrite Hlook; [|apply (bool_decide_unpack _); by vm_compute..].
    unfold dict_update. by simplify_map_eq.
  - rewrite Hlook; [|apply (bool_decide_unpack _); by vm_compute..].
    unfold dict_update. by simplify_map_eq.
  - rewrite Hlook; [|apply (bool_decide_unpack _); by vm_compute..].
    unfold dict_update. by simplify_map_eq.
  - rewrite Hlook; [|apply (bool_decide_unpack _); by vm_compute..].
    unfold dict_update. by simplify_map_eq.
Qed.

Lemma frame_base_total b fs setup frame :
  camera_readable b → camera_invertible b → ∃ base, frame_base b fs setup frame = Ok base.
Proof.
  intros Hr Hi. unfold frame_base. destruct (get_engine_and_batch_value b) as [batch ->].
  destruct (get_camera_total b Hr) as [dc ->].
  destruct (get_active_lights_total b Hi) as [dl Hdl].
  unfold MAX_ACTIVE_LIGHTS. rewrite Hdl. by eexists.
Qed.

(** ** Written rows *)

Lemma csv_col_written (row : gmap string field) (k : string) :
  k ∈ header →
  csv_col k (written_cells header row) = Some (default (FStr "") (row !! k)).
Proof.
  intros Hk. unfold csv_col, written_cells.
  destruct (list_find (fun k' => k' = k) header) as [[i k']|] eqn:Hfind.
  - apply list_find_Some in Hfind as (Hi & -> & _).
    by rewrite list_lookup_fmap, Hi.
  - apply list_find_None in Hfind. rewrite Forall_forall in Hfind.
    by destruct (Hfind k).
Qed.

Lemma strip_blank s : strip s = "" ↔ blank s = true.
Proof.
  unfold strip.
  assert (∀ t, rstrip t = "" ↔ blank t = true) as Hr.
  { induction t as [|c t IH]; simpl; [done|].
    destruct (rstrip t) eqn:Ht, (is_space c), (blank t); simpl; try done;
      naive_solver. }
  assert (blank (lstrip s) = blank s) as Hl.
  { induction s as [|c s IH]; simpl; [done|].
    destruct (is_space c) eqn:Hc; simpl; [done|]. by rewrite Hc. }
  by rewrite Hr, Hl.
Qed.

Lemma shape_row_value path_exists dataset_root setup frame_png base shape batch :
  base !! "batch_folder" = Some (FStr batch) →
  shape_row path_exists dataset_root setup frame_png base shape =
  Ok (<["image_exists" := image_exists path_exists dataset_root (image_relpath setup frame_png batch shape)]>
      (<["image_relpath" := FStr (image_relpath setup frame_png batch shape)]>
      (<["shape_name" := FStr shape]> base))).
Proof.
  intros Hb. unfold shape_row. rewrite Hb. cbn [field_text mbind result_bind mret result_ret].
  unfold image_exists, image_relpath. do 2 f_equal.
  pose proof (strip_blank dataset_root) as Hs.
  case_bool_decide; destruct (blank dataset_root); naive_solver.
Qed.

Lemma emit_shape_good path_exists dataset_root fs setup frame base shape w :
  good_base fs setup frame base →
  emit_shape path_exists dataset_root setup (camera_png fs frame) base shape w =
  (None, mkWorld (blend w)
           (csv_rows w ++ [shape_cells path_exists dataset_root setup (camera_png fs frame) base shape])).
Proof.
  intros [Hdom [batch Hbatch] _ _ _ _]. unfold emit_shape, shape_cells.
  rewrite (shape_row_value _ _ _ _ _ _ batch) by done.
  cbn [mbind result_bind]. unfold writerow.
  rewrite bool_decide_eq_true_2; [done|].
  rewrite !dom_insert_L.
  intros k Hk. rewrite !elem_of_union, !elem_of_singleton in Hk.
  destruct Hk as [->|[->|[->|Hk]]]; [| | |by apply Hdom];
    rewrite elem_of_list_to_set; apply (bool_decide_unpack _); by vm_compute.
Qed.

Lemma shape_cells_cols path_exists dataset_root fs setup frame base shape :
  good_base fs setup frame base →
  let r := shape_cells path_exists dataset_root setup (camera_png fs frame) base shape in
  csv_col "light_folder" r = Some (FStr setup) ∧
  csv_col "frame" r = Some (FInt frame) ∧
  csv_col "shape_name" r = Some (FStr shape) ∧
  csv_col "camera_png" r = Some (FInt (camera_png fs frame)) ∧
  csv_col "config_id" r = Some (FInt (config_id fs frame)) ∧
  ∃ batch, base !! "batch_folder" = Some (FStr batch) ∧
    let rel := image_relpath setup (camera_png fs frame) batch shape in
    csv_col "image_relpath" r = Some (FStr rel) ∧
    csv_col "image_exists" r = Some (image_exists path_exists dataset_root rel).
Proof.
  intros [Hdom [batch Hbatch] Hs Hf Hp Hc]. cbv zeta. unfold shape_cells.
  rewrite (shape_row_value _ _ _ _ _ _ batch) by done.
  rewrite !csv_col_written by (apply (bool_decide_unpack _); by vm_compute).
  split_and!; [by simplify_map_eq..|].
  exists batch. split_and!; by simplify_map_eq.
Qed.

Lemma for_shapes_good path_exists dataset_root fs setup frame base shapes w :
  good_base fs setup frame base →
  for_stmt shapes (emit_shape path_exists dataset_root setup (camera_png fs frame) base) w =
  (None, mkWorld (blend w)
           (csv_rows w ++ (shape_cells path_exists dataset_root setup (camera_png fs frame) base <$> shapes))).
Proof.
  intros Hgood. revert w. induction shapes as [|shape shapes IH]; intros w; simpl.
  - rewrite app_nil_r. by destruct w.
  - unfold seq_stmt. rewrite (emit_shape_good _ _ fs setup frame) by done.
    rewrite IH. simpl. by rewrite <-app_assoc.
Qed.

(** A frame either stops with an exception before it writes a row or
    writes one row for each shape. *)
Lemma do_frame_value frame_set path_exists dataset_root fs setup frame w :
  let b := frame_set frame (blend w) in
  do_frame frame_set path_exists dataset_root fs setup frame w =
  match frame_base b fs setup frame with
  | Ok base =>
      (None, mkWorld b (csv_rows w ++
               (shape_cells path_exists dataset_root setup (camera_png fs frame) base <$> SHAPES)))
  | Raise e => (Some e, mkWorld b (csv_rows w))
  end.
Proof.
  cbv zeta. unfold do_frame. cbn [blend csv_rows].
  destruct (frame_base _ _ _ _) as [base|] eqn:Hbase; [|done].
  apply frame_base_good in Hbase. by rewrite (for_shapes_good _ _ fs setup frame).
Qed.

(** ** The loops *)

(** A loop whose body always returns and appends rows appends the rows of
    all its iterations, in order. *)
Lemma for_stmt_appends {A X : Type} (proj : list field → X) (xs : list A)
    (body : A → stmt) (keys : A → list X) :
  (∀ a w, ∃ w' new,
     body a w = (None, w') ∧ csv_rows w' = csv_rows w ++ new ∧ proj <$> new = keys a) →
  ∀ w, ∃ w' new,
    for_stmt xs body w = (None, w') ∧ csv_rows w' = csv_rows w ++ new ∧
    proj <$> new = xs ≫= keys.
Proof.
  intros Hbody. induction xs as [|a xs IH]; intros w.
  - exists w, []. by rewrite app_nil_r.
  - cbn [for_stmt]. unfold seq_stmt. destruct (Hbody a w) as (w1 & new1 & -> & Hrows1 & Hkeys1).
    destruct (IH w1) as (w2 & new2 & -> & Hrows2 & Hkeys2).
    exists w2, (new1 ++ new2). split_and!; [done| |].
    + by rewrite Hrows2, Hrows1, <-app_assoc.
    + by rewrite bind_cons, fmap_app, Hkeys1, Hkeys2.
Qed.

(** A loop stops at the first iteration that raises. *)
Lemma for_stmt_raise {A : Type} (a : A) (xs : list A) (body : A → stmt) w e w' :
  body a w = (Some e, w') → for_stmt (a :: xs) body w = (Some e, w').
Proof. intros H. simpl. unfold seq_stmt. by rewrite H. Qed.

(** A loop that completes has appended the rows of all its iterations, in
    order. *)
Lemma for_stmt_completed {A X : Type} (proj : list field → X) (xs : list A)
    (body : A → stmt) (keys : A → list X) :
  (∀ a w w', body a w = (None, w') →
     ∃ new, csv_rows w' = csv_rows w ++ new ∧ proj <$> new = keys a) →
  ∀ w w', for_stmt xs body w = (None, w') →
    ∃ new, csv_rows w' = csv_rows w ++ new ∧ proj <$> new = xs ≫= keys.
Proof.
  intros Hbody. induction xs as [|a xs IH]; intros w w'.
  - intros [= <-]. exists []. by rewrite app_nil_r.
  - cbn [for_stmt]. unfold seq_stmt.
    destruct (body a w) as [[e|] w1] eqn:Ha; [done|]. intros Hrest.
    destruct (Hbody a w w1 Ha) as (new1 & Hrows1 & Hkeys1).
    destruct (IH w1 w' Hrest) as (new2 & Hrows2 & Hkeys2).
    exists (new1 ++ new2). split.
    + by rewrite Hrows2, Hrows1, <-app_assoc.
    + by rewrite bind_cons, fmap_app, Hkeys1, Hkeys2.
Qed.

Lemma do_frame_completed frame_set path_exists dataset_root fs setup frame w w' :
  do_frame frame_set path_exists dataset_root fs setup frame w = (None, w') →
  ∃ new, csv_rows w' = csv_rows w ++ new ∧
    row_key <$> new =
      (fun shape => (Some (FStr setup), Some (FInt frame), Some (FStr shape))) <$> SHAPES.
Proof.
  rewrite do_frame_value. cbv zeta.
  destruct (frame_base _ _ _ _) as [base|] eqn:Hbase; [|done].
  intros [= <-]. apply frame_base_good in Hbase.
  exists (shape_cells path_exists dataset_root setup (camera_png fs frame) base <$> SHAPES).
  split; [done|].
  rewrite <-list_fmap_compose. apply list_fmap_ext. intros _ shape _. simpl.
  unfold row_key.
  destruct (shape_cells_cols path_exists dataset_root fs setup frame base shape Hbase)
    as (-> & -> & -> & _).
  done.
Qed.

Lemma main_completed frame_set path_exists dataset_root b w :
  main frame_set path_exists dataset_root b = (None, w) →
  ∃ rows,
    csv_rows w = (FStr <$> header) :: rows ∧
    row_key <$> rows =
      setup ← setups;
      frame ← seqZ (frame_start b) (frame_end b + 1 - frame_start b);
      (fun shape => (Some (FStr setup), Some (FInt frame), Some (FStr shape))) <$> SHAPES.
Proof.
  unfold main. intros Hmain.
  apply (for_stmt_completed row_key setups _
    (fun setup =>
       frame ← seqZ (frame_start b) (frame_end b + 1 - frame_start b);
       (fun shape => (Some (FStr setup), Some (FInt frame), Some (FStr shape))) <$> SHAPES))
    in Hmain as (rows & Hrows & Hkeys).
  - exists rows. by rewrite Hrows.
  - intros setup w1 w2. unfold do_setup. intros Hsetup.
    apply (for_stmt_completed row_key _ _
      (fun frame =>
         (fun shape => (Some (FStr setup), Some (FInt frame), Some (FStr shape))) <$> SHAPES))
      in Hsetup as (new & Hnew & Hkeys); [by exists new|].
    intros frame w3 w4. apply do_frame_completed.
Qed.

Section run.
Variable frame_set : Z -> Blend -> Blend.
Variable path_exists : string -> bool.
Variable dataset_root : string.

(** At every frame the host leaves a camera the script can use, or none. *)
Hypothesis host_camera : ∀ frame b,
  camera_readable (frame_set frame b) ∧ camera_invertible (frame_set frame b).

Lemma do_frame_rows fs setup frame w :
  ∃ w' new,
    do_frame frame_set path_exists dataset_root fs setup frame w = (None, w') ∧
    csv_rows w' = csv_rows w ++ new ∧
    row_key <$> new =
      (fun shape => (Some (FStr setup), Some (FInt frame), Some (FStr shape))) <$> SHAPES.
Proof.
  rewrite do_frame_value. cbv zeta.
  destruct (host_camera frame (blend w)) as [Hr Hi].
  destruct (frame_base_total _ fs setup frame Hr Hi) as [base Hbase].
  rewrite Hbase. apply frame_base_good in Hbase.
  eexists _, _. split_and!; [done..|].
  rewrite <-list_fmap_compose. apply list_fmap_ext. intros _ shape _. simpl.
  unfold row_key.
  destruct (shape_cells_cols path_exists dataset_root fs setup frame base shape Hbase)
    as (-> & -> & -> & _).
  done.
Qed.

Lemma do_setup_rows fs fe setup w :
  ∃ w' new,
    do_setup frame_set path_exists dataset_root fs fe setup w = (None, w') ∧
    csv_rows w' = csv_rows w ++ new ∧
    row_key <$> new =
      frame ← seqZ fs (fe + 1 - fs);
      (fun shape => (Some (FStr setup), Some (FInt frame), Some (FStr shape))) <$> SHAPES.
Proof.
  unfold do_setup.
  match goal with
  | |- ∃ w' new, for_stmt _ _ ?w0 = _ ∧ _ =>
      destruct (for_stmt_appends row_key (seqZ fs (fe + 1 - fs))
        (do_frame frame_set path_exists dataset_root fs setup)
        (fun frame =>
           (fun shape => (Some (FStr setup), Some (FInt frame), Some (FStr shape)))
             <$> SHAPES)
        (fun frame w1 => do_frame_rows fs setup frame w1) w0)
        as (w' & new & Hrun & Hrows & Hkeys)
  end.
  by exists w', new.
Qed.

Lemma main_rows b :
  ∃ w rows,
    main frame_set path_exists dataset_root b = (None, w) ∧
    csv_rows w = (FStr <$> header) :: rows ∧
    row_key <$> rows =
      setup ← setups;
      frame ← seqZ (frame_start b) (frame_end b + 1 - frame_start b);
      (fun shape => (Some (FStr setup), Some (FInt frame), Some (FStr shape))) <$> SHAPES.
Proof.
  unfold main.
  destruct (for_stmt_appends row_key setups
    (do_setup frame_set path_exists dataset_root (frame_start b) (frame_end b))
    (fun setup =>
       frame ← seqZ (frame_start b) (frame_end b + 1 - frame_start b);
       (fun shape => (Some (FStr setup), Some (FInt frame), Some (FStr shape))) <$> SHAPES)
    (fun setup w => do_setup_rows (frame_start b) (frame_end b) setup w)
    (mkWorld b (writeheader header []))) as (w & rows & Hmain & Hrows & Hkeys).
  exists w, rows. split_and!; [done| |done].
  by rewrite Hrows.
Qed.
End run.

Lemma bind_const_length {A B} (xs : list A) (f : A → list B) n :
  (∀ a, length (f a) = n) → length (xs ≫= f) = length xs * n.
Proof.
  intros Hf. induction xs as [|a xs IH]; [done|].
  rewrite bind_cons, length_app, Hf, IH. simpl. lia.
Qed.

(** C7. Every run that completes leaves in the CSV file the header row
    followed by (number of setups) x (frame_end - frame_start + 1) x (number
    of shapes) data rows, ordered by lighting setup, then frame, then shape;
    and the run completes when at every frame the host leaves a camera the
    script can read and invert, or none. *)
Theorem csv_row_count_and_order (frame_set : Z → Blend → Blend)
    (path_exists : string → bool) (dataset_root : string) (b : Blend) :
  (frame_start b ≤ frame_end b + 1)%Z →
  (∀ w, main frame_set path_exists dataset_root b = (None, w) →
     ∃ rows,
       csv_rows w = (FStr <$> header) :: rows ∧
       Z.of_nat (length rows) =
         (Z.of_nat (length setups) * (frame_end b - frame_start b + 1)
          * Z.of_nat (length SHAPES))%Z ∧
       row_key <$> rows =
         setup ← setups;
         frame ← seqZ (frame_start b) (frame_end b - frame_start b + 1);
         shape ← SHAPES;
         [(Some (FStr setup), Some (FInt frame), Some (FStr shape))]) ∧
  ((∀ frame b', camera_readable (frame_set frame b') ∧
                camera_invertible (frame_set frame b')) →
   ∃ w, main frame_set path_exists dataset_root b = (None, w)).
Proof.
  intros Hrange. split.
  - intros w Hmain.
    destruct (main_completed _ _ _ _ _ Hmain) as (rows & Hrows & Hkeys).
    exists rows.
    replace (frame_end b - frame_start b + 1)%Z
      with (frame_end b + 1 - frame_start b)%Z by lia.
    split_and!; [done| |].
    + rewrite <-(length_fmap row_key), Hkeys.
      rewrite (bind_const_length _ _
        (Z.to_nat (frame_end b + 1 - frame_start b) * length SHAPES)).
      * simpl. lia.
      * intros setup. rewrite (bind_const_length _ _ (length SHAPES)).
        -- by rewrite length_seqZ.
        -- intros frame. by rewrite length_fmap.
    + rewrite Hkeys. done.
  - intros Hhost.
    destruct (main_rows frame_set path_exists dataset_root Hhost b) as (w & rows & Hmain & _).
    by exists w.
Qed.

(** C3. A frame of the range whose camera is absent, or readable and
    invertible, writes one row per shape; and in every row a frame of the
    range writes, with [idx = frame - frame_start], the [camera_png] cell is
    [idx mod CAMERAS_PER_CONFIG + 1], a number between 1 and
    [CAMERAS_PER_CONFIG], and the [config_id] cell is
    [idx div CAMERAS_PER_CONFIG], which is at most the [config_id] cell of
    every row written by a later frame. *)
Theorem frame_identifiers (frame_set : Z → Blend → Blend) (path_exists : string → bool)
    (dataset_root : string) (fs fe : Z) (setup : string) (frame : Z) (w : World) :
  (fs ≤ frame ≤ fe)%Z →
  let idx := (frame - fs)%Z in
  let run := do_frame frame_set path_exists dataset_root fs in
  (camera_readable (frame_set frame (blend w)) →
   camera_invertible (frame_set frame (blend w)) →
   ∃ w', run setup frame w = (None, w')) ∧
  ∀ w', run setup frame w = (None, w') →
    ∃ new, csv_rows w' = csv_rows w ++ new ∧ length new = length SHAPES ∧
      ∀ r, r ∈ new →
        ∃ png cfg : Z,
          csv_col "frame" r = Some (FInt frame) ∧
          csv_col "camera_png" r = Some (FInt png) ∧
          csv_col "config_id" r = Some (FInt cfg) ∧
          png = (idx `mod` CAMERAS_PER_CONFIG + 1)%Z ∧
          (1 ≤ png ≤ CAMERAS_PER_CONFIG)%Z ∧
          cfg = (idx `div` CAMERAS_PER_CONFIG)%Z ∧
          ∀ setup2 frame2 w2 w2' new2 r2,
            (frame ≤ frame2 ≤ fe)%Z →
            run setup2 frame2 w2 = (None, w2') →
            csv_rows w2' = csv_rows w2 ++ new2 → r2 ∈ new2 →
            ∃ cfg2 : Z, csv_col "config_id" r2 = Some (FInt cfg2) ∧ (cfg ≤ cfg2)%Z.
Proof.
  intros Hframe. cbv zeta.
  assert (∀ setup1 frame1 w1 w1',
    do_frame frame_set path_exists dataset_root fs setup1 frame1 w1 = (None, w1') →
    ∃ new, csv_rows w1' = csv_rows w1 ++ new ∧ length new = length SHAPES ∧
      ∀ r, r ∈ new →
        csv_col "frame" r = Some (FInt frame1) ∧
        csv_col "camera_png" r = Some (FInt ((frame1 - fs) `mod` CAMERAS_PER_CONFIG + 1)) ∧
        csv_col "config_id" r = Some (FInt ((frame1 - fs) `div` CAMERAS_PER_CONFIG)))
    as Hrows.
  { intros setup1 frame1 w1 w1'. rewrite do_frame_value. cbv zeta.
    destruct (frame_base _ _ _ _) as [base|] eqn:Hbase; [|done].
    intros [= <-]. apply frame_base_good in Hbase.
    exists (shape_cells path_exists dataset_root setup1 (camera_png fs frame1) base <$> SHAPES).
    split_and!; [done|by rewrite length_fmap|].
    intros r Hr. apply list_elem_of_fmap in Hr as (shape & -> & _).
    by destruct (shape_cells_cols path_exists dataset_root fs setup1 frame1 base shape Hbase)
      as (_ & -> & _ & -> & -> & _). }
  split.
  - intros Hr Hi. rewrite do_frame_value. cbv zeta.
    destruct (frame_base_total _ fs setup frame Hr Hi) as [base ->]. by eexists.
  - intros w' Hrun. destruct (Hrows _ _ _ _ Hrun) as (new & Hnew & Hlen & Hcells).
    exists new. split_and!; [done..|].
    intros r Hr. destruct (Hcells r Hr) as (Hf & Hpng & Hcfg).
    exists ((frame - fs) `mod` CAMERAS_PER_CONFIG + 1)%Z,
           ((frame - fs) `div` CAMERAS_PER_CONFIG)%Z.
    split_and!; try done.
    + unfold CAMERAS_PER_CONFIG. pose proof (Z.mod_pos_bound (frame - fs) 17). lia.
    + unfold CAMERAS_PER_CONFIG. pose proof (Z.mod_pos_bound (frame - fs) 17). lia.
    + intros setup2 frame2 w2 w2' new2 r2 Hframe2 Hrun2 Hnew2 Hr2.
      destruct (Hrows _ _ _ _ Hrun2) as (new2' & Hnew2' & _ & Hcells2).
      assert (new2' = new2) as -> by (apply (app_inv_head (csv_rows w2)); congruence).
      destruct (Hcells2 r2 Hr2) as (_ & _ & Hcfg2).
      eexists. split; [exact Hcfg2|].
      unfold CAMERAS_PER_CONFIG. apply Z.div_le_mono; lia.
Qed.

(** C8. In every row a frame writes, the [image_exists] cell is the empty
    string exactly when the dataset root is blank (empty or whitespace only);
    with any other root it is the boolean [os.path.exists] returns for the
    row's relative path under the root, so [False] for a missing file. *)
Theorem image_exists_cell (frame_set : Z → Blend → Blend) (path_exists : string → bool)
    (dataset_root : string) (fs : Z) (setup : string) (frame : Z) (w w' : World) :
  do_frame frame_set path_exists dataset_root fs setup frame w = (None, w') →
  ∃ new, csv_rows w' = csv_rows w ++ new ∧ length new = length SHAPES ∧
    ∀ r, r ∈ new →
      ∃ rel, csv_col "image_relpath" r = Some (FStr rel) ∧
        (csv_col "image_exists" r = Some (FStr "") ↔ blank dataset_root = true) ∧
        (blank dataset_root = false →
         csv_col "image_exists" r =
           Some (FBool (path_exists (path_join dataset_root [rel])))).
Proof.
  rewrite do_frame_value. cbv zeta.
  destruct (frame_base _ _ _ _) as [base|] eqn:Hbase; [|done].
  intros [= <-]. apply frame_base_good in Hbase.
  exists (shape_cells path_exists dataset_root setup (camera_png fs frame) base <$> SHAPES).
  split_and!; [done|by rewrite length_fmap|].
  intros r Hr. apply list_elem_of_fmap in Hr as (shape & -> & _).
  destruct (shape_cells_cols path_exists dataset_root fs setup frame base shape Hbase)
    as (_ & _ & _ & _ & _ & batch & _ & Hrel & Hex). cbv zeta in Hrel, Hex.
  eexists. split; [exact Hrel|]. rewrite Hex. unfold image_exists.
  destruct (blank dataset_root); by split.
Qed.

(** C9. [safe_float] and [safe_str] return for every argument: the converted
    value when [float]/[str] returns, the empty string when it raises.  A
    row that stores the result under one key is built all the same, and its
    other keys are untouched. *)
Theorem safe_coercions_never_raise {A : Type} `{PyFloat A} `{PyStr A} (a : A) :
  let float_cell := match py_float a with Ok r => FFloat r | Raise _ => FStr "" end in
  let str_cell := match py_str a with Ok s => FStr s | Raise _ => FStr "" end in
  safe_float a = Ok float_cell ∧
  safe_str a = Ok str_cell ∧
  ∀ (row : gmap string field) (key : string),
    (v ← safe_float a; mret (<[key := v]> row)) = Ok (<[key := float_cell]> row) ∧
    (v ← safe_str a; mret (<[key := v]> row)) = Ok (<[key := str_cell]> row) ∧
    ∀ k cell, k ≠ key → <[key := cell]> row !! k = row !! k.
Proof.
  cbv zeta. rewrite safe_float_value, safe_str_value. split_and!; try done.
  intros row key. split_and!; try done.
  intros k cell Hk. by apply lookup_insert_ne.
Qed.

(** ** A singular camera *)

Lemma frame_base_singular b fs setup frame cam :
  camera b = Some cam → det (to_3x3 (matrix_world cam)) = 0%R →
  camera_readable b → brightest_lights b MAX_ACTIVE_LIGHTS ≠ [] →
  frame_base b fs setup frame = Raise ValueError.
Proof.
  intros Hcam Hdet Hr Hl. unfold frame_base, MAX_ACTIVE_LIGHTS in *.
  destruct (get_engine_and_batch_value b) as [batch ->].
  destruct (get_camera_total b Hr) as [dc ->]. cbn [mbind result_bind].
  destruct (brightest_lights b 3) as [|obj lights] eqn:Hlights; [done|].
  by rewrite (get_active_lights_singular b cam obj) by (by rewrite ?Hlights).
Qed.

(** A loop over a list in two parts runs the second part from where the
    first part ends, if that completes. *)
Lemma for_stmt_app {A : Type} (xs ys : list A) (body : A → stmt) w :
  for_stmt (xs ++ ys) body w =
  match for_stmt xs body w with
  | (None, w') => for_stmt ys body w'
  | (Some e, w') => (Some e, w')
  end.
Proof.
  revert w. induction xs as [|a xs IH]; intros w; [done|].
  cbn [app for_stmt]. unfold seq_stmt. destruct (body a w) as [[e|] w1]; [done|].
  apply IH.
Qed.

(** A frame with a singular camera and a recorded light raises: [ValueError]
    from the inversion, or [AttributeError] before it when the camera object
    carries light or mesh data. *)
Lemma frame_base_singular_fails b fs setup frame cam :
  camera b = Some cam → det (to_3x3 (matrix_world cam)) = 0%R →
  brightest_lights b MAX_ACTIVE_LIGHTS ≠ [] →
  ∃ e, frame_base b fs setup frame = Raise e ∧ (camera_readable b → e = ValueError).
Proof.
  intros Hcam Hdet Hl.
  destruct (frame_base b fs setup frame) as [base|e] eqn:Hbase.
  - exfalso. unfold frame_base, MAX_ACTIVE_LIGHTS in *.
    destruct (get_engine_and_batch_value b) as [batch Hb]. rewrite Hb in Hbase.
    cbn [mbind result_bind] in Hbase.
    destruct (get_camera b) as [dc|]; cbn [mbind result_bind] in Hbase; [|done].
    destruct (brightest_lights b 3) as [|obj lights] eqn:Hlights; [done|].
    by rewrite (get_active_lights_singular b cam obj) in Hbase by (by rewrite ?Hlights).
  - exists e. split; [done|]. intros Hr.
    rewrite (frame_base_singular b fs setup frame cam) in Hbase by done. congruence.
Qed.

(** The frames before the first one that raises are written in full. *)
Lemma for_frames_complete frame_set path_exists dataset_root fs setup frames w :
  (∀ frame b, frame ∈ frames →
     camera_readable (frame_set frame b) ∧ camera_invertible (frame_set frame b)) →
  (∀ frame b, objects (frame_set frame b) = objects b) →
  ∃ w', for_stmt frames (do_frame frame_set path_exists dataset_root fs setup) w = (None, w') ∧
    objects (blend w') = objects (blend w) ∧
    length (csv_rows w') = length (csv_rows w) + length frames * length SHAPES.
Proof.
  intros Hcam Hobjs. revert w. induction frames as [|frame frames IH]; intros w.
  - exists w. split_and!; [done..|simpl; lia].
  - cbn [for_stmt]. unfold seq_stmt. rewrite do_frame_value. cbv zeta.
    destruct (Hcam frame (blend w)) as [Hr Hi]; [apply list_elem_of_here|].
    destruct (frame_base_total _ fs setup frame Hr Hi) as [base ->].
    destruct IH with (w := mkWorld (frame_set frame (blend w))
      (csv_rows w ++ (shape_cells path_exists dataset_root setup (camera_png fs frame) base
                        <$> SHAPES))) as (w' & -> & Ho & Hlen).
    { intros frame' b' Hin. apply Hcam. by apply list_elem_of_further. }
    exists w'. split_and!; [done| |].
    + rewrite Ho. cbn [blend]. apply Hobjs.
    + rewrite Hlen. cbn [csv_rows length]. rewrite length_app, length_fmap. lia.
Qed.

(** A light of the scene that is active is recorded or outranked: the
    recorded lights are not empty. *)
Lemma brightest_lights_nonempty b obj :
  obj ∈ objects b → is_active obj → brightest_lights b MAX_ACTIVE_LIGHTS ≠ [].
Proof.
  intros Hin Hact Hnil. pose proof (brightest_lights_length b MAX_ACTIVE_LIGHTS) as Hlen.
  rewrite Hnil in Hlen. unfold MAX_ACTIVE_LIGHTS in Hlen. simpl in Hlen.
  assert (obj ∈ filter is_active (objects b)) as Hf by (by apply list_elem_of_filter).
  destruct (filter is_active (objects b)); [by apply elem_of_nil in Hf|simpl in Hlen; lia].
Qed.

(** C10 (amended).  [get_active_lights] returns whenever the camera is absent
    or its orientation matrix is invertible.  With a camera whose orientation
    matrix is singular the inversion raises [ValueError]; the inverse is taken
    once a slot holds a light, so [get_active_lights] raises when at least one
    light is recorded.  A frame in that state raises without writing a row,
    and a run stops at the first frame it reaches in that state, whichever
    setup and frame that is, with the rows of the frames before it: with
    [ValueError], or with the [AttributeError] of [get_camera] when the
    camera object carries light or mesh data.  With no active light
    [get_active_lights] returns three empty slots. *)
Theorem singular_camera_inversion (b : Blend) :
  (camera_invertible b → ∃ out, get_active_lights b MAX_ACTIVE_LIGHTS = Ok out) ∧
  ∀ cam, camera b = Some cam → det (to_3x3 (matrix_world cam)) = 0%R →
    inverted (to_3x3 (matrix_world cam)) = Raise ValueError ∧
    (brightest_lights b MAX_ACTIVE_LIGHTS ≠ [] →
       get_active_lights b MAX_ACTIVE_LIGHTS = Raise ValueError ∧
       ∀ frame_set path_exists dataset_root,
         (∀ fs setup frame w, frame_set frame (blend w) = b →
            ∃ e, do_frame frame_set path_exists dataset_root fs setup frame w =
                   (Some e, mkWorld b (csv_rows w)) ∧
                 (camera_readable b → e = ValueError)) ∧
         (∀ b0 setup frame w1,
            run_reaches frame_set path_exists dataset_root b0 setup frame w1 →
            frame_set frame (blend w1) = b →
            ∃ e, main frame_set path_exists dataset_root b0 =
                   (Some e, mkWorld b (csv_rows w1)) ∧
                 (camera_readable b → e = ValueError)) ∧
         (∀ b0, camera_readable b → (frame_start b0 ≤ frame_end b0)%Z →
            frame_set (frame_start b0)
              (mkBlend (set_light_setup "Point Light" (objects b0)) (camera b0)
                 (frame_start b0) (frame_end b0) (render_engine b0)
                 (view_transform b0) (look b0)) = b →
            main frame_set path_exists dataset_root b0 =
              (Some ValueError, mkWorld b [FStr <$> header]))) ∧
    (brightest_lights b MAX_ACTIVE_LIGHTS = [] →
       ∃ out, get_active_lights b MAX_ACTIVE_LIGHTS = Ok out ∧
         ∀ i k, i < MAX_ACTIVE_LIGHTS → k ∈ slot_attrs →
           out !! (slot_prefix i +:+ k) = Some (FStr "")).
Proof.
  split; [apply get_active_lights_total|].
  intros cam Hcam Hdet. split_and!.
  - by apply inverted_singular.
  - intros Hl. split.
    + unfold MAX_ACTIVE_LIGHTS in *.
      destruct (brightest_lights b 3) as [|obj lights] eqn:Hlights; [done|].
      apply (get_active_lights_singular b cam obj); [done..|by rewrite Hlights].
    + intros frame_set path_exists dataset_root.
      assert (∀ fs setup frame w, frame_set frame (blend w) = b →
        ∃ e, do_frame frame_set path_exists dataset_root fs setup frame w =
               (Some e, mkWorld b (csv_rows w)) ∧
             (camera_readable b → e = ValueError)) as Hframe.
      { intros fs setup frame w Hb. rewrite do_frame_value. cbv zeta. rewrite Hb.
        destruct (frame_base_singular_fails b fs setup frame cam Hcam Hdet Hl)
          as (e & -> & He). by exists e. }
      split_and!.
      * exact Hframe.
      * intros b0 setup frame w1 Hreach Hb.
        destruct Hreach as (sd & sl & fd & fl & w0 & Hsetups & Hframes & Hsd & Hfd).
        destruct (Hframe (frame_start b0) setup frame w1 Hb) as (e & Hrun & He).
        exists e. split; [|done].
        unfold main. rewrite Hsetups, for_stmt_app, Hsd.
        apply for_stmt_raise. unfold do_setup.
        rewrite Hframes, for_stmt_app. unfold with_setup in Hfd. rewrite Hfd.
        by apply for_stmt_raise.
      * intros b0 Hr Hrange Hb.
        unfold main, setups. apply for_stmt_raise. unfold do_setup. cbn [blend csv_rows].
        rewrite seqZ_cons by lia. apply for_stmt_raise.
        rewrite do_frame_value. cbv zeta. cbn [blend csv_rows]. rewrite Hb.
        by rewrite (frame_base_singular b _ _ _ cam).
  - apply get_active_lights_no_light.
Qed.

(** ** The example scenes *)

Lemma det_identity3 : det identity3 = 1%R.
Proof. unfold det, identity3. simpl. lra. Qed.

Lemma det_zero3 : det zero3 = 0%R.
Proof. unfold det, zero3. simpl. lra. Qed.

Lemma studio_active :
  filter is_active studio_objects = [lamp_point; lamp_spot; lamp_area; lamp_sun].
Proof.
  unfold studio_objects.
  rewrite filter_cons_False by (by intros (? & _)).
  rewrite filter_cons_True by (split_and!; [done|done|unfold energy_of; simpl; lra]).
  rewrite filter_cons_True by (split_and!; [done|done|unfold energy_of; simpl; lra]).
  rewrite filter_cons_False by (by intros (_ & ? & _)).
  rewrite filter_cons_True by (split_and!; [done|done|unfold energy_of; simpl; lra]).
  rewrite filter_cons_True by (split_and!; [done|done|unfold energy_of; simpl; lra]).
  done.
Qed.

Lemma studio_brightest cam :
  brightest_lights (example_blend studio_objects cam) 3 = [lamp_area; lamp_point; lamp_spot].
Proof.
  rewrite brightest_lights_eq. cbn [objects example_blend]. rewrite studio_active.
  unfold list_sort. cbn [reverse rev_append sort_ascending foldr insert_sorted].
  repeat match goal with
  | |- context [bool_decide ?P] =>
      first [ rewrite (bool_decide_eq_true_2 P) by (unfold energy_of; simpl; lra)
            | rewrite (bool_decide_eq_false_2 P) by (unfold energy_of; simpl; lra) ];
      cbn [insert_sorted]
  end.
  reflexivity.
Qed.

Lemma unlit_brightest : brightest_lights unlit_singular 3 = [].
Proof.
  rewrite brightest_lights_eq. cbn [objects unlit_singular example_blend].
  rewrite filter_cons_False by (by intros (? & _)).
  rewrite filter_cons_False by (by intros (_ & ? & _)).
  rewrite filter_cons_False by (intros (_ & _ & ?); unfold energy_of in *; simpl in *; lra).
  done.
Qed.

Lemma flat_brightest : brightest_lights flat_light_scene 3 = [lamp_flat].
Proof.
  rewrite brightest_lights_eq. cbn [objects flat_light_scene example_blend].
  rewrite filter_cons_True by (split_and!; [done|done|unfold energy_of; simpl; lra]).
  reflexivity.
Qed.

Lemma studio_invertible : camera_invertible studio.
Proof. unfold camera_invertible. simpl. rewrite det_identity3. lra. Qed.

Lemma example_frame_set_camera frame b :
  camera_readable (example_frame_set frame b) ∧ camera_invertible (example_frame_set frame b).
Proof.
  unfold camera_readable, camera_invertible. simpl. split; [eauto|].
  rewrite det_identity3. lra.
Qed.

Lemma forward_identity3 nm hidden e p :
  obj_forward_world (example_lamp nm identity3 hidden e p) ≠ mkVector 0 0 0.
Proof.
  unfold obj_forward_world. intros H0.
  pose proof (normalized_unit (matvec identity3 (mkVector 0 0 (-1)))) as Hunit.
  cbn [example_lamp matrix_world to_3x3] in H0. rewrite H0 in Hunit.
  unfold dot in Hunit. simpl in Hunit.
  assert (0 * 0 + 0 * 0 + 0 * 0 = 1)%R as Habs; [|lra].
  apply Hunit. unfold matvec, identity3. simpl. intros [= ? ? ?]. lra.
Qed.

Lemma forward_zero3 nm hidden e p :
  obj_forward_world (example_lamp nm zero3 hidden e p) = mkVector 0 0 0.
Proof.
  unfold obj_forward_world. cbn [example_lamp matrix_world to_3x3].
  replace (matvec zero3 (mkVector 0 0 (-1))) with (mkVector 0 0 0).
  - apply normalized_zero.
  - unfold matvec, zero3. simpl. f_equal; lra.
Qed.

(** ** Counterexamples and instances *)

(** C4, as stated, fails: the cell of a spot is not the half-angle of its
    cone.  The spot of the studio has a beam 1 radian wide; its
    [spot_cone_deg] cell is 1 radian in degrees, the whole beam, which is not
    the half-angle in degrees. *)
Lemma type_specific_cells_counterexample :
  brightest_lights studio MAX_ACTIVE_LIGHTS !! 2 = Some lamp_spot ∧
  data lamp_spot = DLight (mkLight 5 (1, 1, 1)%R (SpotLight 1 (1 / 2))) ∧
  ∃ out, get_active_lights studio MAX_ACTIVE_LIGHTS = Ok out ∧
    out !! "light2_spot_cone_deg" = Some (FFloat (degrees 1)) ∧
    degrees 1 ≠ degrees (cone_half_angle 1) ∧
    out !! "light2_spot_cone_deg" ≠ Some (FFloat (degrees (cone_half_angle 1))).
Proof.
  assert (brightest_lights studio 3 !! 2 = Some lamp_spot) as Hl.
  { unfold studio. by rewrite studio_brightest. }
  unfold MAX_ACTIVE_LIGHTS. split_and!; [done..|].
  destruct (get_active_lights_total studio studio_invertible) as [out Hout].
  destruct (get_active_lights_slot studio out 2 lamp_spot Hout Hl)
    as (L & dir_cam & HL & _ & Hcells).
  injection HL as <-.
  pose proof (Hcells 15 "spot_cone_deg" eq_refl) as Hcone.
  assert (degrees 1 ≠ degrees (cone_half_angle 1)) as Hne.
  { apply not_eq_sym, degrees_half_angle. lra. }
  exists out. split_and!; [done|exact Hcone|done|].
  intros Heq. apply Hne. change (out !! "light2_spot_cone_deg") with
    (out !! (slot_prefix 2 +:+ "spot_cone_deg")) in Heq.
  rewrite Hcone in Heq. by injection Heq.
Qed.

(** C5, as stated, fails: with a camera whose orientation is singular and a
    recorded light there is no direction at all, [get_active_lights] raises;
    and under a regular camera a light scaled to nothing has the zero vector
    as its camera-relative direction. *)
Lemma camera_relative_direction_counterexample :
  (camera studio_singular = Some (example_camera zero3) ∧
   brightest_lights studio_singular MAX_ACTIVE_LIGHTS !! 0 = Some lamp_area ∧
   get_active_lights studio_singular MAX_ACTIVE_LIGHTS = Raise ValueError) ∧
  (camera flat_light_scene = Some (example_camera identity3) ∧
   brightest_lights flat_light_scene MAX_ACTIVE_LIGHTS !! 0 = Some lamp_flat ∧
   ∃ out, get_active_lights flat_light_scene MAX_ACTIVE_LIGHTS = Ok out ∧
     out !! "light0_dir_cam_x" = Some (FFloat 0) ∧
     out !! "light0_dir_cam_y" = Some (FFloat 0) ∧
     out !! "light0_dir_cam_z" = Some (FFloat 0)).
Proof.
  unfold MAX_ACTIVE_LIGHTS. split; split_and!.
  - done.
  - unfold studio_singular. by rewrite studio_brightest.
  - apply (get_active_lights_singular _ (example_camera zero3) lamp_area).
    + done.
    + apply det_zero3.
    + unfold studio_singular. by rewrite studio_brightest.
  - done.
  - by rewrite flat_brightest.
  - destruct (get_active_lights_total flat_light_scene) as [out Hout].
    { unfold camera_invertible. simpl. rewrite det_identity3. lra. }
    exists out. split; [done|].
    destruct (get_active_lights_slot flat_light_scene out 0 lamp_flat Hout)
      as (L & dir_cam & HL & Hdir & Hcells); [by rewrite flat_brightest|].
    injection HL as <-.
    unfold flat_light_scene, lamp_flat in Hdir. rewrite forward_zero3 in Hdir.
    cbn [camera example_blend fmap option_fmap option_map light_dir_cam
         example_camera matrix_world to_3x3] in Hdir.
    destruct (inverted identity3) as [inv|] eqn:Hinv; cbn [mbind result_bind] in Hdir;
      [|done].
    rewrite matvec_zero, normalized_zero in Hdir. injection Hdir as <-.
    split_and!.
    + exact (Hcells 12 "dir_cam_x" eq_refl).
    + exact (Hcells 13 "dir_cam_y" eq_refl).
    + exact (Hcells 14 "dir_cam_z" eq_refl).
Qed.

(** C10, as stated, fails: with a camera whose orientation is singular and no
    active light the inverse is never taken and [get_active_lights] returns
    three empty slots. *)
Lemma singular_camera_inversion_counterexample :
  camera unlit_singular = Some (example_camera zero3) ∧
  inverted (to_3x3 (matrix_world (example_camera zero3))) = Raise ValueError ∧
  ∃ out, get_active_lights unlit_singular MAX_ACTIVE_LIGHTS = Ok out ∧
    out !! "num_active_lights" = Some (FInt 0) ∧
    out !! "light0_dir_cam_x" = Some (FStr "").
Proof.
  unfold MAX_ACTIVE_LIGHTS. split_and!; [done|apply inverted_singular, det_zero3|].
  destruct (get_active_lights_no_light unlit_singular unlit_brightest) as (out & Hout & Hempty).
  exists out. split_and!; [done| |].
  - rewrite (get_active_lights_count _ _ Hout). by rewrite unlit_brightest.
  - apply (Hempty 0 "dir_cam_x"); [lia|]. unfold slot_attrs. set_solver.
Qed.

Lemma active_light_slots_witness :
  ∃ out, get_active_lights studio MAX_ACTIVE_LIGHTS = Ok out ∧
    out !! "num_active_lights" = Some (FInt 3).
Proof.
  destruct (active_light_slots studio) as [Htotal Hslots].
  destruct (Htotal studio_invertible) as [out Hout].
  exists out. split; [exact Hout|].
  destruct (Hslots out Hout) as (Hnum & _).
  cbn [objects studio example_blend] in Hnum. rewrite studio_active in Hnum.
  exact Hnum.
Defined.

Lemma lights_ranked_by_intensity_witness :
  ∃ out, get_active_lights studio MAX_ACTIVE_LIGHTS = Ok out ∧
    objects studio !! 1 = Some lamp_point ∧ objects studio !! 2 = Some lamp_spot ∧
    out !! "light0_name" = Some (FStr "Area") ∧ out !! "light0_energy" = Some (FFloat 8) ∧
    out !! "light1_name" = Some (FStr "Point") ∧ out !! "light1_energy" = Some (FFloat 5) ∧
    out !! "light2_name" = Some (FStr "Spot") ∧ out !! "light2_energy" = Some (FFloat 5).
Proof.
  pose proof (lights_ranked_by_intensity studio) as H. cbv zeta in H.
  destruct H as (ranked & _ & _ & _ & _ & Htake & Htotal & Hslots).
  destruct (Htotal studio_invertible) as [out Hout].
  destruct (Hslots out Hout) as (_ & Hslot & _).
  unfold studio, MAX_ACTIVE_LIGHTS in Htake. rewrite studio_brightest in Htake.
  assert (∀ i obj, i < 3 → [lamp_area; lamp_point; lamp_spot] !! i = Some obj →
            ranked !! i = Some obj) as Hranked.
  { intros i obj Hi. rewrite Htake. by rewrite lookup_take_lt. }
  exists out. split; [exact Hout|]. split; [reflexivity|]. split; [reflexivity|].
  destruct (Hslot 0 lamp_area) as [Hn0 He0]; [unfold MAX_ACTIVE_LIGHTS; lia|apply Hranked; [lia|reflexivity]|].
  destruct (Hslot 1 lamp_point) as [Hn1 He1]; [unfold MAX_ACTIVE_LIGHTS; lia|apply Hranked; [lia|reflexivity]|].
  destruct (Hslot 2 lamp_spot) as [Hn2 He2]; [unfold MAX_ACTIVE_LIGHTS; lia|apply Hranked; [lia|reflexivity]|].
  split; [exact Hn0|]. split; [exact He0|]. split; [exact Hn1|]. split; [exact He1|].
  split; [exact Hn2|exact He2].
Defined.

Lemma frame_identifiers_witness :
  ∃ w' new,
    do_frame example_frame_set (fun _ => false) DATASET_ROOT 1 "Point Light" 20
      (mkWorld studio []) = (None, w') ∧
    csv_rows w' = new ∧ length new = 6 ∧
    ∀ r, r ∈ new →
      csv_col "frame" r = Some (FInt 20) ∧
      csv_col "camera_png" r = Some (FInt 3) ∧
      csv_col "config_id" r = Some (FInt 1).
Proof.
  pose proof (frame_identifiers example_frame_set (fun _ => false) DATASET_ROOT 1 34
                "Point Light" 20 (mkWorld studio [])) as H.
  cbv zeta in H. destruct H as [Htotal Hrows]; [lia|].
  destruct (Htotal (proj1 (example_frame_set_camera 20 studio))
                   (proj2 (example_frame_set_camera 20 studio))) as [w' Hrun].
  destruct (Hrows w' Hrun) as (new & Hnew & Hlen & Hcells).
  exists w', new. split; [exact Hrun|]. split; [exact Hnew|]. split; [exact Hlen|].
  intros r Hr. destruct (Hcells r Hr) as (png & cfg & Hf & Hpng & Hcfg & -> & _ & -> & _).
  split; [exact Hf|]. split; [exact Hpng|exact Hcfg].
Defined.

Lemma type_specific_cells_witness :
  ∃ out, get_active_lights studio MAX_ACTIVE_LIGHTS = Ok out ∧
    brightest_lights studio MAX_ACTIVE_LIGHTS !! 2 = Some lamp_spot ∧
    out !! (slot_prefix 2 +:+ "spot_cone_deg") = Some (FFloat (1 * (180 / PI))) ∧
    out !! (slot_prefix 2 +:+ "area_shape") = Some (FStr "").
Proof.
  destruct (get_active_lights_total studio studio_invertible) as [out Hout].
  assert (brightest_lights studio MAX_ACTIVE_LIGHTS !! 2 = Some lamp_spot) as Hl.
  { unfold studio, MAX_ACTIVE_LIGHTS. rewrite studio_brightest. reflexivity. }
  exists out. split; [exact Hout|]. split; [exact Hl|].
  pose proof (type_specific_cells studio out 2 lamp_spot
    (mkLight 5 (1, 1, 1)%R (SpotLight 1 (1 / 2))) Hout Hl eq_refl) as H.
  cbv zeta in H. cbn [params] in H. destruct H as (Hcone & _ & _ & _ & Hshape & _).
  split; [exact Hcone|exact Hshape].
Defined.

Lemma camera_relative_direction_witness :
  ∃ out, get_active_lights studio MAX_ACTIVE_LIGHTS = Ok out ∧
    cells_norm2 (out !! (slot_prefix 0 +:+ "dir_cam_x"))
      (out !! (slot_prefix 0 +:+ "dir_cam_y"))
      (out !! (slot_prefix 0 +:+ "dir_cam_z")) = Some 1%R.
Proof.
  destruct (get_active_lights_total studio studio_invertible) as [out Hout].
  exists out. split; [exact Hout|].
  destruct (camera_relative_direction studio) as [_ Hdir].
  assert (brightest_lights studio MAX_ACTIVE_LIGHTS !! 0 = Some lamp_area) as Hl.
  { unfold studio, MAX_ACTIVE_LIGHTS. rewrite studio_brightest. reflexivity. }
  pose proof (Hdir out 0 lamp_area Hout Hl) as H. cbv zeta in H.
  cbn [camera studio example_blend] in H.
  destruct H as (inv & _ & _ & _ & _ & _ & Hunit).
  apply Hunit. apply forward_identity3.
Defined.

Lemma light_setup_switch_witness :
  ∃ i key j point,
    hide_render lamp_hidden = true ∧ hide_render lamp_point = false ∧
    objects_get "TriLamp-Key" (set_light_setup "Tri Light" studio_objects) = Some (i, key) ∧
    hide_render key = false ∧
    objects_get "Point" (set_light_setup "Tri Light" studio_objects) = Some (j, point) ∧
    hide_render point = true.
Proof.
  destruct (light_setup_switch "Tri Light" studio_objects)
    as (_ & _ & (_ & _ & _ & Htri) & Hknown & _).
  destruct (Hknown "TriLamp-Key" 3 lamp_hidden) as (key & Hkey & _ & _ & _ & Hon & _).
  { apply (bool_decide_unpack _). vm_compute. exact I. }
  { reflexivity. }
  destruct (Hknown "Point" 1 lamp_point) as (point & Hpoint & _ & _ & _ & _ & Hoff).
  { apply (bool_decide_unpack _). vm_compute. exact I. }
  { reflexivity. }
  exists 3, key, 1, point. split; [reflexivity|]. split; [reflexivity|].
  split; [exact Hkey|]. split.
  - apply Hon. rewrite Htri. apply list_elem_of_here.
  - split; [exact Hpoint|]. apply Hoff. rewrite Htri.
    apply (bool_decide_unpack _). vm_compute. exact I.
Defined.

Lemma csv_row_count_and_order_witness :
  ∃ w rows,
    main example_frame_set (fun _ => false) DATASET_ROOT studio = (None, w) ∧
    csv_rows w = (FStr <$> header) :: rows ∧ length rows = 612.
Proof.
  destruct (csv_row_count_and_order example_frame_set (fun _ => false) DATASET_ROOT studio)
    as (Hrows & Hrun).
  { cbn [frame_start frame_end studio example_blend]. lia. }
  destruct (Hrun example_frame_set_camera) as [w Hmain].
  destruct (Hrows w Hmain) as (rows & Hfile & Hlen & _).
  exists w, rows. split; [exact Hmain|]. split; [exact Hfile|].
  cbn [frame_start frame_end studio example_blend] in Hlen.
  unfold setups, SHAPES in Hlen. cbn [length] in Hlen. lia.
Defined.

Lemma safe_coercions_never_raise_witness :
  safe_float tt = Ok (FStr "") ∧ safe_str tt = Ok (FStr "None").
Proof.
  destruct (safe_coercions_never_raise tt) as (Hfloat & Hstr & _).
  split; [exact Hfloat|exact Hstr].
Defined.

Lemma image_exists_cell_witness :
  ∃ w' new,
    do_frame example_frame_set (fun _ => false) DATASET_ROOT 1 "Point Light" 3
      (mkWorld studio []) = (None, w') ∧
    csv_rows w' = new ∧ length new = 6 ∧
    ∀ r, r ∈ new → ∃ rel,
      csv_col "image_relpath" r = Some (FStr rel) ∧
      csv_col "image_exists" r = Some (FBool false).
Proof.
  destruct (do_frame_rows example_frame_set (fun _ => false) DATASET_ROOT
              example_frame_set_camera 1 "Point Light" 3 (mkWorld studio []))
    as (w' & new0 & Hrun & _ & _).
  destruct (image_exists_cell example_frame_set (fun _ => false) DATASET_ROOT
              1 "Point Light" 3 (mkWorld studio []) w' Hrun)
    as (new & Hrows & Hlen & Hcells).
  exists w', new. split; [exact Hrun|]. split; [exact Hrows|]. split; [exact Hlen|].
  intros r Hr. destruct (Hcells r Hr) as (rel & Hrel & _ & Hex).
  exists rel. split; [exact Hrel|]. apply Hex. reflexivity.
Defined.

Lemma singular_camera_inversion_witness :
  ∃ w, main collapsing_host (fun _ => false) DATASET_ROOT studio = (Some ValueError, w) ∧
    camera (blend w) = Some (example_camera zero3) ∧
    length (csv_rows w) = 13.
Proof.
  set (run := do_frame collapsing_host (fun _ => false) DATASET_ROOT 1 "Point Light").
  destruct (for_frames_complete collapsing_host (fun _ => false) DATASET_ROOT 1 "Point Light"
              [1; 2]%Z (mkWorld (with_setup "Point Light" studio) [FStr <$> header]))
    as (w1 & Hdone & Hobjs & Hlen).
  { intros frame b' Hin.
    assert (frame < 3)%Z as Hlt.
    { apply elem_of_cons in Hin as [->|Hin]; [lia|].
      apply elem_of_cons in Hin as [->|Hin]; [lia|]. by apply elem_of_nil in Hin. }
    unfold camera_readable, camera_invertible, collapsing_host. cbn [camera].
    rewrite bool_decide_eq_true_2 by done. split.
    - right. by exists 50%R.
    - cbn [example_camera matrix_world to_3x3]. rewrite det_identity3. lra. }
  { reflexivity. }
  set (b := collapsing_host 3 (blend w1)).
  destruct (singular_camera_inversion b) as [_ Hsing].
  destruct (Hsing (example_camera zero3) eq_refl det_zero3) as (_ & Hraise & _).
  destruct Hraise as [_ Hrun].
  { apply (brightest_lights_nonempty b lamp_sun).
    - cbn [b collapsing_host objects]. rewrite Hobjs. cbn [blend with_setup objects].
      change (set_light_setup "Point Light" (objects studio)) with
        [cube; lamp_point; with_hide_render true lamp_spot; lamp_hidden;
         with_hide_render true lamp_area; lamp_sun].
      apply (list_elem_of_lookup_2 _ 5). reflexivity.
    - split; [reflexivity|]. split; [reflexivity|]. unfold energy_of. simpl. lra. }
  destruct (Hrun collapsing_host (fun _ => false) DATASET_ROOT) as (_ & Hmain & _).
  destruct (Hmain studio "Point Light" 3%Z w1) as (e & Hstop & He).
  { exists [], ["Spot Light"; "Area Light"; "Tri Light"; "HDRI (Sunlight)"; "HDRI (Overcast)"],
      [1; 2]%Z, (seqZ 4 14), (mkWorld studio [FStr <$> header]).
    split; [reflexivity|]. split; [reflexivity|]. split; [reflexivity|]. exact Hdone. }
  { reflexivity. }
  rewrite (He (or_intror (ex_intro _ 50%R eq_refl))) in Hstop.
  exists (mkWorld b (csv_rows w1)). split; [exact Hstop|]. split; [reflexivity|].
  cbn [csv_rows]. rewrite Hlen. reflexivity.
Defined.

(** * Further properties of the script *)

(** ** [set_light_setup], object by object *)

Lemma set_hide_render_lookup v objs m j :
  set_hide_render v objs m !! j =
  (fun obj => if bool_decide (fst <$> objects_get m objs = Some j)
              then with_hide_render v obj else obj) <$> objs !! j.
Proof.
  unfold set_hide_render. destruct (objects_get m objs) as [[i obj]|] eqn:Hm; simpl.
  - unfold objects_get in Hm. apply list_find_Some in Hm as (Hi & _ & _).
    destruct (decide (i = j)) as [->|Hij].
    + rewrite list_lookup_insert_eq by (by eapply lookup_lt_Some).
      rewrite Hi. simpl. by rewrite bool_decide_eq_true_2.
    + rewrite list_lookup_insert_ne by done.
      destruct (objs !! j); simpl; [|done].
      by rewrite bool_decide_eq_false_2 by congruence.
  - by destruct (objs !! j).
Qed.

Lemma objects_get_index_set_hide_render v objs m n :
  fst <$> objects_get n (set_hide_render v objs m) = fst <$> objects_get n objs.
Proof. rewrite objects_get_set_hide_render. by destruct (objects_get n objs) as [[??]|]. Qed.

Lemma objects_get_name n objs j obj :
  objects_get n objs = Some (j, obj) → objs !! j = Some obj ∧ name obj = n.
Proof. unfold objects_get. intros H. by apply list_find_Some in H as (? & ? & _). Qed.

Lemma with_hide_render_twice v1 v2 obj :
  with_hide_render v2 (with_hide_render v1 obj) = with_hide_render v2 obj.
Proof. done. Qed.

Lemma foldl_set_hide_render_lookup v ms objs j :
  foldl (set_hide_render v) objs ms !! j =
  (fun obj => if bool_decide (name obj ∈ ms ∧ fst <$> objects_get (name obj) objs = Some j)
              then with_hide_render v obj else obj) <$> objs !! j.
Proof.
  revert objs. induction ms as [|m ms IH]; intros objs; simpl.
  - by destruct (objs !! j) as [obj|].
  - rewrite IH, set_hide_render_lookup.
    destruct (objs !! j) as [obj|] eqn:Hj; simpl; [|done]. f_equal.
    assert (fst <$> objects_get m objs = Some j → name obj = m) as Hname.
    { intros Hm. destruct (objects_get m objs) as [[i o]|] eqn:Hget; [|done].
      injection Hm as ->. apply objects_get_name in Hget as [Hget <-]. congruence. }
    destruct (decide (fst <$> objects_get m objs = Some j)) as [Hm|Hm].
    + rewrite (bool_decide_eq_true_2 _ Hm). cbn [name with_hide_render].
      rewrite objects_get_index_set_hide_render.
      rewrite (bool_decide_eq_true_2 (name obj ∈ m :: ms ∧ _))
        by (rewrite (Hname Hm); split; [apply list_elem_of_here|done]).
      by case_bool_decide.
    + rewrite (bool_decide_eq_false_2 _ Hm).
      rewrite objects_get_index_set_hide_render.
      destruct (decide (name obj ∈ ms ∧ fst <$> objects_get (name obj) objs = Some j))
        as [Hin|Hin].
      * rewrite (bool_decide_eq_true_2 _ Hin).
        rewrite (bool_decide_eq_true_2 (name obj ∈ m :: ms ∧ _)); [done|].
        split; [apply list_elem_of_further|]; tauto.
      * rewrite (bool_decide_eq_false_2 _ Hin).
        rewrite (bool_decide_eq_false_2 (name obj ∈ m :: ms ∧ _)); [done|].
        rewrite elem_of_cons. intros [[Heq|Hms] Hfirst]; [|tauto].
        rewrite Heq in Hfirst. done.
Qed.

Lemma dict_item_known setup_name nm :
  dict_item setup_name LIGHTS_SINGLE = Some nm → nm ∈ ALL_LIGHT_NAMES.
Proof.
  unfold LIGHTS_SINGLE. simpl. repeat case_bool_decide; intros [= <-];
    apply (bool_decide_unpack _); by vm_compute.
Qed.

Lemma objects_get_index_foldl v ms objs n :
  fst <$> objects_get n (foldl (set_hide_render v) objs ms) = fst <$> objects_get n objs.
Proof. rewrite objects_get_hide_all. by destruct (objects_get n objs) as [[??]|]. Qed.

Lemma objects_get_first n objs j obj :
  fst <$> objects_get n objs = Some j → objs !! j = Some obj → name obj = n.
Proof.
  intros Hfirst Hj. destruct (objects_get n objs) as [[i o]|] eqn:Hget; [|done].
  injection Hfirst as ->. apply objects_get_name in Hget as [Hget <-]. congruence.
Qed.

(** [set_light_setup], object by object. *)
Lemma set_light_setup_lookup setup_name objs j :
  set_light_setup setup_name objs !! j = setup_object setup_name objs j <$> objs !! j.
Proof.
  unfold set_light_setup, setup_object, setup_lamps.
  destruct (dict_item setup_name LIGHTS_SINGLE) as [nm|] eqn:Hsingle.
  - rewrite set_hide_render_lookup, foldl_set_hide_render_lookup, objects_get_index_foldl.
    destruct (objs !! j) as [obj|] eqn:Hj; [|done].
    cbn [fmap option_fmap option_map]. f_equal.
    pose proof (dict_item_known _ _ Hsingle) as Hnm.
    destruct (decide (fst <$> objects_get nm objs = Some j)) as [Hfirst|Hfirst].
    + rewrite (bool_decide_eq_true_2 _ Hfirst).
      pose proof (objects_get_first _ _ _ _ Hfirst Hj) as Hname.
      rewrite (bool_decide_eq_true_2 (name obj ∈ ALL_LIGHT_NAMES ∧ _))
        by (by rewrite Hname).
      rewrite (bool_decide_eq_true_2 (name obj ∈ [nm]))
        by (rewrite Hname; apply list_elem_of_here).
      done.
    + rewrite (bool_decide_eq_false_2 _ Hfirst).
      case_bool_decide as Hknown; [|done].
      rewrite (bool_decide_eq_false_2 (name obj ∈ [nm])); [done|].
      intros Hin%list_elem_of_singleton. destruct Hknown as [_ Hk]. by rewrite Hin in Hk.
  - case_bool_decide as Htri.
    + rewrite !foldl_set_hide_render_lookup.
      destruct (objs !! j) as [obj|] eqn:Hj; [|done].
      cbn [fmap option_fmap option_map]. f_equal.
      assert (name obj ∈ LIGHTS_TRI → name obj ∈ ALL_LIGHT_NAMES) as Hsub.
      { unfold ALL_LIGHT_NAMES. rewrite elem_of_app. tauto. }
      destruct (decide (name obj ∈ ALL_LIGHT_NAMES ∧
                        fst <$> objects_get (name obj) objs = Some j)) as [Hknown|Hknown].
      * rewrite !(bool_decide_eq_true_2 _ Hknown). cbn [name with_hide_render].
        rewrite objects_get_index_foldl.
        destruct (decide (name obj ∈ LIGHTS_TRI)) as [Hin|Hin].
        -- rewrite (bool_decide_eq_true_2 (_ ∧ _)) by tauto.
           by rewrite (bool_decide_eq_true_2 (name obj ∈ LIGHTS_TRI)).
        -- rewrite (bool_decide_eq_false_2 (_ ∧ _)) by tauto.
           by rewrite (bool_decide_eq_false_2 (name obj ∈ LIGHTS_TRI)).
      * rewrite !(bool_decide_eq_false_2 _ Hknown).
        rewrite objects_get_index_foldl.
        rewrite (bool_decide_eq_false_2 (_ ∧ _)); [done|]. tauto.
    + assert (foldl (set_hide_render true) objs ALL_LIGHT_NAMES !! j =
        (fun obj =>
           if bool_decide (name obj ∈ ALL_LIGHT_NAMES ∧
                           fst <$> objects_get (name obj) objs = Some j)
           then with_hide_render (negb (bool_decide (name obj ∈ @nil string))) obj
           else obj) <$> objs !! j) as Hgoal.
      { rewrite foldl_set_hide_render_lookup. by destruct (objs !! j). }
      by destruct (startswith "HDRI" setup_name).
Qed.

Lemma objects_get_index_set_light_setup setup_name objs n :
  fst <$> objects_get n (set_light_setup setup_name objs) = fst <$> objects_get n objs.
Proof. rewrite set_light_setup_get. by destruct (objects_get n objs) as [[??]|]. Qed.

Lemma setup_object_name setup_name objs j obj :
  name (setup_object setup_name objs j obj) = name obj.
Proof. unfold setup_object. by case_bool_decide. Qed.

(** X1. [set_light_setup] keeps the list of objects, their names, matrices
    and data: only [hide_render] can change, and only for an object with a
    known lamp name; a scene without known lamps is left as it is (a lamp
    the scene does not have is skipped silently). *)
Theorem set_light_setup_only_visibility (setup_name : string) (objs : list Object) :
  length (set_light_setup setup_name objs) = length objs ∧
  (∀ j obj, objs !! j = Some obj →
     ∃ obj', set_light_setup setup_name objs !! j = Some obj' ∧
       name obj' = name obj ∧ matrix_world obj' = matrix_world obj ∧
       data obj' = data obj ∧
       (name obj ∉ ALL_LIGHT_NAMES → obj' = obj)) ∧
  ((∀ obj, obj ∈ objs → name obj ∉ ALL_LIGHT_NAMES) →
     set_light_setup setup_name objs = objs).
Proof.
  assert (∀ j obj, objs !! j = Some obj →
     ∃ obj', set_light_setup setup_name objs !! j = Some obj' ∧
       name obj' = name obj ∧ matrix_world obj' = matrix_world obj ∧
       data obj' = data obj ∧
       (name obj ∉ ALL_LIGHT_NAMES → obj' = obj)) as Hobj.
  { intros j obj Hj. rewrite set_light_setup_lookup, Hj. eexists. split; [done|].
    unfold setup_object. case_bool_decide as Hknown; split_and!; try done.
    intros Hname. by destruct Hknown. }
  split_and!; [|done|].
  - by rewrite <-(length_fmap name), set_light_setup_names, length_fmap.
  - intros Hnone. apply list_eq. intros j.
    destruct (objs !! j) as [obj|] eqn:Hj.
    + destruct (Hobj j obj Hj) as (obj' & -> & _ & _ & _ & Hsame).
      rewrite Hsame; [done|]. apply Hnone. by eapply list_elem_of_lookup_2.
    + rewrite set_light_setup_lookup. by rewrite Hj.
Qed.

Lemma set_light_setup_after (previous setup_name : string) (objs : list Object) :
  set_light_setup setup_name (set_light_setup previous objs) = set_light_setup setup_name objs.
Proof.
  apply list_eq. intros j. rewrite !set_light_setup_lookup.
  destruct (objs !! j) as [obj|] eqn:Hj; [|done].
  cbn [fmap option_fmap option_map]. f_equal.
  unfold setup_object at 1. rewrite setup_object_name, objects_get_index_set_light_setup.
  unfold setup_object. case_bool_decide; done.
Qed.

(** X2. A switch forgets the setup before it: switching to a setup after any
    other switch gives the scene a direct switch gives; in particular a
    switch done twice changes nothing the second time. *)
Theorem set_light_setup_forgets_history (previous setup_name : string) (objs : list Object) :
  set_light_setup setup_name (set_light_setup previous objs) = set_light_setup setup_name objs ∧
  set_light_setup setup_name (set_light_setup setup_name objs) = set_light_setup setup_name objs.
Proof.
  split; apply set_light_setup_after.
Qed.

(** X3. A setup name the script does not know - any name other than the three
    single-lamp keys and ["Tri Light"], whatever its spelling or prefix -
    switches every known lamp off, exactly as an environment-only setup does. *)
Theorem unknown_setup_hides_all (setup_name : string) (objs : list Object) :
  setup_name ∉ ["Area Light"; "Point Light"; "Spot Light"; "Tri Light"] →
  set_light_setup setup_name objs = set_light_setup "HDRI (Sunlight)" objs ∧
  ∀ nm i obj, nm ∈ ALL_LIGHT_NAMES →
    objects_get nm (set_light_setup setup_name objs) = Some (i, obj) →
    hide_render obj = true.
Proof.
  intros Hunknown.
  assert (setup_lamps setup_name = []) as Hnone.
  { unfold setup_lamps, LIGHTS_SINGLE. simpl.
    rewrite !elem_of_cons, elem_of_nil in Hunknown.
    repeat (case_bool_decide; [subst; tauto|]). done. }
  split.
  - apply list_eq. intros j. rewrite !set_light_setup_lookup.
    destruct (objs !! j) as [obj|]; [|done]. cbn [fmap option_fmap option_map]. f_equal.
    unfold setup_object. by rewrite Hnone.
  - intros nm i obj Hnm. rewrite set_light_setup_get, Hnone.
    rewrite bool_decide_eq_true_2 by done.
    destruct (objects_get nm objs) as [[j obj']|]; simpl; [|done].
    by intros [= _ <-].
Qed.

(** ** Runs that stop early *)

(** Whatever the iterations of a loop do - complete or raise - the rows the
    loop leaves are whole groups, in order, of rows that satisfy [Q]. *)
Lemma for_stmt_outcome {A X : Type} (proj : list field → X) (n : nat)
    (Q : list field → Prop) (xs : list A) (body : A → stmt) (keys : A → list X) :
  (∀ a w r w', body a w = (r, w') →
     ∃ new, csv_rows w' = csv_rows w ++ new ∧ Forall Q new ∧ (n | length new) ∧
       proj <$> new `prefix_of` keys a ∧ (r = None → proj <$> new = keys a)) →
  ∀ w r w', for_stmt xs body w = (r, w') →
    ∃ new, csv_rows w' = csv_rows w ++ new ∧ Forall Q new ∧ (n | length new) ∧
      proj <$> new `prefix_of` xs ≫= keys ∧ (r = None → proj <$> new = xs ≫= keys).
Proof.
  intros Hbody. induction xs as [|a xs IH]; intros w r w'.
  - intros [= <- <-]. exists []. rewrite app_nil_r. split_and!; try done.
    apply Nat.divide_0_r.
  - cbn [for_stmt]. unfold seq_stmt. destruct (body a w) as [r1 w1] eqn:Ha.
    destruct (Hbody a w r1 w1 Ha) as (new1 & Hrows1 & HQ1 & Hn1 & Hpre1 & Hall1).
    rewrite bind_cons. destruct r1 as [e|].
    + intros [= <- <-]. exists new1. split_and!; try done.
      by apply prefix_app_r.
    + intros Hrest.
      destruct (IH w1 r w' Hrest) as (new2 & Hrows2 & HQ2 & Hn2 & Hpre2 & Hall2).
      exists (new1 ++ new2). split_and!.
      * by rewrite Hrows2, Hrows1, <-app_assoc.
      * by apply Forall_app.
      * rewrite length_app. by apply Nat.divide_add_r.
      * rewrite fmap_app, (Hall1 eq_refl). by apply prefix_app.
      * intros Hr. by rewrite fmap_app, (Hall1 eq_refl), (Hall2 Hr).
Qed.

Lemma shape_cells_length path_exists dataset_root fs setup frame base shape :
  good_base fs setup frame base →
  length (shape_cells path_exists dataset_root setup (camera_png fs frame) base shape)
  = length header.
Proof.
  intros [_ [batch Hbatch] _ _ _ _]. unfold shape_cells.
  rewrite (shape_row_value _ _ _ _ _ _ batch) by done.
  unfold written_cells. by rewrite length_fmap.
Qed.

Lemma do_frame_outcome frame_set path_exists dataset_root fs setup frame w r w' :
  do_frame frame_set path_exists dataset_root fs setup frame w = (r, w') →
  ∃ new, csv_rows w' = csv_rows w ++ new ∧
    Forall (fun row => length row = length header) new ∧
    (length SHAPES | length new) ∧
    row_key <$> new `prefix_of`
      ((fun shape => (Some (FStr setup), Some (FInt frame), Some (FStr shape))) <$> SHAPES) ∧
    (r = None → row_key <$> new =
      (fun shape => (Some (FStr setup), Some (FInt frame), Some (FStr shape))) <$> SHAPES).
Proof.
  rewrite do_frame_value. cbv zeta.
  destruct (frame_base _ _ _ _) as [base|] eqn:Hbase.
  - intros [= <- <-]. cbn [csv_rows].
    destruct (do_frame_completed frame_set path_exists dataset_root fs setup frame w
      (mkWorld (frame_set frame (blend w))
         (csv_rows w ++ (shape_cells path_exists dataset_root setup (camera_png fs frame) base
                           <$> SHAPES)))) as (new & Hnew & Hkeys).
    { rewrite do_frame_value. cbv zeta. by rewrite Hbase. }
    cbn [csv_rows] in Hnew. apply app_inv_head in Hnew. subst new.
    apply frame_base_good in Hbase.
    exists (shape_cells path_exists dataset_root setup (camera_png fs frame) base <$> SHAPES).
    split_and!; [done| | |rewrite Hkeys; reflexivity|done].
    + apply Forall_fmap, Forall_forall. intros shape _. simpl.
      by apply (shape_cells_length _ _ fs setup frame).
    + by rewrite length_fmap.
  - intros [= <- <-]. exists []. cbn [csv_rows]. rewrite app_nil_r.
    split_and!; try done. + apply Nat.divide_0_r. + apply prefix_nil.
Qed.

Lemma main_outcome frame_set path_exists dataset_root b r w :
  main frame_set path_exists dataset_root b = (r, w) →
  ∃ rows, csv_rows w = (FStr <$> header) :: rows ∧
    Forall (fun row => length row = length header) rows ∧
    (length SHAPES | length rows) ∧
    row_key <$> rows `prefix_of`
      (setup ← setups;
       frame ← seqZ (frame_start b) (frame_end b + 1 - frame_start b);
       (fun shape => (Some (FStr setup), Some (FInt frame), Some (FStr shape))) <$> SHAPES).
Proof.
  unfold main. intros Hmain.
  apply (for_stmt_outcome row_key (length SHAPES)
    (fun row => length row = length header) setups _
    (fun setup =>
       frame ← seqZ (frame_start b) (frame_end b + 1 - frame_start b);
       (fun shape => (Some (FStr setup), Some (FInt frame), Some (FStr shape))) <$> SHAPES))
    in Hmain as (rows & Hrows & HQ & Hn & Hpre & _).
  - exists rows. by rewrite Hrows.
  - intros setup w1 r1 w2. unfold do_setup. intros Hsetup.
    apply (for_stmt_outcome row_key (length SHAPES)
      (fun row => length row = length header) _ _
      (fun frame =>
         (fun shape => (Some (FStr setup), Some (FInt frame), Some (FStr shape))) <$> SHAPES))
      in Hsetup as (new & Hnew & ?); [by exists new|].
    intros frame w3 r3 w4. apply do_frame_outcome.
Qed.

Lemma header_length : length header = 87.
Proof. reflexivity. Qed.

Lemma header_NoDup : NoDup header.
Proof. apply (bool_decide_unpack _). by vm_compute. Qed.

(** X4. However a run ends - completed or stopped by an exception - the file
    holds the header row followed by whole frames only: every row has the 87
    cells of the header (whose column names are distinct), the number of data
    rows is a multiple of the number of shapes, and the rows are an initial
    segment of the rows in setup, frame, shape order. *)
Theorem every_run_leaves_whole_frames (frame_set : Z → Blend → Blend)
    (path_exists : string → bool) (dataset_root : string) (b : Blend)
    (r : option exn) (w : World) :
  main frame_set path_exists dataset_root b = (r, w) →
  NoDup header ∧
  ∃ rows, csv_rows w = (FStr <$> header) :: rows ∧
    Forall (fun row => length row = 87) ((FStr <$> header) :: rows) ∧
    (length SHAPES | length rows) ∧
    row_key <$> rows `prefix_of`
      (setup ← setups;
       frame ← seqZ (frame_start b) (frame_end b - frame_start b + 1);
       shape ← SHAPES;
       [(Some (FStr setup), Some (FInt frame), Some (FStr shape))]).
Proof.
  intros Hmain. split; [apply header_NoDup|].
  destruct (main_outcome _ _ _ _ _ _ Hmain) as (rows & Hrows & HQ & Hn & Hpre).
  exists rows. split_and!; [done| |done|].
  - constructor; [by rewrite length_fmap|].
    eapply Forall_impl; [exact HQ|]. intros row ->. apply header_length.
  - replace (frame_end b - frame_start b + 1)%Z
      with (frame_end b + 1 - frame_start b)%Z by lia. exact Hpre.
Qed.

(** ** What can stop a run *)

Lemma get_camera_Raise b e :
  get_camera b = Raise e →
  e = AttributeError ∧
  ∃ cam, camera b = Some cam ∧ ((∃ L, data cam = DLight L) ∨ data cam = DMesh).
Proof.
  unfold get_camera. destruct (camera b) as [cam|]; [|done].
  rewrite !safe_float_value, safe_str_value. cbn [mbind result_bind].
  destruct (data cam) as [L|lens| |] eqn:Hdata.
  - intros [= <-]. eauto 10.
  - by rewrite safe_float_value.
  - done.
  - intros [= <-]. eauto 10.
Qed.

Lemma get_active_lights_Raise b e :
  get_active_lights b 3 = Raise e →
  e = ValueError ∧
  ∃ cam, camera b = Some cam ∧ det (to_3x3 (matrix_world cam)) = 0%R ∧
    brightest_lights b 3 ≠ [].
Proof.
  intros Hraise.
  destruct (camera b) as [cam|] eqn:Hcam.
  - destruct (Req_dec_T (det (to_3x3 (matrix_world cam))) 0) as [Hdet|Hdet].
    + destruct (brightest_lights b 3) as [|obj lights] eqn:Hlights.
      * destruct (get_active_lights_no_light b Hlights) as (out & Hout & _). congruence.
      * rewrite (get_active_lights_singular b cam obj) in Hraise
          by (by rewrite ?Hlights).
        injection Hraise as <-. split; [done|]. by exists cam.
    + destruct (get_active_lights_total b) as [out Hout]; [|congruence].
      unfold camera_invertible. by rewrite Hcam.
  - destruct (get_active_lights_total b) as [out Hout]; [|congruence].
    unfold camera_invertible. by rewrite Hcam.
Qed.

Lemma frame_base_Raise b fs setup frame e :
  frame_base b fs setup frame = Raise e →
  ∃ cam, camera b = Some cam ∧
    ((e = AttributeError ∧ ((∃ L, data cam = DLight L) ∨ data cam = DMesh)) ∨
     (e = ValueError ∧ camera_readable b ∧ det (to_3x3 (matrix_world cam)) = 0%R ∧
      brightest_lights b MAX_ACTIVE_LIGHTS ≠ [])).
Proof.
  unfold frame_base, MAX_ACTIVE_LIGHTS. destruct (get_engine_and_batch_value b) as [batch ->].
  cbn [mbind result_bind].
  destruct (get_camera b) as [dc|e1] eqn:Hc; cbn [mbind result_bind].
  - destruct (get_active_lights b 3) as [dl|e2] eqn:Hl; cbn [mbind result_bind]; [done|].
    intros [= <-]. apply get_active_lights_Raise in Hl as (-> & cam & Hcam & Hdet & Hlights).
    exists cam. split; [done|]. right. split_and!; try done.
    unfold camera_readable. rewrite Hcam.
    unfold get_camera in Hc. rewrite Hcam in Hc.
    rewrite !safe_float_value, safe_str_value in Hc. cbn [mbind result_bind] in Hc.
    destruct (data cam); try done; eauto.
  - intros [= <-]. apply get_camera_Raise in Hc as (-> & cam & Hcam & Hdata). eauto.
Qed.

Lemma for_stmt_failure {A : Type} (xs : list A) (body : A → stmt) w e w' :
  for_stmt xs body w = (Some e, w') → ∃ a w0, a ∈ xs ∧ body a w0 = (Some e, w').
Proof.
  revert w. induction xs as [|a xs IH]; intros w; [done|].
  cbn [for_stmt]. unfold seq_stmt. destruct (body a w) as [[e1|] w1] eqn:Ha.
  - intros [= <- <-]. exists a, w. split; [apply list_elem_of_here|done].
  - intros Hrest. destruct (IH w1 Hrest) as (a' & w0 & Hin & Hbody).
    exists a', w0. split; [by apply list_elem_of_further|done].
Qed.

(** X5. A run can only be stopped by the camera: by [AttributeError] when the
    scene camera is an object that carries light or mesh data (it has no
    [lens]), or by [ValueError] when the camera's orientation is singular
    and a light is recorded.  Building and writing the rows of a frame never
    raises: no key is missing, no key is outside the header.  The state the
    run stops in is the frame that raised. *)
Theorem run_stops_only_on_camera (frame_set : Z → Blend → Blend)
    (path_exists : string → bool) (dataset_root : string) (b : Blend)
    (e : exn) (w : World) :
  main frame_set path_exists dataset_root b = (Some e, w) →
  ∃ cam, camera (blend w) = Some cam ∧
    ((e = AttributeError ∧ ((∃ L, data cam = DLight L) ∨ data cam = DMesh)) ∨
     (e = ValueError ∧ camera_readable (blend w) ∧
      det (to_3x3 (matrix_world cam)) = 0%R ∧
      brightest_lights (blend w) MAX_ACTIVE_LIGHTS ≠ [])).
Proof.
  unfold main. intros Hmain.
  apply for_stmt_failure in Hmain as (setup & w1 & _ & Hsetup).
  unfold do_setup in Hsetup.
  apply for_stmt_failure in Hsetup as (frame & w2 & _ & Hframe).
  rewrite do_frame_value in Hframe. cbv zeta in Hframe.
  destruct (frame_base _ _ _ _) as [base|e'] eqn:Hbase; [done|].
  injection Hframe as <- <-. cbn [blend].
  by apply frame_base_Raise in Hbase.
Qed.

(** ** The lamps a run leaves behind *)

Lemma for_stmt_keeps_objects {A : Type} (xs : list A) (body : A → stmt) :
  (∀ a w r w', body a w = (r, w') → objects (blend w') = objects (blend w)) →
  ∀ w r w', for_stmt xs body w = (r, w') → objects (blend w') = objects (blend w).
Proof.
  intros Hbody. induction xs as [|a xs IH]; intros w r w'.
  - by intros [= <- <-].
  - cbn [for_stmt]. unfold seq_stmt. destruct (body a w) as [[e|] w1] eqn:Ha.
    + intros [= <- <-]. by eapply Hbody.
    + intros Hrest. rewrite (IH _ _ _ Hrest). by eapply Hbody.
Qed.

Lemma do_frame_blend frame_set path_exists dataset_root fs setup frame w r w' :
  do_frame frame_set path_exists dataset_root fs setup frame w = (r, w') →
  blend w' = frame_set frame (blend w).
Proof.
  rewrite do_frame_value. cbv zeta. destruct (frame_base _ _ _ _); by intros [= <- <-].
Qed.

Lemma do_setup_objects frame_set path_exists dataset_root fs fe setup w r w' :
  (∀ frame b, objects (frame_set frame b) = objects b) →
  do_setup frame_set path_exists dataset_root fs fe setup w = (r, w') →
  objects (blend w') = set_light_setup setup (objects (blend w)).
Proof.
  intros Hhost. unfold do_setup. intros Hrun.
  apply for_stmt_keeps_objects in Hrun; [by rewrite Hrun|].
  intros frame w1 r1 w2 Hframe. apply do_frame_blend in Hframe. by rewrite Hframe, Hhost.
Qed.

Lemma for_setups_objects frame_set path_exists dataset_root fs fe xs w r w' :
  (∀ frame b, objects (frame_set frame b) = objects b) →
  xs ≠ [] →
  for_stmt xs (do_setup frame_set path_exists dataset_root fs fe) w = (r, w') →
  ∃ setup, setup ∈ xs ∧
    objects (blend w') = set_light_setup setup (objects (blend w)) ∧
    (r = None → last xs = Some setup).
Proof.
  intros Hhost. revert w. induction xs as [|a xs IH]; intros w Hne; [done|].
  cbn [for_stmt]. unfold seq_stmt.
  destruct (do_setup _ _ _ _ _ a w) as [[e|] w1] eqn:Ha.
  - intros [= <- <-]. exists a. split_and!; [apply list_elem_of_here| |done].
    by eapply do_setup_objects.
  - apply do_setup_objects in Ha; [|done].
    destruct xs as [|a' xs'].
    + intros [= <- <-]. exists a. split_and!; [apply list_elem_of_here|done|done].
    + intros Hrest. destruct (IH w1) as (setup & Hin & Hobjs & Hlast); [done|exact Hrest|].
      exists setup. split_and!; [by apply list_elem_of_further| |].
      * rewrite Hobjs, Ha. apply set_light_setup_after.
      * intros Hr. rewrite last_cons. by rewrite (Hlast Hr).
Qed.

(** X6. On a host whose [frame_set] leaves the objects as they are, a run
    leaves the scene's lamps as the setup it reached put them, whatever they
    were before; after a completed run that is the last setup,
    ["HDRI (Overcast)"]: every known lamp is left hidden from renders. *)
Theorem run_leaves_lamps_of_last_setup (frame_set : Z → Blend → Blend)
    (path_exists : string → bool) (dataset_root : string) (b : Blend)
    (r : option exn) (w : World) :
  (∀ frame b', objects (frame_set frame b') = objects b') →
  main frame_set path_exists dataset_root b = (r, w) →
  (∃ setup, setup ∈ setups ∧ objects (blend w) = set_light_setup setup (objects b)) ∧
  (r = None →
     objects (blend w) = set_light_setup "HDRI (Overcast)" (objects b) ∧
     ∀ nm i obj, nm ∈ ALL_LIGHT_NAMES →
       objects_get nm (objects (blend w)) = Some (i, obj) → hide_render obj = true).
Proof.
  intros Hhost Hmain. unfold main in Hmain.
  apply for_setups_objects in Hmain as (setup & Hin & Hobjs & Hlast); [|done..].
  cbn [blend objects] in Hobjs. split; [by exists setup|].
  intros Hr. specialize (Hlast Hr). injection Hlast as <-. split; [done|].
  rewrite Hobjs. intros nm i obj Hnm. rewrite set_light_setup_get.
  rewrite bool_decide_eq_true_2 by done.
  destruct (objects_get nm (objects b)) as [[j obj']|]; simpl; [|done].
  by intros [= _ <-].
Qed.

(** X7. With an empty frame range ([frame_end] below [frame_start]) no frame
    is visited: the run completes on any host and any scene, writes the
    header row only, and leaves the scene with its known lamps hidden. *)
Theorem empty_frame_range (frame_set : Z → Blend → Blend)
    (path_exists : string → bool) (dataset_root : string) (b : Blend) :
  (frame_end b < frame_start b)%Z →
  main frame_set path_exists dataset_root b =
    (None, mkWorld (with_setup "HDRI (Overcast)" b) [FStr <$> header]).
Proof.
  intros Hrange. unfold main, setups, do_setup. cbn [for_stmt]. unfold seq_stmt.
  rewrite seqZ_nil by lia. cbn [for_stmt blend csv_rows objects camera frame_start
    frame_end render_engine view_transform look].
  unfold with_setup, writeheader. cbn [app].
  by rewrite !set_light_setup_after.
Qed.

(** ** The cells of a frame's rows *)

Lemma get_engine_and_batch_eq b :
  get_engine_and_batch b =
  Ok (<["batch_folder" := FStr (batch_folder b)]>
      (<["look" := FStr (look b)]>
      (<["view_transform" := FStr (view_transform b)]>
      (<["render_engine" := FStr (render_engine b)]> ∅)))).
Proof. reflexivity. Qed.

Lemma frame_base_Ok b fs setup frame base :
  frame_base b fs setup frame = Ok base →
  ∃ dc dl, get_camera b = Ok dc ∧ get_active_lights b 3 = Ok dl ∧
    base = dict_update (dict_update (dict_update
      (<["camera_png" := FInt (camera_png fs frame)]>
      (<["config_id" := FInt (config_id fs frame)]>
      (<["frame" := FInt frame]>
      (<["light_folder" := FStr setup]>
      (<["material_folder" := FStr MATERIAL_FOLDER]> ∅)))))
      (<["batch_folder" := FStr (batch_folder b)]>
      (<["look" := FStr (look b)]>
      (<["view_transform" := FStr (view_transform b)]>
      (<["render_engine" := FStr (render_engine b)]> ∅))))) dc) dl.
Proof.
  unfold frame_base, MAX_ACTIVE_LIGHTS. rewrite get_engine_and_batch_eq.
  cbn [mbind result_bind].
  destruct (get_camera b) as [dc|]; [|done]. cbn [mbind result_bind].
  destruct (get_active_lights b 3) as [dl|]; [|done].
  cbn [mbind result_bind mret result_ret]. intros [= <-]. by exists dc, dl.
Qed.

Lemma frame_base_batch b fs setup frame base :
  frame_base b fs setup frame = Ok base →
  base !! "batch_folder" = Some (FStr (batch_folder b)).
Proof.
  intros Hbase. destruct (frame_base_Ok _ _ _ _ _ Hbase) as (dc & dl & Hc & Hl & ->).
  apply get_camera_dom in Hc. apply get_active_lights_dom in Hl.
  rewrite (lookup_update_outside dl _ light_keys),
    (lookup_update_outside dc _ camera_keys);
    [|done|apply (bool_decide_unpack _); by vm_compute
     |done|apply (bool_decide_unpack _); by vm_compute].
  unfold dict_update. by simplify_map_eq.
Qed.

(** A cell outside the three keys of the shape is the frame's. *)
Lemma shape_cells_frame_col path_exists dataset_root fs setup frame base shape k :
  good_base fs setup frame base → k ∈ header → k ∉ row_keys →
  csv_col k (shape_cells path_exists dataset_root setup (camera_png fs frame) base shape)
  = Some (default (FStr "") (base !! k)).
Proof.
  intros [_ [batch Hbatch] _ _ _ _] Hk Hrow. unfold shape_cells.
  rewrite (shape_row_value _ _ _ _ _ _ batch) by done.
  rewrite csv_col_written by done. unfold row_keys in Hrow.
  rewrite !elem_of_cons, elem_of_nil in Hrow.
  rewrite !lookup_insert_ne by (intros <-; tauto). done.
Qed.

Lemma csv_col_outside k r : k ∉ header → csv_col k r = None.
Proof.
  intros Hk. unfold csv_col.
  destruct (list_find (fun k' => k' = k) header) as [[i k']|] eqn:Hfind; [|done].
  apply list_find_Some in Hfind as (Hi & -> & _).
  destruct Hk. by eapply list_elem_of_lookup_2.
Qed.

(** X8. The rows of one frame differ in the three cells of the shape only
    ([shape_name], [image_relpath], [image_exists]): every other column holds
    the same value in all of them, the frame's data being computed once. *)
Theorem frame_rows_share_frame_data (frame_set : Z → Blend → Blend)
    (path_exists : string → bool) (dataset_root : string) (fs : Z) (setup : string)
    (frame : Z) (w w' : World) :
  do_frame frame_set path_exists dataset_root fs setup frame w = (None, w') →
  ∃ new, csv_rows w' = csv_rows w ++ new ∧ length new = length SHAPES ∧
    ∀ r1 r2 k, r1 ∈ new → r2 ∈ new →
      k ∉ ["shape_name"; "image_relpath"; "image_exists"] →
      csv_col k r1 = csv_col k r2.
Proof.
  rewrite do_frame_value. cbv zeta.
  destruct (frame_base _ _ _ _) as [base|] eqn:Hbase; [|done].
  intros [= <-]. apply frame_base_good in Hbase.
  exists (shape_cells path_exists dataset_root setup (camera_png fs frame) base <$> SHAPES).
  split_and!; [done|by rewrite length_fmap|].
  intros r1 r2 k Hr1 Hr2 Hk.
  apply list_elem_of_fmap in Hr1 as (shape1 & -> & _).
  apply list_elem_of_fmap in Hr2 as (shape2 & -> & _).
  destruct (decide (k ∈ header)) as [Hin|Hout].
  - rewrite !(shape_cells_frame_col _ _ fs setup frame); try done;
      unfold row_keys; rewrite !elem_of_cons, elem_of_nil in *; tauto.
  - by rewrite !csv_col_outside.
Qed.

(** ** A frame without a camera *)

Lemma camera_keys_apart :
  Forall (fun k => k ∈ header ∧ (k ∉ row_keys) ∧ (k ∉ light_keys) ∧ (k ∉ engine_keys) ∧
                   (k ∉ base_keys)) camera_keys.
Proof. apply (bool_decide_unpack _). by vm_compute. Qed.

Lemma light_keys_apart : Forall (fun k => k ∈ header ∧ (k ∉ row_keys)) light_keys.
Proof. apply (bool_decide_unpack _). by vm_compute. Qed.

Lemma slot_key_light i k : i < 3 → k ∈ slot_attrs → slot_prefix i +:+ k ∈ light_keys.
Proof.
  intros Hi Hk. unfold light_keys. rewrite elem_of_cons, !elem_of_app. right.
  destruct i as [|[|[|i]]]; [| | |lia].
  - left. apply list_elem_of_fmap. by exists k.
  - right. left. apply list_elem_of_fmap. by exists k.
  - right. right. apply list_elem_of_fmap. by exists k.
Qed.

(** A light cell of a row is the cell [get_active_lights] returned. *)
Lemma shape_cells_light_col path_exists dataset_root b fs setup frame base dl shape k v :
  frame_base b fs setup frame = Ok base → get_active_lights b 3 = Ok dl →
  k ∈ light_keys → dl !! k = Some v →
  csv_col k (shape_cells path_exists dataset_root setup (camera_png fs frame) base shape)
  = Some v.
Proof.
  intros Hbase Hl Hk Hv.
  pose proof light_keys_apart as Hapart. rewrite Forall_forall in Hapart.
  destruct (Hapart k Hk) as [Hheader Hrow].
  rewrite (shape_cells_frame_col _ _ fs setup frame) by (by try eapply frame_base_good).
  destruct (frame_base_Ok _ _ _ _ _ Hbase) as (dc & dl' & _ & Hl' & ->).
  assert (dl' = dl) as -> by congruence.
  unfold dict_update at 1. by rewrite (lookup_union_Some_l _ _ _ _ Hv).
Qed.

(** X9. A frame without a camera is exported all the same: it writes its
    rows, every camera column of them is the empty string, and the
    camera-relative direction of every recorded light is (0, 0, 0). *)
Theorem frame_without_camera (frame_set : Z → Blend → Blend)
    (path_exists : string → bool) (dataset_root : string) (fs : Z) (setup : string)
    (frame : Z) (w : World) :
  camera (frame_set frame (blend w)) = None →
  ∃ w' new,
    do_frame frame_set path_exists dataset_root fs setup frame w = (None, w') ∧
    csv_rows w' = csv_rows w ++ new ∧ length new = length SHAPES ∧
    ∀ r, r ∈ new →
      (∀ k, k ∈ ["camera_name"; "cam_pos_x"; "cam_pos_y"; "cam_pos_z";
                 "cam_forward_x"; "cam_forward_y"; "cam_forward_z";
                 "cam_up_x"; "cam_up_y"; "cam_up_z";
                 "cam_right_x"; "cam_right_y"; "cam_right_z"; "focal_length_mm"] →
         csv_col k r = Some (FStr "")) ∧
      (∀ i, i < length (brightest_lights (frame_set frame (blend w)) MAX_ACTIVE_LIGHTS) →
         csv_col (slot_prefix i +:+ "dir_cam_x") r = Some (FFloat 0) ∧
         csv_col (slot_prefix i +:+ "dir_cam_y") r = Some (FFloat 0) ∧
         csv_col (slot_prefix i +:+ "dir_cam_z") r = Some (FFloat 0)).
Proof.
  intros Hcam. set (b := frame_set frame (blend w)) in *. unfold MAX_ACTIVE_LIGHTS.
  destruct (frame_base_total b fs setup frame) as [base Hbase].
  { unfold camera_readable. by rewrite Hcam. }
  { unfold camera_invertible. by rewrite Hcam. }
  rewrite do_frame_value. cbv zeta. fold b. rewrite Hbase.
  eexists _, (shape_cells path_exists dataset_root setup (camera_png fs frame) base <$> SHAPES).
  split_and!; [done|done|by rewrite length_fmap|].
  intros r Hr. apply list_elem_of_fmap in Hr as (shape & -> & _).
  pose proof (frame_base_good _ _ _ _ _ Hbase) as Hgood.
  destruct (frame_base_Ok _ _ _ _ _ Hbase) as (dc & dl & Hc & Hl & Heq).
  split.
  - intros k Hk.
    assert (k ∈ camera_keys) as Hk'.
    { unfold camera_keys. rewrite !elem_of_cons, elem_of_nil in *. tauto. }
    pose proof camera_keys_apart as Hapart. rewrite Forall_forall in Hapart.
    destruct (Hapart k Hk') as (Hheader & Hrow & Hlight & Hengine & Hbase_k).
    rewrite (shape_cells_frame_col _ _ fs setup frame) by done.
    assert (dc = ∅) as ->.
    { unfold get_camera in Hc. rewrite Hcam in Hc. by injection Hc as <-. }
    rewrite Heq. apply get_active_lights_dom in Hl.
    rewrite (lookup_update_outside dl _ light_keys) by done.
    unfold dict_update. rewrite (left_id_L ∅ (∪)).
    match goal with
    | |- Some (default _ ((?de ∪ ?base0) !! k)) = _ =>
        assert ((de ∪ base0) !! k = None) as ->; [|done]
    end.
    apply lookup_union_None.
    unfold engine_keys in Hengine. unfold base_keys in Hbase_k.
    rewrite !elem_of_cons in Hengine. rewrite !elem_of_cons in Hbase_k.
    split; rewrite !lookup_insert_ne by (intros <-; tauto); apply lookup_empty.
  - intros i Hi.
    assert (i < 3) as Hi3 by (rewrite brightest_lights_length in Hi; lia).
    destruct (lookup_lt_is_Some_2 _ _ Hi) as [obj Hobj].
    destruct (get_active_lights_slot b dl i obj Hl Hobj) as (L & dir_cam & _ & Hdir & Hcells).
    rewrite Hcam in Hdir. injection Hdir as <-.
    split_and!.
    + apply (shape_cells_light_col _ _ b _ _ _ _ dl); try done.
      * apply slot_key_light; [done|]. apply (bool_decide_unpack _). by vm_compute.
      * by rewrite (Hcells 12 "dir_cam_x").
    + apply (shape_cells_light_col _ _ b _ _ _ _ dl); try done.
      * apply slot_key_light; [done|]. apply (bool_decide_unpack _). by vm_compute.
      * by rewrite (Hcells 13 "dir_cam_y").
    + apply (shape_cells_light_col _ _ b _ _ _ _ dl); try done.
      * apply slot_key_light; [done|]. apply (bool_decide_unpack _). by vm_compute.
      * by rewrite (Hcells 14 "dir_cam_z").
Qed.

(** ** The image path and the batch folder *)

Lemma engine_tag_cases s : engine_tag s ∈ ["Cycles"; "Eevee"; "UnknownEngine"].
Proof.
  unfold engine_tag. repeat case_match; rewrite !elem_of_cons; tauto.
Qed.

Lemma view_tag_cases s : view_tag s ∈ ["AGX"; "Filmic"; "UnknownView"].
Proof.
  unfold view_tag. repeat case_match; rewrite !elem_of_cons; tauto.
Qed.

Lemma image_relpath_format_all :
  Forall (fun setup => Forall (fun shape => Forall (fun e => Forall (fun v =>
    Forall (fun k =>
      image_relpath setup k ("Batch 1 - " +:+ e +:+ " " +:+ v) shape =
      shape +:+ "/" +:+ MATERIAL_FOLDER +:+ "/" +:+ setup +:+ "/" +:+
        ("Batch 1 - " +:+ e +:+ " " +:+ v) +:+ "/" +:+ pretty k +:+ ".png")
      (seqZ 1 17))
    ["AGX"; "Filmic"; "UnknownView"]) ["Cycles"; "Eevee"; "UnknownEngine"]) SHAPES) setups.
Proof. apply (bool_decide_unpack _). by vm_compute. Qed.

Lemma image_relpath_format b setup shape fs frame :
  setup ∈ setups → shape ∈ SHAPES →
  image_relpath setup (camera_png fs frame) (batch_folder b) shape =
  shape +:+ "/" +:+ MATERIAL_FOLDER +:+ "/" +:+ setup +:+ "/" +:+ batch_folder b +:+ "/" +:+
    pretty (camera_png fs frame) +:+ ".png".
Proof.
  intros Hsetup Hshape. pose proof image_relpath_format_all as H.
  rewrite Forall_forall in H. specialize (H setup Hsetup).
  rewrite Forall_forall in H. specialize (H shape Hshape).
  rewrite Forall_forall in H. specialize (H _ (engine_tag_cases (render_engine b))).
  rewrite Forall_forall in H. specialize (H _ (view_tag_cases (view_transform b))).
  rewrite Forall_forall in H. apply H.
  apply elem_of_seqZ. unfold camera_png, CAMERAS_PER_CONFIG.
  pose proof (Z.mod_pos_bound (frame - fs) 17). lia.
Qed.

(** X10. The [image_relpath] cell of a row is [os.path.join] of five
    components, in this order: the shape, the material folder, the setup, the
    batch folder of the frame and [<camera index>.png].  On a POSIX host,
    where [os.path.join] is the [posixpath.join] that [path_join] embeds,
    that is, for the setups and shapes of the script, the five components
    separated by single slashes: none of them is taken as an absolute path.
    (On a Windows host [os.path.join] is [ntpath.join], which joins with
    backslashes and is not embedded here.) *)
Theorem image_path_layout (frame_set : Z → Blend → Blend)
    (path_exists : string → bool) (dataset_root : string) (fs : Z) (setup : string)
    (frame : Z) (w w' : World) :
  setup ∈ setups →
  do_frame frame_set path_exists dataset_root fs setup frame w = (None, w') →
  ∃ new, csv_rows w' = csv_rows w ++ new ∧
    ∀ i shape, SHAPES !! i = Some shape →
      ∃ r, new !! i = Some r ∧
        csv_col "shape_name" r = Some (FStr shape) ∧
        csv_col "image_relpath" r =
          Some (FStr (path_join shape
                        [MATERIAL_FOLDER; setup; batch_folder (frame_set frame (blend w));
                         pretty (camera_png fs frame) +:+ ".png"])) ∧
        path_join shape
          [MATERIAL_FOLDER; setup; batch_folder (frame_set frame (blend w));
           pretty (camera_png fs frame) +:+ ".png"] =
        shape +:+ "/" +:+ MATERIAL_FOLDER +:+ "/" +:+ setup +:+ "/" +:+
          batch_folder (frame_set frame (blend w)) +:+ "/" +:+
          pretty (camera_png fs frame) +:+ ".png".
Proof.
  intros Hsetup. rewrite do_frame_value. cbv zeta.
  destruct (frame_base _ _ _ _) as [base|] eqn:Hbase; [|done].
  intros [= <-]. pose proof (frame_base_batch _ _ _ _ _ Hbase) as Hbatch.
  apply frame_base_good in Hbase.
  exists (shape_cells path_exists dataset_root setup (camera_png fs frame) base <$> SHAPES).
  split; [done|]. intros i shape Hi.
  eexists. split; [by rewrite list_lookup_fmap, Hi|].
  destruct (shape_cells_cols path_exists dataset_root fs setup frame base shape Hbase)
    as (_ & _ & Hshape & _ & _ & batch & Hbatch' & Hrel & _). cbv zeta in Hrel.
  assert (batch = batch_folder (frame_set frame (blend w))) as -> by congruence.
  split; [done|]. split; [by rewrite Hrel|].
  apply (image_relpath_format _ setup shape fs frame); [done|].
  by eapply list_elem_of_lookup_2.
Qed.

Lemma lower_app s t : lower (s +:+ t) = lower s +:+ lower t.
Proof. induction s as [|c s IH]; simpl; [done|]. by rewrite IH. Qed.

Lemma prefix_app_self p s : String.prefix p (p +:+ s) = true.
Proof.
  induction p as [|c p IH]; simpl; [by destruct s|].
  by destruct (ascii_dec c c).
Qed.

Lemma contains_prefix p s : String.prefix p s = true → contains p s = true.
Proof. intros H. destruct s; cbn [contains]; by rewrite H. Qed.

Lemma contains_cons p c s :
  contains p (String c s) = String.prefix p (String c s) || contains p s.
Proof. reflexivity. Qed.

Lemma contains_app p s t : contains p (s +:+ p +:+ t) = true.
Proof.
  induction s as [|c s IH].
  - change (contains p (p +:+ t) = true). apply contains_prefix, prefix_app_self.
  - change (contains p (String c (s +:+ p +:+ t)) = true).
    rewrite contains_cons, IH. apply orb_true_r.
Qed.

Lemma lower_ascii_idemp c : lower_ascii (lower_ascii c) = lower_ascii c.
Proof. destruct c as [[] [] [] [] [] [] [] []]; by vm_compute. Qed.

Lemma lower_idemp s : lower (lower s) = lower s.
Proof. induction s as [|c s IH]; simpl; [done|]. by rewrite lower_ascii_idemp, IH. Qed.

(** X11. [get_engine_and_batch] never raises and passes the identifiers on
    unchanged; the batch folder is ["Batch 1 - <engine> <view>"] with one of
    three engine tags and one of three view tags.  The tags do not depend on
    letter case; an engine identifier that contains [cycles] in any case is
    [Cycles], also when it contains [eevee] too, and a view identifier that
    contains [agx] in any case is [AGX], also when it contains [filmic]. *)
Theorem batch_folder_classification (b : Blend) :
  get_engine_and_batch b =
    Ok (<["batch_folder" :=
            FStr ("Batch 1 - " +:+ engine_tag (render_engine b) +:+ " " +:+
                  view_tag (view_transform b))]>
        (<["look" := FStr (look b)]>
        (<["view_transform" := FStr (view_transform b)]>
        (<["render_engine" := FStr (render_engine b)]> ∅)))) ∧
  engine_tag (render_engine b) ∈ ["Cycles"; "Eevee"; "UnknownEngine"] ∧
  view_tag (view_transform b) ∈ ["AGX"; "Filmic"; "UnknownView"] ∧
  engine_tag (lower (render_engine b)) = engine_tag (render_engine b) ∧
  view_tag (lower (view_transform b)) = view_tag (view_transform b) ∧
  (∀ before word after,
     render_engine b = before +:+ word +:+ after → lower word = "cycles" →
     engine_tag (render_engine b) = "Cycles") ∧
  (∀ before word after,
     view_transform b = before +:+ word +:+ after → lower word = "agx" →
     view_tag (view_transform b) = "AGX").
Proof.
  split_and!.
  - reflexivity.
  - apply engine_tag_cases.
  - apply view_tag_cases.
  - unfold engine_tag. by rewrite lower_idemp.
  - unfold view_tag. by rewrite lower_idemp.
  - intros before word after -> Hword. unfold engine_tag.
    by rewrite !lower_app, Hword, contains_app.
  - intros before word after -> Hword. unfold view_tag.
    by rewrite !lower_app, Hword, contains_app.
Qed.

(** ** More on the recorded lights *)

Lemma light_keys_NoDup : NoDup light_keys.
Proof. apply (bool_decide_unpack _). by vm_compute. Qed.

Lemma get_active_lights_has_key b out k :
  get_active_lights b 3 = Ok out → k ∈ light_keys → is_Some (out !! k).
Proof.
  intros Hout Hk. unfold light_keys in Hk. rewrite elem_of_cons, !elem_of_app in Hk.
  destruct Hk as [->|Hk].
  { rewrite (get_active_lights_count _ _ Hout). by eexists. }
  pose proof Hout as Hcells.
  apply get_active_lights_cells in Hcells
    as (vs0 & vs1 & vs2 & _ & Hl0 & _ & Hl1 & _ & Hl2 & ->).
  assert (∃ i a n, i < 3 ∧ slot_attrs !! n = Some a ∧ k = slot_prefix i +:+ a)
    as (i & a & n & Hi & Hn & ->).
  { destruct Hk as [Hk|[Hk|Hk]]; apply list_elem_of_fmap in Hk as (a & -> & Ha);
      apply list_elem_of_lookup in Ha as [n Hn];
      [exists 0, a, n|exists 1, a, n|exists 2, a, n]; split_and!; try done; lia. }
  rewrite (slots_lookup _ _ _ _ i n a) by done.
  pose proof (lookup_lt_Some _ _ _ Hn) as Hlt. change (length slot_attrs) with 20 in Hlt.
  destruct i as [|[|[|i]]]; [| | |lia]; simpl; apply lookup_lt_is_Some_2; lia.
Qed.

(** X12. The dictionary [get_active_lights] returns has the same 61 keys for
    every scene: [num_active_lights] and the twenty attributes of each of the
    three slots, whatever the number of lights. *)
Theorem light_columns_fixed (b : Blend) (out : gmap string field) :
  get_active_lights b MAX_ACTIVE_LIGHTS = Ok out →
  dom out = list_to_set
    ("num_active_lights" ::
       i ← seq 0 MAX_ACTIVE_LIGHTS; (fun k => slot_prefix i +:+ k) <$> slot_attrs) ∧
  size (dom out) = 61.
Proof.
  unfold MAX_ACTIVE_LIGHTS. intros Hout.
  assert (dom out = list_to_set light_keys) as Hdom.
  { apply set_eq. intros k. split.
    - apply (get_active_lights_dom b out Hout).
    - rewrite elem_of_list_to_set. intros Hk. apply elem_of_dom.
      by apply (get_active_lights_has_key b). }
  split.
  - rewrite Hdom. reflexivity.
  - rewrite Hdom, size_list_to_set by apply light_keys_NoDup. reflexivity.
Qed.

(** X13. The first slot holds a brightest light: no active light of the scene
    has more energy than the energy cell of slot 0. *)
Theorem first_slot_is_brightest (b : Blend) (out : gmap string field) (obj : Object) :
  get_active_lights b MAX_ACTIVE_LIGHTS = Ok out →
  obj ∈ objects b → is_active obj →
  ∃ e0, out !! (slot_prefix 0 +:+ "energy") = Some (FFloat e0) ∧ (energy_of obj <= e0)%R.
Proof.
  unfold MAX_ACTIVE_LIGHTS. intros Hout Hin Hact.
  set (ranked := list_sort energy_of true (filter is_active (objects b))).
  assert (obj ∈ ranked) as Hranked.
  { unfold ranked. rewrite list_sort_perm. by apply list_elem_of_filter. }
  apply list_elem_of_lookup in Hranked as [j Hj].
  destruct (ranked !! 0) as [o0|] eqn:H0;
    [|apply lookup_ge_None in H0; apply lookup_lt_Some in Hj; lia].
  assert (brightest_lights b 3 !! 0 = Some o0) as Hfirst.
  { rewrite brightest_lights_eq. fold ranked. rewrite lookup_take_Some. split; [done|lia]. }
  destruct (get_active_lights_slot b out 0 o0 Hout Hfirst) as (L0 & d0 & HL0 & _ & Hcells).
  exists (energy L0). split; [by rewrite (Hcells 2 "energy")|].
  assert (energy_of o0 = energy L0) as <- by (unfold energy_of; by rewrite HL0).
  destruct j as [|j].
  - assert (o0 = obj) as -> by congruence. lra.
  - apply (list_sort_descending energy_of (filter is_active (objects b)) 0 (S j)); [done..|lia].
Qed.

(** X14. Only the camera and the active lights count: two scenes with the
    same camera and the same active lights, in the same order, give the same
    result - hidden lamps, lamps without energy and objects that are not
    lights never show in it, nor do the render settings or the frame range. *)
Theorem inactive_objects_are_ignored (b1 b2 : Blend) (max_n : nat) :
  camera b1 = camera b2 →
  filter is_active (objects b1) = filter is_active (objects b2) →
  brightest_lights b1 max_n = brightest_lights b2 max_n ∧
  get_active_lights b1 max_n = get_active_lights b2 max_n.
Proof.
  intros Hcam Hactive.
  assert (brightest_lights b1 max_n = brightest_lights b2 max_n) as Hlights
    by (by rewrite !brightest_lights_eq, Hactive).
  split; [done|]. unfold get_active_lights. by rewrite Hcam, Hlights.
Qed.

(** ** Directions *)

Section directions.
Local Open Scope R_scope.

Lemma dot_pos v : v ≠ mkVector 0 0 0 → 0 < dot v v.
Proof.
  intros Hv. destruct (Rle_lt_dec (dot v v) 0) as [Hle|]; [|done].
  destruct Hv. apply dot_zero_inv. destruct v as [a b c]. unfold dot in *. simpl in *. nra.
Qed.

Lemma normalized_nonzero v :
  v ≠ mkVector 0 0 0 →
  normalized v = mkVector (x v / sqrt (dot v v)) (y v / sqrt (dot v v)) (z v / sqrt (dot v v)).
Proof.
  intros Hv. unfold normalized. destruct (Req_dec_T (dot v v) 0) as [H0|]; [|done].
  by apply dot_zero_inv in H0.
Qed.

(** Normalizing forgets a positive scale. *)
Lemma normalized_scale k v :
  0 < k → normalized (mkVector (k * x v) (k * y v) (k * z v)) = normalized v.
Proof.
  intros Hk. destruct (Req_dec_T (dot v v) 0) as [H0|Hv0].
  { apply dot_zero_inv in H0 as ->. simpl. by rewrite !Rmult_0_r. }
  assert (v ≠ mkVector 0 0 0) as Hv.
  { intros ->. apply Hv0. unfold dot. simpl. ring. }
  pose proof (dot_pos v Hv) as Hd.
  assert (dot (mkVector (k * x v) (k * y v) (k * z v)) (mkVector (k * x v) (k * y v) (k * z v))
          = (k * k) * dot v v) as Hdot by (unfold dot; simpl; ring).
  rewrite (normalized_nonzero v Hv), normalized_nonzero.
  - rewrite Hdot. simpl. rewrite sqrt_mult, sqrt_square by nra.
    pose proof (sqrt_lt_R0 _ Hd). f_equal; field; lra.
  - intros [= H1 H2 H3]. apply Hv. destruct v as [a b c]. simpl in *.
    f_equal; nra.
Qed.

Lemma normalized_orthogonal u v : dot u v = 0 → dot (normalized u) (normalized v) = 0.
Proof.
  intros Huv. unfold normalized.
  destruct (Req_dec_T (dot u u) 0) as [|Hu]; [unfold dot; simpl; ring|].
  destruct (Req_dec_T (dot v v) 0) as [|Hv]; [unfold dot; simpl; ring|].
  assert (0 < sqrt (dot u u)) as Hsu.
  { apply sqrt_lt_R0. destruct u as [a b c]. unfold dot in *. simpl in *. nra. }
  assert (0 < sqrt (dot v v)) as Hsv.
  { apply sqrt_lt_R0. destruct v as [a b c]. unfold dot in *. simpl in *. nra. }
  unfold dot at 1. simpl.
  set (su := sqrt (dot u u)) in *. set (sv := sqrt (dot v v)) in *.
  replace (x u / su * (x v / sv) + y u / su * (y v / sv) + z u / su * (z v / sv))
    with (dot u v / (su * sv)) by (unfold dot; field; split; lra).
  rewrite Huv. field. split; lra.
Qed.

Lemma invertible_matvec_nonzero m v :
  det m ≠ 0 → v ≠ mkVector 0 0 0 → matvec m v ≠ mkVector 0 0 0.
Proof.
  intros Hdet Hv H0.
  destruct (inverted m) as [inv|] eqn:Hinv.
  - apply inverted_Ok in Hinv as [_ Hinv]. destruct (Hinv v) as [Hv' _].
    rewrite H0, matvec_zero in Hv'. by apply Hv.
  - apply inverted_Raise in Hinv as [? _]. done.
Qed.

Lemma matvec_scale m k v :
  matvec m (mkVector (k * x v) (k * y v) (k * z v)) =
  mkVector (k * x (matvec m v)) (k * y (matvec m v)) (k * z (matvec m v)).
Proof. unfold matvec. simpl. f_equal; ring. Qed.

Lemma normalized_forward : normalized (mkVector 0 0 (-1)) = mkVector 0 0 (-1).
Proof.
  rewrite normalized_nonzero by (intros [= ?]; lra).
  unfold dot. simpl.
  replace (0 * 0 + 0 * 0 + -1 * -1) with 1 by ring. rewrite sqrt_1. f_equal; field.
Qed.

(** The camera-relative direction of a light that looks the way the camera
    looks. *)
Lemma aligned_direction m inv :
  inverted m = Ok inv →
  normalized (matvec inv (normalized (matvec m (mkVector 0 0 (-1))))) = mkVector 0 0 (-1).
Proof.
  intros Hinv. pose proof (inverted_Ok _ _ Hinv) as [Hdet Hinverse].
  set (e := mkVector 0 0 (-1)).
  assert (matvec m e ≠ mkVector 0 0 0) as Hme.
  { apply invertible_matvec_nonzero; [done|]. intros [= ?]. lra. }
  pose proof (sqrt_lt_R0 _ (dot_pos _ Hme)) as Hs.
  rewrite (normalized_nonzero _ Hme).
  set (s := sqrt (dot (matvec m e) (matvec m e))) in *.
  replace (mkVector (x (matvec m e) / s) (y (matvec m e) / s) (z (matvec m e) / s))
    with (mkVector (/ s * x (matvec m e)) (/ s * y (matvec m e)) (/ s * z (matvec m e)))
    by (f_equal; field; lra).
  rewrite matvec_scale. destruct (Hinverse e) as [-> _].
  rewrite normalized_scale by (by apply Rinv_0_lt_compat).
  apply normalized_forward.
Qed.
End directions.

(** X15. A recorded light whose orientation is the camera's (an invertible
    one) points, in camera space, straight down the camera's view axis: its
    camera-relative direction is exactly (0, 0, -1). *)
Theorem aligned_light_looks_forward (b : Blend) (out : gmap string field) (i : nat)
    (obj cam : Object) :
  get_active_lights b MAX_ACTIVE_LIGHTS = Ok out →
  camera b = Some cam →
  brightest_lights b MAX_ACTIVE_LIGHTS !! i = Some obj →
  to_3x3 (matrix_world obj) = to_3x3 (matrix_world cam) →
  out !! (slot_prefix i +:+ "dir_cam_x") = Some (FFloat 0) ∧
  out !! (slot_prefix i +:+ "dir_cam_y") = Some (FFloat 0) ∧
  out !! (slot_prefix i +:+ "dir_cam_z") = Some (FFloat (-1)).
Proof.
  unfold MAX_ACTIVE_LIGHTS. intros Hout Hcam Hobj Hrot.
  destruct (get_active_lights_slot b out i obj Hout Hobj) as (L & dir_cam & _ & Hdir & Hcells).
  rewrite Hcam in Hdir. cbn [fmap option_fmap option_map light_dir_cam] in Hdir.
  destruct (inverted (to_3x3 (matrix_world cam))) as [inv|] eqn:Hinv; [|done].
  cbn [mbind result_bind mret result_ret] in Hdir. injection Hdir as <-.
  rewrite (Hcells 12 "dir_cam_x"), (Hcells 13 "dir_cam_y"), (Hcells 14 "dir_cam_z") by done.
  unfold light_cells. cbn [lookup list_lookup].
  unfold obj_forward_world. rewrite Hrot, (aligned_direction _ _ Hinv). done.
Qed.

(** X16. The world-space forward direction of an object is its local -Z axis
    in world space, scaled to length one: a unit vector opposite to the third
    column of the orientation matrix, and the zero vector only when that
    column is zero. *)
Theorem forward_direction_unit (obj : Object) :
  let m := to_3x3 (matrix_world obj) in
  let column := mkVector (m02 m) (m12 m) (m22 m) in
  (column = mkVector 0 0 0 → obj_forward_world obj = mkVector 0 0 0) ∧
  (column ≠ mkVector 0 0 0 →
     dot (obj_forward_world obj) (obj_forward_world obj) = 1%R ∧
     ∃ k, (0 < k)%R ∧
       obj_forward_world obj =
         mkVector (- (k * m02 m)) (- (k * m12 m)) (- (k * m22 m))).
Proof.
  cbv zeta. unfold obj_forward_world. set (m := to_3x3 (matrix_world obj)).
  assert (matvec m (mkVector 0 0 (-1)) = mkVector (- m02 m) (- m12 m) (- m22 m)) as ->.
  { unfold matvec. simpl. f_equal; ring. }
  split.
  - intros [= -> -> ->]. rewrite Ropp_0. apply normalized_zero.
  - intros Hcol.
    assert (mkVector (- m02 m) (- m12 m) (- m22 m) ≠ mkVector 0 0 0) as Hneg.
    { intros [= H1 H2 H3]. apply Hcol. f_equal; lra. }
    split; [by apply normalized_unit|].
    pose proof (sqrt_lt_R0 _ (dot_pos _ Hneg)) as Hs.
    exists (/ sqrt (dot (mkVector (- m02 m) (- m12 m) (- m22 m))
                        (mkVector (- m02 m) (- m12 m) (- m22 m))))%R.
    split; [by apply Rinv_0_lt_compat|].
    rewrite (normalized_nonzero _ Hneg). simpl. f_equal; field; lra.
Qed.

(** X17. With a camera, [get_camera] writes its position and three direction
    vectors, forward (local -Z), up (local Y) and right (local X) in world
    space: each has length one when the orientation is invertible, and they
    are pairwise orthogonal when the orientation maps the axes to orthogonal
    vectors.  It raises only for a camera object that carries light or mesh
    data. *)
Theorem camera_basis (b : Blend) (cam : Object) :
  camera b = Some cam →
  let m := to_3x3 (matrix_world cam) in
  let forward := normalized (matvec m (mkVector 0 0 (-1))) in
  let up := normalized (matvec m (mkVector 0 1 0)) in
  let right := normalized (matvec m (mkVector 1 0 0)) in
  (camera_readable b →
   ∃ d, get_camera b = Ok d ∧
     d !! "camera_name" = Some (FStr (name cam)) ∧
     d !! "cam_pos_x" = Some (FFloat (x (translation (matrix_world cam)))) ∧
     d !! "cam_pos_y" = Some (FFloat (y (translation (matrix_world cam)))) ∧
     d !! "cam_pos_z" = Some (FFloat (z (translation (matrix_world cam)))) ∧
     d !! "cam_forward_x" = Some (FFloat (x forward)) ∧
     d !! "cam_forward_y" = Some (FFloat (y forward)) ∧
     d !! "cam_forward_z" = Some (FFloat (z forward)) ∧
     d !! "cam_up_x" = Some (FFloat (x up)) ∧
     d !! "cam_up_y" = Some (FFloat (y up)) ∧
     d !! "cam_up_z" = Some (FFloat (z up)) ∧
     d !! "cam_right_x" = Some (FFloat (x right)) ∧
     d !! "cam_right_y" = Some (FFloat (y right)) ∧
     d !! "cam_right_z" = Some (FFloat (z right)) ∧
     d !! "focal_length_mm" =
       Some (match data cam with DCamera lens => FFloat lens | _ => FStr "" end)) ∧
  (¬ camera_readable b → get_camera b = Raise AttributeError) ∧
  (det m ≠ 0%R →
     dot forward forward = 1%R ∧ dot up up = 1%R ∧ dot right right = 1%R) ∧
  (dot (matvec m (mkVector 1 0 0)) (matvec m (mkVector 0 1 0)) = 0%R →
   dot (matvec m (mkVector 1 0 0)) (matvec m (mkVector 0 0 1)) = 0%R →
   dot (matvec m (mkVector 0 1 0)) (matvec m (mkVector 0 0 1)) = 0%R →
   dot forward up = 0%R ∧ dot forward right = 0%R ∧ dot up right = 0%R).
Proof.
  intros Hcam. cbv zeta. split_and!.
  - unfold camera_readable, get_camera. rewrite Hcam.
    rewrite !safe_float_value, safe_str_value. cbn [mbind result_bind].
    intros [Hdata|[lens Hdata]]; rewrite Hdata; [|rewrite safe_float_value];
      cbn [mbind result_bind mret result_ret py_float float_PyFloat];
      eexists; (split; [reflexivity|]); split_and!; by simplify_map_eq.
  - unfold camera_readable, get_camera. rewrite Hcam.
    rewrite !safe_float_value, safe_str_value. cbn [mbind result_bind].
    intros Hdata. destruct (data cam) as [L|lens| |]; try done.
    + destruct Hdata. eauto.
    + destruct Hdata. eauto.
  - intros Hdet. split_and!; apply normalized_unit, invertible_matvec_nonzero;
      try done; intros [= ?]; lra.
  - intros Hxy Hxz Hyz. split_and!; apply normalized_orthogonal.
    + destruct (to_3x3 (matrix_world cam)). unfold dot, matvec in *. simpl in *. lra.
    + destruct (to_3x3 (matrix_world cam)). unfold dot, matvec in *. simpl in *. lra.
    + destruct (to_3x3 (matrix_world cam)). unfold dot, matvec in *. simpl in *. lra.
Qed.

(** ** Instances *)

Lemma sunlit_run_stops path_exists dataset_root :
  main still_host path_exists dataset_root sunlit_singular =
    (Some ValueError, mkWorld (with_setup "Point Light" sunlit_singular) [FStr <$> header]).
Proof.
  unfold main, setups. apply for_stmt_raise. unfold do_setup.
  cbn [frame_start frame_end sunlit_singular example_blend blend csv_rows].
  assert (seqZ 1 (17 + 1 - 1) = 1%Z :: seqZ 2 16) as -> by reflexivity.
  apply for_stmt_raise. rewrite do_frame_value. cbv zeta.
  cbn [blend csv_rows still_host].
  rewrite (frame_base_singular _ _ _ _ (example_camera zero3)); [reflexivity|reflexivity| | |].
  - apply det_zero3.
  - right. by exists 50%R.
  - unfold MAX_ACTIVE_LIGHTS. rewrite brightest_lights_eq. cbn [objects].
    change (set_light_setup "Point Light" (objects sunlit_singular)) with [lamp_sun].
    rewrite filter_cons_True by (split_and!; [done|done|unfold energy_of; simpl; lra]).
    done.
Qed.

Lemma studio_lights_only_active :
  filter is_active (objects studio_lights_only) = [lamp_point; lamp_spot; lamp_area; lamp_sun].
Proof.
  cbn [objects studio_lights_only example_blend].
  rewrite !filter_cons_True by (split_and!; [done|done|unfold energy_of; simpl; lra]).
  done.
Qed.

Lemma set_light_setup_only_visibility_witness :
  length (set_light_setup "Tri Light" studio_objects) = length studio_objects.
Proof.
  destruct (set_light_setup_only_visibility "Tri Light" studio_objects) as [Hlen _].
  exact Hlen.
Defined.

Lemma unknown_setup_hides_all_witness :
  set_light_setup "point light" studio_objects =
  set_light_setup "HDRI (Sunlight)" studio_objects.
Proof.
  destruct (unknown_setup_hides_all "point light" studio_objects) as [Heq _]; [|exact Heq].
  apply (bool_decide_unpack _). vm_compute. exact I.
Defined.

Lemma every_run_leaves_whole_frames_witness :
  ∃ w rows,
    main still_host (fun _ => false) DATASET_ROOT sunlit_singular = (Some ValueError, w) ∧
    csv_rows w = (FStr <$> header) :: rows ∧ (length SHAPES | length rows).
Proof.
  pose proof (sunlit_run_stops (fun _ => false) DATASET_ROOT) as Hrun.
  destruct (every_run_leaves_whole_frames _ _ _ _ _ _ Hrun)
    as (_ & rows & Hrows & _ & Hdiv & _).
  eexists _, rows. split; [exact Hrun|]. split; [exact Hrows|exact Hdiv].
Defined.

Lemma run_stops_only_on_camera_witness :
  ∃ w cam,
    main still_host (fun _ => false) DATASET_ROOT sunlit_singular = (Some ValueError, w) ∧
    camera (blend w) = Some cam ∧ det (to_3x3 (matrix_world cam)) = 0%R.
Proof.
  pose proof (sunlit_run_stops (fun _ => false) DATASET_ROOT) as Hrun.
  destruct (run_stops_only_on_camera _ _ _ _ _ _ Hrun)
    as (cam & Hcam & [[Habs _]|(_ & _ & Hdet & _)]); [discriminate Habs|].
  eexists _, cam. split; [exact Hrun|]. split; [exact Hcam|exact Hdet].
Defined.

Lemma run_leaves_lamps_of_last_setup_witness :
  ∃ w,
    main example_frame_set (fun _ => false) DATASET_ROOT studio = (None, w) ∧
    objects (blend w) = set_light_setup "HDRI (Overcast)" studio_objects.
Proof.
  destruct (main_rows example_frame_set (fun _ => false) DATASET_ROOT
              example_frame_set_camera studio) as (w & rows & Hrun & _).
  destruct (run_leaves_lamps_of_last_setup example_frame_set (fun _ => false) DATASET_ROOT
              studio None w (fun _ _ => eq_refl) Hrun) as [_ Hlast].
  destruct (Hlast eq_refl) as [Hobjs _].
  exists w. split; [exact Hrun|exact Hobjs].
Defined.

Lemma empty_frame_range_witness :
  main example_frame_set (fun _ => true) DATASET_ROOT empty_range =
    (None, mkWorld (with_setup "HDRI (Overcast)" empty_range) [FStr <$> header]).
Proof.
  apply empty_frame_range. cbn [frame_start frame_end empty_range]. lia.
Defined.

Lemma frame_without_camera_witness :
  ∃ w' new,
    do_frame still_host (fun _ => false) DATASET_ROOT 1 "Point Light" 1
      (mkWorld studio_no_camera []) = (None, w') ∧
    csv_rows w' = new ∧ length new = 6 ∧
    ∀ r, r ∈ new → csv_col "camera_name" r = Some (FStr "").
Proof.
  destruct (frame_without_camera still_host (fun _ => false) DATASET_ROOT 1 "Point Light" 1
              (mkWorld studio_no_camera []) eq_refl)
    as (w' & new & Hrun & Hrows & Hlen & Hcells).
  exists w', new. split; [exact Hrun|]. split; [exact Hrows|]. split; [exact Hlen|].
  intros r Hr. destruct (Hcells r Hr) as [Hcam _]. apply Hcam. apply list_elem_of_here.
Defined.

Lemma frame_rows_share_frame_data_witness :
  ∃ w' new,
    do_frame example_frame_set (fun _ => false) DATASET_ROOT 1 "Spot Light" 4
      (mkWorld studio []) = (None, w') ∧
    csv_rows w' = new ∧
    ∀ r1 r2, r1 ∈ new → r2 ∈ new → csv_col "light0_energy" r1 = csv_col "light0_energy" r2.
Proof.
  destruct (do_frame_rows example_frame_set (fun _ => false) DATASET_ROOT
              example_frame_set_camera 1 "Spot Light" 4 (mkWorld studio []))
    as (w' & new0 & Hrun & _ & _).
  destruct (frame_rows_share_frame_data example_frame_set (fun _ => false) DATASET_ROOT
              1 "Spot Light" 4 (mkWorld studio []) w' Hrun)
    as (new & Hrows & _ & Hsame).
  exists w', new. split; [exact Hrun|]. split; [exact Hrows|].
  intros r1 r2 H1 H2. apply (Hsame r1 r2 _ H1 H2).
  apply (bool_decide_unpack _). vm_compute. exact I.
Defined.

Lemma image_path_layout_witness :
  ∃ w' new r,
    do_frame example_frame_set (fun _ => false) DATASET_ROOT 1 "Point Light" 3
      (mkWorld studio []) = (None, w') ∧
    csv_rows w' = new ∧ new !! 0 = Some r ∧
    csv_col "image_relpath" r =
      Some (FStr "Cone/PlasticGlossy/Point Light/Batch 1 - Cycles AGX/3.png").
Proof.
  destruct (do_frame_rows example_frame_set (fun _ => false) DATASET_ROOT
              example_frame_set_camera 1 "Point Light" 3 (mkWorld studio []))
    as (w' & new0 & Hrun & _ & _).
  destruct (image_path_layout example_frame_set (fun _ => false) DATASET_ROOT
              1 "Point Light" 3 (mkWorld studio []) w') as (new & Hrows & Hpaths).
  { apply list_elem_of_here. }
  { exact Hrun. }
  destruct (Hpaths 0 "Cone" eq_refl) as (r & Hr & _ & Hrel & Hposix).
  exists w', new, r. split; [exact Hrun|]. split; [exact Hrows|]. split; [exact Hr|].
  rewrite Hrel, Hposix. vm_compute. reflexivity.
Defined.

Lemma batch_folder_classification_witness :
  engine_tag (render_engine studio) = "Cycles" ∧ view_tag (view_transform studio) = "AGX".
Proof.
  destruct (batch_folder_classification studio) as (_ & _ & _ & _ & _ & Hengine & Hview).
  split.
  - apply (Hengine "" "CYCLES" ""); reflexivity.
  - apply (Hview "" "AgX" ""); reflexivity.
Defined.

Lemma light_columns_fixed_witness :
  ∃ out, get_active_lights studio MAX_ACTIVE_LIGHTS = Ok out ∧ size (dom out) = 61.
Proof.
  destruct (get_active_lights_total studio studio_invertible) as [out Hout].
  destruct (light_columns_fixed studio out Hout) as [_ Hsize].
  exists out. split; [exact Hout|exact Hsize].
Defined.

Lemma first_slot_is_brightest_witness :
  ∃ out e0,
    get_active_lights studio MAX_ACTIVE_LIGHTS = Ok out ∧
    out !! (slot_prefix 0 +:+ "energy") = Some (FFloat e0) ∧ (energy_of lamp_sun <= e0)%R.
Proof.
  destruct (get_active_lights_total studio studio_invertible) as [out Hout].
  destruct (first_slot_is_brightest studio out lamp_sun Hout) as (e0 & Hcell & Hle).
  { apply (list_elem_of_lookup_2 _ 5). reflexivity. }
  { split; [reflexivity|]. split; [reflexivity|]. unfold energy_of. simpl. lra. }
  exists out, e0. split; [exact Hout|]. split; [exact Hcell|exact Hle].
Defined.

Lemma inactive_objects_are_ignored_witness :
  get_active_lights studio 3 = get_active_lights studio_lights_only 3.
Proof.
  destruct (inactive_objects_are_ignored studio studio_lights_only 3) as [_ Hsame].
  - reflexivity.
  - rewrite studio_lights_only_active. exact studio_active.
  - exact Hsame.
Defined.

Lemma aligned_light_looks_forward_witness :
  ∃ out,
    get_active_lights studio MAX_ACTIVE_LIGHTS = Ok out ∧
    out !! (slot_prefix 0 +:+ "dir_cam_z") = Some (FFloat (-1)).
Proof.
  destruct (get_active_lights_total studio studio_invertible) as [out Hout].
  destruct (aligned_light_looks_forward studio out 0 lamp_area (example_camera identity3))
    as (_ & _ & Hz).
  - exact Hout.
  - reflexivity.
  - unfold studio, MAX_ACTIVE_LIGHTS. rewrite studio_brightest. reflexivity.
  - reflexivity.
  - exists out. split; [exact Hout|exact Hz].
Defined.

Lemma forward_direction_unit_witness :
  dot (obj_forward_world lamp_point) (obj_forward_world lamp_point) = 1%R.
Proof.
  pose proof (forward_direction_unit lamp_point) as H. cbv zeta in H.
  destruct H as [_ H]. destruct H as [Hunit _]; [|exact Hunit].
  simpl. intros [= ?]. lra.
Defined.

Lemma camera_basis_witness :
  ∃ d, get_camera studio = Ok d ∧ d !! "focal_length_mm" = Some (FFloat 50).
Proof.
  pose proof (camera_basis studio (example_camera identity3) eq_refl) as H.
  cbv zeta in H. destruct H as (Hread & _).
  destruct Hread as (d & Hd & _ & _ & _ & _ & _ & _ & _ & _ & _ & _ & _ & _ & _ & Hfocal).
  { right. exists 50%R. reflexivity. }
  exists d. split; [exact Hd|exact Hfocal].
Defined.
